(** * autogpt/llm_utils.py: retry/backoff controller and continuation stitcher

    A shallow embedding of [autogpt/llm_utils.py].  Python computations
    become functions in an outcome-and-trace monad over an arbitrary
    provider (the network side of [openai] and [autogpt.anthropic]); the
    [while] loop of [sendReq] takes fuel, the [for] loops run over
    [range(num_retries)]. *)

From Stdlib Require Import ZArith List String Ascii Bool Lia SpecFloat.
Import ListNotations.
Local Open Scope string_scope.
Local Open Scope Z_scope.
Local Open Scope list_scope.

(** Python's [+] on [str]; [++] is kept for lists (traces). *)
Infix "+++" := String.append (right associativity, at level 60).

Set Implicit Arguments.

(** ** Python values and exceptions *)

(** The exception classes the module distinguishes.  [RateLimitError] and
    [APIError] are the two classes of [openai.error] named in the [except]
    clauses; [ProviderError] stands for an exception of any other class
    raised by a provider library (none of them derives from the two). *)
Inductive exn : Type :=
| RateLimitError (msg : string)
| APIError (msg : string) (http_status : option Z)
| IndexError (msg : string)
| AttributeError (msg : string)
| RuntimeError (msg : string)
| ProviderError (cls msg : string).

(** Outcome of running a piece of Python: a value, an exception in flight,
    [quit(code)], or the fuel of a [while] loop used up. *)
Inductive result (A : Type) : Type :=
| Return (a : A)
| Raise (e : exn)
| Exit (code : Z)
| OutOfFuel.
Arguments Return {A} a.
Arguments Raise {A} e.
Arguments Exit {A} code.
Arguments OutOfFuel {A}.

(** A Python [str] is kept as its UTF-8 bytes; the only character the
    module inspects is U+0020, a single byte that is never part of a
    longer encoding. *)
Fixpoint str_last (s : string) : option ascii :=
  match s with
  | EmptyString => None
  | String c EmptyString => Some c
  | String _ s' => str_last s'
  end.

Definition str_first (s : string) : option ascii :=
  match s with
  | EmptyString => None
  | String c _ => Some c
  end.

Definition string_index_error : exn := IndexError "string index out of range".
Definition list_index_error : exn := IndexError "list index out of range".

(** [s[-1]] and [s[0]] *)
Definition getitem_last (s : string) : result ascii :=
  match str_last s with Some c => Return c | None => Raise string_index_error end.

Definition getitem_first (s : string) : result ascii :=
  match str_first s with Some c => Return c | None => Raise string_index_error end.

(** [l[0]] on a list *)
Definition list_getitem0 {A} (l : list A) : result A :=
  match l with x :: _ => Return x | [] => Raise list_index_error end.

Definition SPACE : ascii := " "%char.

(** ** Requests, responses, configuration *)

(** A Python [float] is an IEEE 754 binary64 value; the module only passes
    floats along (the temperature, the embedding vector). *)
Definition float : Type := spec_float.

Definition HALF : float := S754_finite false 1 (-1).
Definition QUARTER : float := S754_finite false 1 (-2).
Definition THREE_QUARTERS : float := S754_finite false 3 (-2).

Record message := { role : string; content : string }.

Record CompletionRequest := {
  cr_api_key : string;
  cr_prompt : string;
  cr_stop_sequences : list string;
  cr_model : string;
  cr_max_tokens_to_sample : Z }.

Record Completion := { completion : string; stop_reason : string }.

Record ChatRequest := {
  ch_deployment_id : option string;
  ch_model : option string;
  ch_messages : list message;
  ch_temperature : float;
  ch_max_tokens : option Z }.

Record choice := { choice_message : message }.
Record ChatCompletion := { choices : list choice }.

Record EmbeddingRequest := {
  em_input : list string;
  em_engine : option string;
  em_model : option string }.

Record embedding_entry := { embedding : list float }.
Record Embeddings := { data : list embedding_entry }.

(** The fields and the one method of [autogpt.config.Config] the module reads. *)
Record Config := {
  openai_api_key : string;
  claude_mode : string;
  claude_api_key : string;
  claude_temperature : float;
  temperature : float;
  use_claude : bool;
  use_azure : bool;
  debug_mode : bool;
  get_azure_deployment_id_for_model : option string -> string }.

(** ** Observable effects *)

Inductive request : Type :=
| ReqCompletion (r : CompletionRequest)
| ReqChat (r : ChatRequest)
| ReqEmbedding (r : EmbeddingRequest).

Inductive reply : Type :=
| RepCompletion (r : Completion)
| RepChat (r : ChatCompletion)
| RepEmbedding (r : Embeddings).

(** The three [print] calls, by content. *)
Inductive notice : Type :=
| CreatingChatCompletion (hint_model : option string) (hint_temp : float)
                         (max_tokens : option Z)
| ReachedRateLimit
| BadGatewayWaiting (backoff : Z).

Inductive event : Type :=
| Call (rq : request) (answer : exn + reply)
| Print (n : notice)
| TypewriterLog (title title_color text : string)
| DoubleCheck (additionalText : option string)
| Sleep (secs : Z).

(** The provider side: each endpoint answers a request with a response or
    an exception and moves to a new state; [set_api_key] is what assigning
    [openai.api_key] does to it (the [openai] library sends the key with
    every later request), [elapse] what a blocking [time.sleep] does. *)
Record Provider (W : Type) := {
  completion_endpoint : CompletionRequest -> W -> (exn + Completion) * W;
  chat_endpoint : ChatRequest -> W -> (exn + ChatCompletion) * W;
  embedding_endpoint : EmbeddingRequest -> W -> (exn + Embeddings) * W;
  set_api_key : string -> W -> W;
  elapse : Z -> W -> W }.

(** ** The monad *)

Definition M (W A : Type) : Type := W -> result A * W * list event.

Definition ret {W A} (a : A) : M W A := fun w => (Return a, w, []).
Definition raise {W A} (e : exn) : M W A := fun w => (Raise e, w, []).
Definition quit {W A} (code : Z) : M W A := fun w => (Exit code, w, []).
Definition out_of_fuel {W A} : M W A := fun w => (OutOfFuel, w, []).
Definition emit {W} (ev : event) : M W unit := fun w => (Return tt, w, [ev]).
Definition lift {W A} (r : result A) : M W A := fun w => (r, w, []).

Definition bind {W A B} (m : M W A) (f : A -> M W B) : M W B :=
  fun w =>
    match m w with
    | (Return a, w1, t1) =>
        match f a w1 with (r, w2, t2) => (r, w2, t1 ++ t2) end
    | (Raise e, w1, t1) => (Raise e, w1, t1)
    | (Exit c, w1, t1) => (Exit c, w1, t1)
    | (OutOfFuel, w1, t1) => (OutOfFuel, w1, t1)
    end.

(** [try: m] with the exception, if any, handed to the [except] clauses. *)
Definition try {W A} (m : M W A) : M W (exn + A) :=
  fun w =>
    match m w with
    | (Return a, w1, t1) => (Return (inr a), w1, t1)
    | (Raise e, w1, t1) => (Return (inl e), w1, t1)
    | (Exit c, w1, t1) => (Exit c, w1, t1)
    | (OutOfFuel, w1, t1) => (OutOfFuel, w1, t1)
    end.

Definition when {W} (b : bool) (m : M W unit) : M W unit :=
  if b then m else ret tt.

Declare Scope py_scope.
Delimit Scope py_scope with py.
Notation "x <- m ;; k" := (bind m (fun x => k))
  (at level 61, m at next level, right associativity) : py_scope.
Notation "m ;;; k" := (bind m (fun _ => k))
  (at level 61, right associativity) : py_scope.
Local Open Scope py_scope.

Definition answer_result {A} (a : exn + A) : result A :=
  match a with inl e => Raise e | inr r => Return r end.

Definition answer_reply {A} (wrap : A -> reply) (a : exn + A) : exn + reply :=
  match a with inl e => inl e | inr r => inr (wrap r) end.

(** ** Module constants *)

Definition MAX_TOKEN_ONCE : Z := 4096.
Definition CONTINUE_PROMPT : string := "... continue".

(** The escape sequences of [colorama] the logged texts carry. *)
Definition ESC : string := String "027"%char EmptyString.
Definition Fore_RED : string := ESC +++ "[31m".
Definition Fore_CYAN : string := ESC +++ "[36m".
Definition Fore_RESET : string := ESC +++ "[39m".
Definition Style_BRIGHT : string := ESC +++ "[1m".
Definition Style_RESET_ALL : string := ESC +++ "[0m".

(** The text handed to [logger.double_check], lines 144-147. *)
Definition PAID_ADVISORY : string :=
  ("Please double check that you have setup a " +++ (Fore_CYAN +++ Style_BRIGHT)
   +++ "PAID" +++ Style_RESET_ALL +++ " OpenAI API Account. ")
  +++ ("You can read more here: " +++ Fore_CYAN
       +++ "https://github.com/Significant-Gravitas/Auto-GPT#openai-api-keys-configuration"
       +++ Fore_RESET).

(** The title and the content handed to [logger.typewriter_log], lines 163-168. *)
Definition FAILED_TITLE : string := "FAILED TO GET RESPONSE FROM OPENAI".
Definition FAILED_TEXT : string :=
  "Auto-GPT has failed to get a response from OpenAI's services. "
  +++ ("Try running Auto-GPT again, and if the problem the persists try running it with `"
       +++ Fore_CYAN +++ "--debug" +++ Fore_RESET +++ "`.").

Definition ADA : string := "text-embedding-ada-002".

(** [response] in [create_chat_completion] holds the text assembled by
    [sendReq] or the object returned by [openai.ChatCompletion.create]. *)
Inductive value : Type :=
| VStr (s : string)
| VChat (r : ChatCompletion).

Record Client := { client_api_key : string }.

Definition rbind {A B} (r : result A) (f : A -> result B) : result B :=
  match r with
  | Return a => f a
  | Raise e => Raise e
  | Exit c => Exit c
  | OutOfFuel => OutOfFuel
  end.

(** Lines 44-47 of [sendReq]: the join of the buffer [data] with the new
    fragment [d].  [and] evaluates [d[0]] only when [data[-1] != ' ']. *)
Definition stitch (data d : string) : result string :=
  rbind (getitem_last data) (fun c1 =>
    if negb (Ascii.eqb c1 SPACE) then
      rbind (getitem_first d) (fun c2 =>
        if negb (Ascii.eqb c2 SPACE)
        then Return (data +++ " " +++ d)
        else Return (data +++ d))
    else Return (data +++ d)).

(** [range(n)] *)
Definition range (n : nat) : list nat := seq 0 n.

Definition is_502 (http_status : option Z) : bool :=
  match http_status with Some s => s =? 502 | None => false end.

Section LLMUtils.

Variable W : Type.
Variable P : Provider W.

(** [anthropic.HUMAN_PROMPT] and [anthropic.AI_PROMPT]: constants of
    [autogpt.anthropic], which is not among the sources. *)
Variables HUMAN_PROMPT AI_PROMPT : string.

(** What an f-string makes of the [messages] list handed to [sendReq]
    as [question] (Python's [str] of a list of dicts). *)
Variable format_messages : list message -> string.

(** The process-wide [CFG = Config()]. *)
Variable CFG : Config.

(** *** Provider calls and [time.sleep] *)

Definition client_completion (client : Client) (prompt : string)
    (stop_sequences : list string) (model : string)
    (max_tokens_to_sample : Z) : M W Completion :=
  fun w =>
    let rq := {| cr_api_key := client_api_key client;
                 cr_prompt := prompt;
                 cr_stop_sequences := stop_sequences;
                 cr_model := model;
                 cr_max_tokens_to_sample := max_tokens_to_sample |} in
    let (a, w') := completion_endpoint P rq w in
    (answer_result a, w', [Call (ReqCompletion rq) (answer_reply RepCompletion a)]).

Definition openai_ChatCompletion_create (rq : ChatRequest) : M W ChatCompletion :=
  fun w =>
    let (a, w') := chat_endpoint P rq w in
    (answer_result a, w', [Call (ReqChat rq) (answer_reply RepChat a)]).

Definition openai_Embedding_create (rq : EmbeddingRequest) : M W Embeddings :=
  fun w =>
    let (a, w') := embedding_endpoint P rq w in
    (answer_result a, w', [Call (ReqEmbedding rq) (answer_reply RepEmbedding a)]).

Definition time_sleep (secs : Z) : M W unit :=
  fun w => (Return tt, elapse P secs w, [Sleep secs]).

(** *** The module body

    Line 20, [openai.api_key = CFG.openai_api_key], run once when the module
    is imported. *)
Definition import_llm_utils : M W unit :=
  fun w => (Return tt, set_api_key P (openai_api_key CFG) w, []).

(** *** [_sendReq] and [sendReq] *)

Definition _sendReq (client : Client) (prompt : string)
    (max_tokens_to_sample : Z) : M W Completion :=
  client_completion client prompt [HUMAN_PROMPT; AI_PROMPT]
                    (claude_mode CFG) max_tokens_to_sample.

(** The [while response["stop_reason"] == "max_tokens"] loop; [fuel]
    bounds the number of continuation rounds. *)
Fixpoint sendReq_while (fuel : nat) (client : Client) (max_tokens_to_sample : Z)
    (prompt data : string) (response : Completion) : M W string :=
  if negb (String.eqb (stop_reason response) "max_tokens") then ret data
  else
    match fuel with
    | O => out_of_fuel
    | S fuel' =>
        let prompt :=
          prompt +++ (HUMAN_PROMPT +++ " " +++ CONTINUE_PROMPT +++ " " +++ AI_PROMPT) in
        response <- _sendReq client prompt max_tokens_to_sample ;;
        let d := completion response in
        let prompt := prompt +++ d in
        data <- lift (stitch data d) ;;
        sendReq_while fuel' client max_tokens_to_sample prompt data response
    end.

(** [question] is the text the f-string puts between the markers;
    [max_tokens_to_sample] defaults to [MAX_TOKEN_ONCE] at the call site. *)
Definition sendReq (fuel : nat) (question : string)
    (max_tokens_to_sample : Z) : M W string :=
  let client := {| client_api_key := claude_api_key CFG |} in
  let prompt := HUMAN_PROMPT +++ " " +++ question +++ " " +++ AI_PROMPT in
  response <- _sendReq client prompt max_tokens_to_sample ;;
  let data := completion response in
  let prompt := prompt +++ completion response in
  sendReq_while fuel client max_tokens_to_sample prompt data response.

(** *** [create_chat_completion] *)

(** The body of the [try] statement, lines 119-135. *)
Definition chat_request (fuel : nat) (messages : list message)
    (model : option string) (temperature : float)
    (max_tokens : option Z) : M W value :=
  if use_claude CFG then
    response <- sendReq fuel (format_messages messages) MAX_TOKEN_ONCE ;;
    ret (VStr response)
  else if use_azure CFG then
    response <- openai_ChatCompletion_create
      {| ch_deployment_id := Some (get_azure_deployment_id_for_model CFG model);
         ch_model := model;
         ch_messages := messages;
         ch_temperature := temperature;
         ch_max_tokens := max_tokens |} ;;
    ret (VChat response)
  else
    response <- openai_ChatCompletion_create
      {| ch_deployment_id := None;
         ch_model := model;
         ch_messages := messages;
         ch_temperature := temperature;
         ch_max_tokens := max_tokens |} ;;
    ret (VChat response).

(** The [for attempt in range(num_retries)] loop, lines 116-161, run on
    the attempts still [todo]; the result is [response] at loop exit,
    [None] when no attempt assigned it. *)
Fixpoint chat_attempts (fuel num_retries : nat) (todo : list nat)
    (warned_user : bool) (messages : list message) (model : option string)
    (temperature : float) (max_tokens : option Z) : M W (option value) :=
  match todo with
  | [] => ret None
  | attempt :: rest =>
      let backoff := 2 ^ (Z.of_nat attempt + 2) in
      r <- try (chat_request fuel messages model temperature max_tokens) ;;
      match r with
      | inr response => ret (Some response)
      | inl e =>
          warned_user <-
            match e with
            | RateLimitError _ =>
                when (debug_mode CFG) (emit (Print ReachedRateLimit)) ;;;
                if negb warned_user
                then emit (DoubleCheck (Some PAID_ADVISORY)) ;;; ret true
                else ret warned_user
            | APIError _ http_status =>
                (if is_502 http_status then ret tt else raise e) ;;;
                (if Nat.eqb attempt (num_retries - 1) then raise e else ret tt) ;;;
                ret warned_user
            | _ => raise e
            end ;;
          when (debug_mode CFG) (emit (Print (BadGatewayWaiting backoff))) ;;;
          time_sleep backoff ;;;
          chat_attempts fuel num_retries rest warned_user
                        messages model temperature max_tokens
      end
  end.

Definition create_chat_completion (fuel : nat) (messages : list message)
    (model : option string) (temperature : float)
    (max_tokens : option Z) : M W value :=
  let num_retries := 10%nat in
  when (debug_mode CFG)
    (let hint_model := if use_claude CFG then Some (claude_mode CFG) else model in
     let hint_temp := if use_claude CFG then claude_temperature CFG else temperature in
     emit (Print (CreatingChatCompletion hint_model hint_temp max_tokens))) ;;;
  response <- chat_attempts fuel num_retries (range num_retries) false
                            messages model temperature max_tokens ;;
  response <-
    match response with
    | None =>
        emit (TypewriterLog FAILED_TITLE Fore_RED FAILED_TEXT) ;;;
        emit (DoubleCheck None) ;;;
        if debug_mode CFG
        then raise (RuntimeError "Failed to get response after 10 retries")
        else quit 1
    | Some response => ret response
    end ;;
  if use_claude CFG then ret response
  else
    match response with
    | VChat r =>
        c <- lift (list_getitem0 (choices r)) ;;
        ret (VStr (content (choice_message c)))
    | VStr _ => raise (AttributeError "'str' object has no attribute 'choices'")
    end.

(** *** [create_embedding_with_ada] *)

(** The body of the [try] statement, lines 187-197. *)
Definition embedding_request (text : string) : M W (list float) :=
  if use_azure CFG then
    response <- openai_Embedding_create
      {| em_input := [text];
         em_engine := Some (get_azure_deployment_id_for_model CFG (Some ADA));
         em_model := None |} ;;
    entry <- lift (list_getitem0 (data response)) ;;
    ret (embedding entry)
  else
    response <- openai_Embedding_create
      {| em_input := [text]; em_engine := None; em_model := Some ADA |} ;;
    entry <- lift (list_getitem0 (data response)) ;;
    ret (embedding entry).

(** The [for] loop, lines 184-212; [None] is what the function returns
    when the loop runs to its end. *)
Fixpoint embedding_attempts (num_retries : nat) (todo : list nat)
    (text : string) : M W (option (list float)) :=
  match todo with
  | [] => ret None
  | attempt :: rest =>
      let backoff := 2 ^ (Z.of_nat attempt + 2) in
      r <- try (embedding_request text) ;;
      match r with
      | inr v => ret (Some v)
      | inl e =>
          match e with
          | RateLimitError _ => ret tt
          | APIError _ http_status =>
              (if is_502 http_status then ret tt else raise e) ;;;
              (if Nat.eqb attempt (num_retries - 1) then raise e else ret tt)
          | _ => raise e
          end ;;;
          when (debug_mode CFG) (emit (Print (BadGatewayWaiting backoff))) ;;;
          time_sleep backoff ;;;
          embedding_attempts num_retries rest text
      end
  end.

Definition create_embedding_with_ada (text : string) : M W (option (list float)) :=
  let num_retries := 10%nat in
  embedding_attempts num_retries (range num_retries) text.

End LLMUtils.

Arguments sendReq {W} P HUMAN_PROMPT AI_PROMPT CFG fuel question max_tokens_to_sample _.
Arguments create_chat_completion {W} P HUMAN_PROMPT AI_PROMPT format_messages CFG
  fuel messages model temperature max_tokens _.
Arguments create_embedding_with_ada {W} P CFG text _.
Arguments import_llm_utils {W} P CFG _.

(** ** Reading a run *)

Definition outcome {W A} (run : result A * W * list event) : result A := fst (fst run).
Definition final_world {W A} (run : result A * W * list event) : W := snd (fst run).
Definition trace {W A} (run : result A * W * list event) : list event := snd run.

(** What the retry policy is about: provider failures and pauses. *)
Inductive step : Type :=
| Failed (e : exn)
| Slept (secs : Z).

Definition step_of (ev : event) : list step :=
  match ev with
  | Call _ (inl e) => [Failed e]
  | Sleep secs => [Slept secs]
  | _ => []
  end.

Definition policy_view (t : list event) : list step := flat_map step_of t.

Definition error_of (s : step) : list exn :=
  match s with Failed e => [e] | Slept _ => [] end.

Definition pause_of (s : step) : list Z :=
  match s with Failed _ => [] | Slept secs => [secs] end.

(** The exceptions the provider raised, oldest first. *)
Definition provider_errors (t : list event) : list exn :=
  flat_map error_of (policy_view t).

(** The durations handed to [time.sleep], oldest first. *)
Definition sleeps (t : list event) : list Z :=
  flat_map pause_of (policy_view t).

Definition request_of (ev : event) : list request :=
  match ev with Call rq _ => [rq] | _ => [] end.

Definition requests (t : list event) : list request := flat_map request_of t.

(** Rate-limit failures and [logger.double_check(text)] calls. *)
Inductive advice : Type :=
| RateLimited
| Advised (text : string).

Definition advice_of (ev : event) : list advice :=
  match ev with
  | Call _ (inl (RateLimitError _)) => [RateLimited]
  | DoubleCheck (Some text) => [Advised text]
  | _ => []
  end.

Definition advisory_view (t : list event) : list advice := flat_map advice_of t.

Definition is_print (ev : event) : bool :=
  match ev with Print _ => true | _ => false end.

(** ** The retry policy, in the specification's words *)

Definition is_rate_limit (e : exn) : bool :=
  match e with RateLimitError _ => true | _ => false end.

Definition is_bad_gateway (e : exn) : bool :=
  match e with APIError _ http_status => is_502 http_status | _ => false end.

(** Ceiling of attempts per call. *)
Definition CEILING : nat := 10.

(** Backoff delay of attempt [i], 0-indexed. *)
Definition backoff (i : nat) : Z := 2 ^ (Z.of_nat i + 2).

(** A failure of attempt [i] is retried when it is a rate-limit signal, or a
    bad gateway before the final allowed attempt. *)
Definition retryable (i : nat) (e : exn) : bool :=
  is_rate_limit e || (is_bad_gateway e && negb (Nat.eqb i (CEILING - 1))).

(** The failures and pauses the policy prescribes from attempt [i] on, given
    the provider's failures: each retried failure is followed by its backoff,
    a failure that is not retried ends the run. *)
Fixpoint schedule (i : nat) (errors : list exn) : list step :=
  match errors with
  | [] => []
  | e :: errors' =>
      if retryable i e
      then Failed e :: Slept (backoff i) :: schedule (S i) errors'
      else [Failed e]
  end.

(** Every failure from attempt [i] on is one the policy retries. *)
Fixpoint all_retryable (i : nat) (errors : list exn) : bool :=
  match errors with
  | [] => true
  | e :: errors' => retryable i e && all_retryable (S i) errors'
  end.

(** The advisory view the specification asks for after [k] rate-limit
    failures: one advisory, right after the first of them. *)
Definition advised_once (k : nat) : list advice :=
  match k with
  | O => []
  | S k' => RateLimited :: Advised PAID_ADVISORY :: repeat RateLimited k'
  end.

Definition rate_limits (t : list event) : nat :=
  List.length (filter is_rate_limit (provider_errors t)).

(** Python's [str.isspace] on one ASCII character. *)
Definition is_whitespace (c : ascii) : bool :=
  let n := nat_of_ascii c in
  (Nat.eqb n 32 || (Nat.leb 9 n && Nat.leb n 13) || (Nat.leb 28 n && Nat.leb n 31))%bool.

(** The join of step 4 of the stitcher as the specification words it. *)
Definition spec_join (data d : string) : option string :=
  match str_last data, str_first d with
  | Some a, Some b =>
      if (is_whitespace a || is_whitespace b)%bool
      then Some (data +++ d)
      else Some (data +++ " " +++ d)
  | _, _ => None
  end.

(** The fragments joined left to right, starting from the first completion. *)
Fixpoint stitch_all (data : string) (fragments : list string) : result string :=
  match fragments with
  | [] => Return data
  | d :: fragments' => rbind (stitch data d) (fun data' => stitch_all data' fragments')
  end.

(** ** A scripted provider

    The [n]-th call overall is answered by the script of its endpoint at
    [n]; the state is the number of calls made. *)
Record Script := {
  on_completion : nat -> exn + Completion;
  on_chat : nat -> exn + ChatCompletion;
  on_embedding : nat -> exn + Embeddings }.

Definition scripted (s : Script) : Provider nat :=
  {| completion_endpoint := fun _ n => (on_completion s n, S n);
     chat_endpoint := fun _ n => (on_chat s n, S n);
     embedding_endpoint := fun _ n => (on_embedding s n, S n);
     set_api_key := fun _ n => n;
     elapse := fun _ n => n |}.

Definition unscripted : exn := ProviderError "APIConnectionError" "no answer".

Definition answers {A} (l : list (exn + A)) (n : nat) : exn + A :=
  nth n l (inl unscripted).

Definition completions_script (l : list (exn + Completion)) : Script :=
  {| on_completion := answers l;
     on_chat := fun _ => inl unscripted;
     on_embedding := fun _ => inl unscripted |}.

Definition chat_script (l : list (exn + ChatCompletion)) : Script :=
  {| on_completion := fun _ => inl unscripted;
     on_chat := answers l;
     on_embedding := fun _ => inl unscripted |}.

Definition embedding_script (l : list (exn + Embeddings)) : Script :=
  {| on_completion := fun _ => inl unscripted;
     on_chat := fun _ => inl unscripted;
     on_embedding := answers l |}.

(** The markers of the Anthropic SDK, for concrete runs. *)
Definition NL : string := String "010"%char EmptyString.
Definition HUMAN : string := NL +++ NL +++ "Human:".
Definition ASSISTANT : string := NL +++ NL +++ "Assistant:".

Definition cfg (claude azure debug : bool) : Config :=
  {| openai_api_key := "sk-openai";
     claude_mode := "claude-v1";
     claude_api_key := "sk-ant";
     claude_temperature := HALF;
     temperature := THREE_QUARTERS;
     use_claude := claude;
     use_azure := azure;
     debug_mode := debug;
     get_azure_deployment_id_for_model := fun _ => "deployment" |}.

Definition truncated (text : string) : exn + Completion :=
  inr {| completion := text; stop_reason := "max_tokens" |}.

Definition complete (text : string) : exn + Completion :=
  inr {| completion := text; stop_reason := "stop_sequence" |}.

Definition chat_reply (text : string) : exn + ChatCompletion :=
  inr {| choices := [ {| choice_message := {| role := "assistant"; content := text |} |} ] |}.

Definition embedding_reply (v : list float) : exn + Embeddings :=
  inr {| data := [ {| embedding := v |} ] |}.

Definition show_messages (ms : list message) : string :=
  String.concat ", " (map content ms).

Definition ask (text : string) : list message :=
  [ {| role := "user"; content := text |} ].

(** Concrete runs. *)

Definition RATE_LIMIT : exn := RateLimitError "Rate limit reached for requests".
Definition BAD_GATEWAY : exn := APIError "Bad gateway" (Some 502).
Definition INVALID_KEY : exn := ProviderError "AuthenticationError" "Incorrect API key provided".

Definition chat_run (answers : list (exn + ChatCompletion)) (debug : bool)
  : result value * nat * list event :=
  create_chat_completion (scripted (chat_script answers)) HUMAN ASSISTANT show_messages
    (cfg false false debug) 0 (ask "hi") (Some "gpt-4") THREE_QUARTERS None 0%nat.

Definition ada_run (answers : list (exn + Embeddings)) (debug : bool)
  : result (option (list float)) * nat * list event :=
  create_embedding_with_ada (scripted (embedding_script answers))
    (cfg false false debug) "hi" 0%nat.

Definition claude_run (answers : list (exn + Completion)) (model : option string)
    (temp : float) (max_tokens : option Z) : result value * nat * list event :=
  create_chat_completion (scripted (completions_script answers)) HUMAN ASSISTANT
    show_messages (cfg true false true) 3 (ask "hi") model temp max_tokens 0%nat.

(** Two rate limits and a bad gateway, then an answer. *)
Definition flaky_chat : list (exn + ChatCompletion) :=
  [inl RATE_LIMIT; inl RATE_LIMIT; inl BAD_GATEWAY; chat_reply "hello"].

Definition flaky_ada : list (exn + Embeddings) :=
  [inl RATE_LIMIT; inl RATE_LIMIT; inl BAD_GATEWAY; embedding_reply [HALF; QUARTER]].

Definition part (text reason : string) : Completion :=
  {| completion := text; stop_reason := reason |}.

(** ** Shape of one attempt *)

(** An exchange the provider answered. *)
Definition replied (ev : event) : Prop :=
  match ev with Call _ (inr _) => True | _ => False end.

Definition quiet (t : list event) : Prop := Forall replied t.

(** An attempt that stopped without a provider failure: an [IndexError]
    of the module's own indexing, or the fuel of the model. *)
Definition aborted {A} (r : result A) : Prop :=
  match r with
  | OutOfFuel => True
  | Raise (IndexError _) => True
  | _ => False
  end.

Inductive attempt_shape {A : Type} : result A -> list event -> Prop :=
| shape_ok a t : quiet t -> attempt_shape (Return a) t
| shape_abort r t : quiet t -> aborted r -> attempt_shape r t
| shape_failed t rq e : quiet t -> attempt_shape (Raise e) (t ++ [Call rq (inl e)]).

(** The events a handler emits between a retried failure and the pause. *)
Definition chat_noise (debug : bool) (attempt : nat) (warned : bool) (e : exn)
  : list event :=
  (if is_rate_limit e
   then (if debug then [Print ReachedRateLimit] else [])
        ++ (if warned then [] else [DoubleCheck (Some PAID_ADVISORY)])
   else [])
  ++ (if debug then [Print (BadGatewayWaiting (backoff attempt))] else []).

Definition embedding_noise (debug : bool) (attempt : nat) (warned : bool) (e : exn)
  : list event :=
  if debug then [Print (BadGatewayWaiting (backoff attempt))] else [].

(** Runs of the retry controller of section 4.3: from attempt [i], with [n]
    attempts left and the warned flag, to a result and a trace. *)
Section Policy.

Variable A : Type.
Variable noise : nat -> bool -> exn -> list event.

Inductive retry_run : nat -> nat -> bool -> result (option A) -> list event -> Prop :=
| run_end i warned :
    retry_run i 0 warned (Return None) []
| run_ok i n warned a t :
    quiet t ->
    retry_run i (S n) warned (Return (Some a)) t
| run_abort i n warned r t :
    quiet t -> aborted r ->
    retry_run i (S n) warned r t
| run_fatal i n warned t rq e :
    quiet t -> retryable i e = false ->
    retry_run i (S n) warned (Raise e) (t ++ [Call rq (inl e)])
| run_retry i n warned t rq e r t' :
    quiet t -> retryable i e = true ->
    retry_run (S i) n (warned || is_rate_limit e) r t' ->
    retry_run i (S n) warned r
              (t ++ Call rq (inl e) :: noise i warned e ++ Sleep (backoff i) :: t').

End Policy.

(** ** [create_chat_completion] around its loop *)

(** The events before the loop, and the result and events after it. *)
Definition prologue (CFG : Config) (model : option string) (temp : float)
    (max_tokens : option Z) : list event :=
  if debug_mode CFG
  then [Print (CreatingChatCompletion
                 (if use_claude CFG then Some (claude_mode CFG) else model)
                 (if use_claude CFG then claude_temperature CFG else temp)
                 max_tokens)]
  else [].

Definition epilogue (CFG : Config) (r0 : result (option value))
  : result value * list event :=
  match r0 with
  | Return None =>
      (if debug_mode CFG
       then Raise (RuntimeError "Failed to get response after 10 retries")
       else Exit 1,
       [TypewriterLog FAILED_TITLE Fore_RED FAILED_TEXT; DoubleCheck None])
  | Return (Some response) =>
      (if use_claude CFG then Return response
       else match response with
            | VChat r =>
                rbind (list_getitem0 (choices r))
                      (fun c => Return (VStr (content (choice_message c))))
            | VStr _ => Raise (AttributeError "'str' object has no attribute 'choices'")
            end,
       [])
  | Raise e => (Raise e, [])
  | Exit c => (Exit c, [])
  | OutOfFuel => (OutOfFuel, [])
  end.

(** The exception a run ends with, if any. *)
Definition raised {A} (r : result A) : option exn :=
  match r with Raise e => Some e | _ => None end.

(** ** The continuation protocol, in the specification's words *)

(** The continuation cue wrapped in the turn markers. *)
Definition cue (H A : string) : string :=
  H +++ " " +++ CONTINUE_PROMPT +++ " " +++ A.

Definition completion_request (CFG : Config) (H A : string) (max_tokens : Z)
    (prompt : string) : CompletionRequest :=
  {| cr_api_key := claude_api_key CFG;
     cr_prompt := prompt;
     cr_stop_sequences := [H; A];
     cr_model := claude_mode CFG;
     cr_max_tokens_to_sample := max_tokens |}.

Definition exchange (CFG : Config) (H A : string) (max_tokens : Z)
    (prompt : string) (c : Completion) : event :=
  Call (ReqCompletion (completion_request CFG H A max_tokens prompt))
       (inr (RepCompletion c)).

(** The continuation rounds answered by [replies], from the transcript
    [prompt]: each round resends the transcript followed by the cue, with the
    same ceiling, and appends the reply to the transcript. *)
Fixpoint continuations (CFG : Config) (H A : string) (max_tokens : Z)
    (prompt : string) (replies : list Completion) : list event :=
  match replies with
  | [] => []
  | c :: replies' =>
      exchange CFG H A max_tokens (prompt +++ cue H A) c
      :: continuations CFG H A max_tokens ((prompt +++ cue H A) +++ completion c) replies'
  end.

(** The whole conversation of one [sendReq]. *)
Definition conversation (CFG : Config) (H A : string) (max_tokens : Z)
    (question : string) (first : Completion) (replies : list Completion)
  : list event :=
  let prompt := H +++ " " +++ question +++ " " +++ A in
  exchange CFG H A max_tokens prompt first
  :: continuations CFG H A max_tokens (prompt +++ completion first) replies.

(** Every reply but the last is length-limited, the last is not. *)
Fixpoint length_limited_until_last (c : Completion) (replies : list Completion) : bool :=
  match replies with
  | [] => negb (String.eqb (stop_reason c) "max_tokens")
  | c' :: replies' =>
      String.eqb (stop_reason c) "max_tokens" && length_limited_until_last c' replies'
  end.

(** The provider [P], asked the continuation rounds from the transcript
    [prompt] in state [w], answers [replies] one after the other and ends in
    state [w']. *)
Fixpoint continued {W} (P : Provider W) (CFG : Config) (H A : string) (max_tokens : Z)
    (prompt : string) (w : W) (replies : list Completion) (w' : W) : Prop :=
  match replies with
  | [] => w' = w
  | c :: replies' =>
      exists w1,
        completion_endpoint P (completion_request CFG H A max_tokens (prompt +++ cue H A)) w
        = (inr c, w1)
        /\ continued P CFG H A max_tokens ((prompt +++ cue H A) +++ completion c)
                     w1 replies' w'
  end.

(** The same from the first request of [sendReq] for [question]. *)
Definition conversed {W} (P : Provider W) (CFG : Config) (H A : string) (max_tokens : Z)
    (question : string) (w : W) (first : Completion) (replies : list Completion)
    (w' : W) : Prop :=
  let prompt := H +++ " " +++ question +++ " " +++ A in
  exists w1,
    completion_endpoint P (completion_request CFG H A max_tokens prompt) w = (inr first, w1)
    /\ continued P CFG H A max_tokens (prompt +++ completion first) w1 replies w'.

(** A request of the Claude family: the configured model and key, the
    markers as stop sequences, the fixed ceiling; it has no temperature. *)
Definition claude_request (CFG : Config) (H A : string) (rq : request) : Prop :=
  exists prompt, rq = ReqCompletion (completion_request CFG H A MAX_TOKEN_ONCE prompt).

(** A trace whose requests are all of the Claude family. *)
Definition claude_only (CFG : Config) (H A : string) (t : list event) : Prop :=
  Forall (claude_request CFG H A) (requests t).

(** The events of a trace that are not debug prints. *)
Definition without_prints (t : list event) : list event :=
  filter (fun ev => negb (is_print ev)) t.

(** The one request of the embedding client. *)
Definition ada_request (CFG : Config) (text : string) : EmbeddingRequest :=
  if use_azure CFG
  then {| em_input := [text];
          em_engine := Some (get_azure_deployment_id_for_model CFG (Some ADA));
          em_model := None |}
  else {| em_input := [text]; em_engine := None; em_model := Some ADA |}.

(** ** [call_ai_function] *)

(** An element of [args] is taken to be a [str] or [None]: [str(arg)] of a
    [str] is the string itself. *)
Definition render_arg (arg : option string) : string :=
  match arg with
  | Some text => text
  | None => "None"
  end.

(** [", ".join(args)] after the list comprehension of line 71. *)
Definition render_args (args : list (option string)) : string :=
  String.concat ", " (map render_arg args).

(** The two messages of lines 74-81. *)
Definition ai_function_messages (function : string) (args : list (option string))
    (description : string) : list message :=
  [ {| role := "system";
       content := "You are now the following python function: ```# " +++ description
                  +++ NL +++ function +++ "```" +++ NL +++ NL
                  +++ "Only respond with your `return` value." |};
    {| role := "user"; content := render_args args |} ].

(** The literal [0] passed as [temperature]. *)
Definition ZERO : float := S754_zero false.

Section CallAIFunction.

Variable W : Type.
Variable P : Provider W.
Variables HUMAN_PROMPT AI_PROMPT : string.
Variable format_messages : list message -> string.
Variable CFG : Config.

(** [CFG.smart_llm_model], a field of [autogpt.config.Config]. *)
Variable smart_llm_model : string.

Definition call_ai_function (fuel : nat) (function : string)
    (args : list (option string)) (description : string)
    (model : option string) : M W value :=
  let model := match model with None => smart_llm_model | Some m => m end in
  let args := render_args args in
  let messages :=
    [ {| role := "system";
         content := "You are now the following python function: ```# " +++ description
                    +++ NL +++ function +++ "```" +++ NL +++ NL
                    +++ "Only respond with your `return` value." |};
      {| role := "user"; content := args |} ] in
  create_chat_completion P HUMAN_PROMPT AI_PROMPT format_messages CFG fuel
                         messages (Some model) ZERO None.

End CallAIFunction.

Arguments call_ai_function {W} P HUMAN_PROMPT AI_PROMPT format_messages CFG
  smart_llm_model fuel function args description model _.

(** ** Loops whose attempt is one provider call *)

(** The request of [create_chat_completion] outside the Claude family. *)
Definition openai_request (CFG : Config) (messages : list message)
    (model : option string) (temp : float) (max_tokens : option Z) : ChatRequest :=
  {| ch_deployment_id :=
       if use_azure CFG
       then Some (get_azure_deployment_id_for_model CFG model)
       else None;
     ch_model := model;
     ch_messages := messages;
     ch_temperature := temp;
     ch_max_tokens := max_tokens |}.

(** What [create_embedding_with_ada] returns from a response. *)
Definition first_embedding (response : Embeddings) : result (list float) :=
  rbind (list_getitem0 (data response)) (fun entry => Return (embedding entry)).

(** Runs of a retry loop whose attempt is the one request [rq]: a reply
    ends the run with what [extract] makes of it, a failure is handled as in
    [retry_run]. *)
Section SingleCall.

Variables A R : Type.
Variable rq : request.
Variable wrap : R -> reply.
Variable extract : R -> result A.
Variable noise : nat -> bool -> exn -> list event.

Inductive single_call_run : nat -> nat -> bool -> result (option A) -> list event -> Prop :=
| single_end i warned :
    single_call_run i 0 warned (Return None) []
| single_reply i n warned response a :
    extract response = Return a ->
    single_call_run i (S n) warned (Return (Some a)) [Call rq (inr (wrap response))]
| single_index i n warned response :
    extract response = Raise list_index_error ->
    single_call_run i (S n) warned (Raise list_index_error)
                    [Call rq (inr (wrap response))]
| single_fatal i n warned e :
    retryable i e = false ->
    single_call_run i (S n) warned (Raise e) [Call rq (inl e)]
| single_retry i n warned e r t' :
    retryable i e = true ->
    single_call_run (S i) n (warned || is_rate_limit e) r t' ->
    single_call_run i (S n) warned r
                    (Call rq (inl e) :: noise i warned e ++ Sleep (backoff i) :: t').

End SingleCall.

(** ** Measures on strings and traces *)

(** The string without its space characters. *)
Fixpoint unspaced (s : string) : string :=
  match s with
  | EmptyString => EmptyString
  | String c s' => if Ascii.eqb c SPACE then unspaced s' else String c (unspaced s')
  end.

(** The strings one after the other. *)
Fixpoint joined_text (texts : list string) : string :=
  match texts with
  | [] => EmptyString
  | text :: texts' => text +++ joined_text texts'
  end.

(** The completions the provider replied with, oldest first. *)
Definition completion_of (ev : event) : list string :=
  match ev with
  | Call _ (inr (RepCompletion c)) => [completion c]
  | _ => []
  end.

Definition replied_texts (t : list event) : list string := flat_map completion_of t.

(** Seconds in total. *)
Definition total (secs : list Z) : Z := fold_right Z.add 0 secs.

(** Events that are neither exchanges, nor prints, nor pauses: the calls of
    the logger. *)
Definition is_log (ev : event) : bool :=
  match ev with
  | TypewriterLog _ _ _ => true
  | DoubleCheck _ => true
  | _ => false
  end.

(** The configuration with the debug flag set to [debug]. *)
Definition with_debug (CFG : Config) (debug : bool) : Config :=
  {| openai_api_key := openai_api_key CFG;
     claude_mode := claude_mode CFG;
     claude_api_key := claude_api_key CFG;
     claude_temperature := claude_temperature CFG;
     temperature := temperature CFG;
     use_claude := use_claude CFG;
     use_azure := use_azure CFG;
     debug_mode := debug;
     get_azure_deployment_id_for_model := get_azure_deployment_id_for_model CFG |}.

(** How [create_chat_completion] ends when no attempt succeeded. *)
Definition exhaustion_outcome (debug : bool) : result value :=
  if debug
  then Raise (RuntimeError "Failed to get response after 10 retries")
  else Exit 1.

(** ** The first request of a call *)

(** The exception, if any, with which the provider in state [w] answers the
    first request of [create_chat_completion]: the first completion request
    of [sendReq] in the Claude family, the chat request otherwise. *)
Definition first_failure {W} (P : Provider W) (H A : string)
    (fmt : list message -> string) (CFG : Config) (messages : list message)
    (model : option string) (temp : float) (max_tokens : option Z) (w : W)
  : option exn :=
  if use_claude CFG then
    match fst (completion_endpoint P
                 (completion_request CFG H A MAX_TOKEN_ONCE
                    (H +++ " " +++ fmt messages +++ " " +++ A)) w) with
    | inl e => Some e
    | inr _ => None
    end
  else
    match fst (chat_endpoint P (openai_request CFG messages model temp max_tokens) w) with
    | inl e => Some e
    | inr _ => None
    end.

(** ** A provider that checks the key *)

(** The state is the key last assigned to [openai.api_key]; an embedding
    request is answered when that key is [good] and refused otherwise. *)
Definition keyed (good : string) (v : list float) : Provider string :=
  {| completion_endpoint := fun _ key => (inl unscripted, key);
     chat_endpoint := fun _ key => (inl unscripted, key);
     embedding_endpoint :=
       fun _ key => (if String.eqb key good then embedding_reply v else inl INVALID_KEY, key);
     set_api_key := fun key _ => key;
     elapse := fun _ key => key |}.

(** The configuration with the OpenAI key set to [key]. *)
Definition with_openai_key (CFG : Config) (key : string) : Config :=
  {| openai_api_key := key;
     claude_mode := claude_mode CFG;
     claude_api_key := claude_api_key CFG;
     claude_temperature := claude_temperature CFG;
     temperature := temperature CFG;
     use_claude := use_claude CFG;
     use_azure := use_azure CFG;
     debug_mode := debug_mode CFG;
     get_azure_deployment_id_for_model := get_azure_deployment_id_for_model CFG |}.

Ltac see := unfold outcome, trace, final_world in *; simpl in *.

(** ** Lemmas on views *)

Lemma policy_view_app t1 t2 :
  policy_view (t1 ++ t2) = policy_view t1 ++ policy_view t2.
Proof. apply flat_map_app. Qed.

Lemma provider_errors_app t1 t2 :
  provider_errors (t1 ++ t2) = provider_errors t1 ++ provider_errors t2.
Proof. unfold provider_errors. rewrite policy_view_app. apply flat_map_app. Qed.

Lemma sleeps_app t1 t2 : sleeps (t1 ++ t2) = sleeps t1 ++ sleeps t2.
Proof. unfold sleeps. rewrite policy_view_app. apply flat_map_app. Qed.

Lemma advisory_view_app t1 t2 :
  advisory_view (t1 ++ t2) = advisory_view t1 ++ advisory_view t2.
Proof. apply flat_map_app. Qed.

Lemma requests_app t1 t2 : requests (t1 ++ t2) = requests t1 ++ requests t2.
Proof. apply flat_map_app. Qed.

Lemma quiet_app t1 t2 : quiet t1 -> quiet t2 -> quiet (t1 ++ t2).
Proof. intros H1 H2. apply Forall_app. split; assumption. Qed.

Lemma quiet_policy_view t : quiet t -> policy_view t = [].
Proof.
  induction 1 as [|ev t Hev _ IH]; [reflexivity|].
  destruct ev as [rq [e|rp]| | | |]; simpl in Hev; try contradiction.
  exact IH.
Qed.

Lemma quiet_advisory_view t : quiet t -> advisory_view t = [].
Proof.
  induction 1 as [|ev t Hev _ IH]; [reflexivity|].
  destruct ev as [rq [e|rp]| | | |]; simpl in Hev; try contradiction.
  exact IH.
Qed.

Lemma quiet_provider_errors t : quiet t -> provider_errors t = [].
Proof. intros H. unfold provider_errors. rewrite (quiet_policy_view H). reflexivity. Qed.

Lemma chat_noise_policy_view debug i warned e :
  policy_view (chat_noise debug i warned e) = [].
Proof. unfold chat_noise. destruct (is_rate_limit e), debug, warned; reflexivity. Qed.

Lemma embedding_noise_policy_view debug i warned e :
  policy_view (embedding_noise debug i warned e) = [].
Proof. unfold embedding_noise. destruct debug; reflexivity. Qed.

Lemma attempt_shape_prepend {A} (r : result A) t0 t :
  quiet t0 -> attempt_shape r t -> attempt_shape r (t0 ++ t).
Proof.
  intros H0 H. destruct H as [a t H|r t H Hr|t rq e H].
  - apply shape_ok. apply quiet_app; assumption.
  - apply shape_abort; [apply quiet_app|]; assumption.
  - rewrite app_assoc. apply shape_failed. apply quiet_app; assumption.
Qed.

Lemma stitch_cases data d :
  (exists s, stitch data d = Return s) \/ stitch data d = Raise string_index_error.
Proof.
  unfold stitch, getitem_last, getitem_first.
  destruct (str_last data) as [c1|]; simpl; [|right; reflexivity].
  destruct (negb (Ascii.eqb c1 SPACE)); [|left; eexists; reflexivity].
  destruct (str_first d) as [c2|]; simpl; [|right; reflexivity].
  destruct (negb (Ascii.eqb c2 SPACE)); left; eexists; reflexivity.
Qed.

(** ** The attempts of both functions follow the policy *)

Section Attempts.

Variable W : Type.
Variable P : Provider W.
Variables HUMAN_PROMPT AI_PROMPT : string.
Variable format_messages : list message -> string.
Variable CFG : Config.

Lemma sendReq_while_shape fuel client mt :
  forall prompt buffer response w,
    attempt_shape
      (outcome (sendReq_while P HUMAN_PROMPT AI_PROMPT CFG fuel client mt
                              prompt buffer response w))
      (trace (sendReq_while P HUMAN_PROMPT AI_PROMPT CFG fuel client mt
                            prompt buffer response w)).
Proof.
  induction fuel as [|fuel IH]; intros prompt buffer response w; simpl;
    destruct (negb (String.eqb (stop_reason response) "max_tokens"));
    try (apply shape_ok; constructor).
  - apply shape_abort; [constructor | exact I].
  - unfold bind, _sendReq, client_completion.
    match goal with |- context [completion_endpoint P ?rq w] =>
      destruct (completion_endpoint P rq w) as [[e|c] w1] end; simpl.
    + apply (shape_failed (A:=string) (t:=[])). constructor.
    + unfold lift.
      destruct (stitch_cases buffer (completion c)) as [[s Hs]|Hs]; rewrite Hs.
      * match goal with |- context [sendReq_while _ _ _ _ _ _ _ ?p ?b ?r ?w'] =>
          specialize (IH p b r w');
          destruct (sendReq_while P HUMAN_PROMPT AI_PROMPT CFG fuel client mt p b r w')
            as [[r' w2] t2] end.
        simpl in *.
        apply (attempt_shape_prepend (t0:=[_])); [|exact IH].
        constructor; [exact I | constructor].
      * simpl. apply shape_abort; [|exact I].
        constructor; [exact I | constructor].
Qed.

Lemma sendReq_shape fuel question mt w :
  attempt_shape (outcome (sendReq P HUMAN_PROMPT AI_PROMPT CFG fuel question mt w))
                (trace (sendReq P HUMAN_PROMPT AI_PROMPT CFG fuel question mt w)).
Proof.
  unfold sendReq, bind, _sendReq, client_completion.
  match goal with |- context [completion_endpoint P ?rq w] =>
    destruct (completion_endpoint P rq w) as [[e|c] w1] end; simpl.
  - apply (shape_failed (A:=string) (t:=[])). constructor.
  - match goal with |- context [sendReq_while _ _ _ _ _ ?cl _ ?p ?b ?r ?w'] =>
      pose proof (sendReq_while_shape fuel cl mt p b r w') as H;
      destruct (sendReq_while P HUMAN_PROMPT AI_PROMPT CFG fuel cl mt p b r w')
        as [[r' w2] t2] end.
    simpl in *.
    apply (attempt_shape_prepend (t0:=[_])); [|exact H].
    constructor; [exact I | constructor].
Qed.

Lemma chat_request_shape fuel messages model temp max_tokens w :
  attempt_shape
    (outcome (chat_request P HUMAN_PROMPT AI_PROMPT format_messages CFG
                           fuel messages model temp max_tokens w))
    (trace (chat_request P HUMAN_PROMPT AI_PROMPT format_messages CFG
                         fuel messages model temp max_tokens w)).
Proof.
  unfold chat_request.
  destruct (use_claude CFG).
  - pose proof (sendReq_shape fuel (format_messages messages) MAX_TOKEN_ONCE w) as H.
    unfold bind.
    destruct (sendReq P HUMAN_PROMPT AI_PROMPT CFG fuel
                      (format_messages messages) MAX_TOKEN_ONCE w) as [[r w1] t1].
    see.
    inversion H as [a t Hq|r0 t Hq Hr|t rq e Hq]; subst; see.
    + rewrite app_nil_r. apply shape_ok. exact Hq.
    + destruct r as [a|e|c|]; see; try contradiction;
        apply shape_abort; assumption.
    + apply shape_failed. exact Hq.
  - destruct (use_azure CFG); unfold bind, openai_ChatCompletion_create;
      match goal with |- context [chat_endpoint P ?rq w] =>
        destruct (chat_endpoint P rq w) as [[e|c] w1] end; see.
    all: try (apply (shape_failed (A:=value) (t:=[])); constructor).
    all: apply shape_ok; constructor; [exact I | constructor].
Qed.

Lemma embedding_request_shape text w :
  attempt_shape (outcome (embedding_request P CFG text w))
                (trace (embedding_request P CFG text w)).
Proof.
  unfold embedding_request.
  destruct (use_azure CFG); unfold bind, openai_Embedding_create;
    match goal with |- context [embedding_endpoint P ?rq w] =>
      destruct (embedding_endpoint P rq w) as [[e|c] w1] end; see.
  all: try (apply (shape_failed (A:=list float) (t:=[])); constructor).
  all: destruct (data c) as [|entry rest]; see.
  all: try (apply shape_abort; [constructor; [exact I | constructor] | exact I]).
  all: apply shape_ok; constructor; [exact I | constructor].
Qed.

Lemma run_retry_eq A noise i n warned t rq e (r : result (option A)) t' tr :
  quiet t -> retryable i e = true ->
  retry_run noise (S i) n (warned || is_rate_limit e) r t' ->
  tr = t ++ Call rq (inl e) :: noise i warned e ++ Sleep (backoff i) :: t' ->
  retry_run noise i (S n) warned r tr.
Proof. intros Hq He Hr ->. apply run_retry; assumption. Qed.

Lemma chat_attempts_cons fuel num_retries attempt rest warned_user
      messages model temp max_tokens :
  chat_attempts P HUMAN_PROMPT AI_PROMPT format_messages CFG fuel num_retries
                (attempt :: rest) warned_user messages model temp max_tokens
  = (r <- try (chat_request P HUMAN_PROMPT AI_PROMPT format_messages CFG
                            fuel messages model temp max_tokens) ;;
     match r with
     | inr response => ret (Some response)
     | inl e =>
         warned_user <-
           match e with
           | RateLimitError _ =>
               when (debug_mode CFG) (emit (Print ReachedRateLimit)) ;;;
               if negb warned_user
               then emit (DoubleCheck (Some PAID_ADVISORY)) ;;; ret true
               else ret warned_user
           | APIError _ http_status =>
               (if is_502 http_status then ret tt else raise e) ;;;
               (if Nat.eqb attempt (num_retries - 1) then raise e else ret tt) ;;;
               ret warned_user
           | _ => raise e
           end ;;
         when (debug_mode CFG) (emit (Print (BadGatewayWaiting (backoff attempt)))) ;;;
         time_sleep P (backoff attempt) ;;;
         chat_attempts P HUMAN_PROMPT AI_PROMPT format_messages CFG fuel num_retries
                       rest warned_user messages model temp max_tokens
     end)%py.
Proof. reflexivity. Qed.

Lemma chat_attempts_run fuel messages model temp max_tokens :
  forall n i warned w r w' t,
    chat_attempts P HUMAN_PROMPT AI_PROMPT format_messages CFG fuel 10
                  (seq i n) warned messages model temp max_tokens w = (r, w', t) ->
    retry_run (chat_noise (debug_mode CFG)) i n warned r t.
Proof.
  induction n as [|n IH]; intros i warned w r w' t Hrun.
  { inversion Hrun; subst. apply run_end. }
  simpl seq in Hrun. rewrite chat_attempts_cons in Hrun.
  pose proof (chat_request_shape fuel messages model temp max_tokens w) as H.
  unfold bind at 1 in Hrun. unfold try in Hrun.
  destruct (chat_request P HUMAN_PROMPT AI_PROMPT format_messages CFG fuel
                         messages model temp max_tokens w) as [[rb w1] t1].
  see.
  inversion H as [a tb Hq|r0 tb Hq Hr|tb rq e Hq]; subst; see.
  - inversion Hrun; subst. rewrite app_nil_r. apply run_ok. exact Hq.
  - destruct rb as [a|[]|c|]; see; try contradiction;
      inversion Hrun; subst; rewrite ?app_nil_r;
      (apply run_abort; [exact Hq | exact I]).
  - unfold bind, when, emit, ret, raise, time_sleep in Hrun.
    destruct e as [m|m st|m|m|m|c m]; see;
      try (inversion Hrun; subst; rewrite app_nil_r;
           apply run_fatal; [exact Hq | reflexivity]).
    + (* RateLimitError *)
      destruct (debug_mode CFG), warned; see;
        match type of Hrun with context [chat_attempts ?a1 ?a2 ?a3 ?a4 ?a5 ?a6 ?a7 ?a8 ?a9 ?b1 ?b2 ?b3 ?b4 ?b5] =>
          pose proof (IH (S i) a9 b5) as IH';
          destruct (chat_attempts a1 a2 a3 a4 a5 a6 a7 a8 a9 b1 b2 b3 b4 b5) as [[r2 w2] t2] end;
        inversion Hrun; subst;
        (eapply run_retry_eq with (e:=RateLimitError m) (rq:=rq);
         [exact Hq | reflexivity | eapply IH'; reflexivity |]);
        unfold chat_noise, backoff; simpl; rewrite <- ?app_assoc; reflexivity.
    + (* APIError *)
      destruct (is_502 st) eqn:E502; see.
      * destruct (Nat.eqb i 9) eqn:E9; see.
        -- inversion Hrun; subst. rewrite app_nil_r. apply run_fatal; [exact Hq|].
           unfold retryable; simpl. rewrite E502, E9. reflexivity.
        -- destruct (debug_mode CFG) eqn:Edbg; see;
             match type of Hrun with context [chat_attempts ?a1 ?a2 ?a3 ?a4 ?a5 ?a6 ?a7 ?a8 ?a9 ?b1 ?b2 ?b3 ?b4 ?b5] =>
               pose proof (IH (S i) a9 b5) as IH';
               destruct (chat_attempts a1 a2 a3 a4 a5 a6 a7 a8 a9 b1 b2 b3 b4 b5) as [[r2 w2] t2] end;
             inversion Hrun; subst;
             (eapply run_retry_eq with (e:=APIError m st) (rq:=rq);
              [exact Hq
              | unfold retryable; simpl; rewrite E502, E9; reflexivity
              | simpl; rewrite orb_false_r; eapply IH'; reflexivity |]);
             unfold chat_noise, backoff; simpl; rewrite <- ?app_assoc; reflexivity.
      * inversion Hrun; subst. rewrite app_nil_r. apply run_fatal; [exact Hq|].
        unfold retryable; simpl. rewrite E502. reflexivity.
Qed.

Lemma embedding_attempts_cons num_retries attempt rest text :
  embedding_attempts P CFG num_retries (attempt :: rest) text
  = (r <- try (embedding_request P CFG text) ;;
     match r with
     | inr v => ret (Some v)
     | inl e =>
         match e with
         | RateLimitError _ => ret tt
         | APIError _ http_status =>
             (if is_502 http_status then ret tt else raise e) ;;;
             (if Nat.eqb attempt (num_retries - 1) then raise e else ret tt)
         | _ => raise e
         end ;;;
         when (debug_mode CFG) (emit (Print (BadGatewayWaiting (backoff attempt)))) ;;;
         time_sleep P (backoff attempt) ;;;
         embedding_attempts P CFG num_retries rest text
     end)%py.
Proof. reflexivity. Qed.

Lemma embedding_attempts_run text :
  forall n i warned w r w' t,
    embedding_attempts P CFG 10 (seq i n) text w = (r, w', t) ->
    retry_run (embedding_noise (debug_mode CFG)) i n warned r t.
Proof.
  induction n as [|n IH]; intros i warned w r w' t Hrun.
  { inversion Hrun; subst. apply run_end. }
  simpl seq in Hrun. rewrite embedding_attempts_cons in Hrun.
  pose proof (embedding_request_shape text w) as H.
  unfold bind at 1 in Hrun. unfold try in Hrun.
  destruct (embedding_request P CFG text w) as [[rb w1] t1].
  see.
  inversion H as [a tb Hq|r0 tb Hq Hr|tb rq e Hq]; subst; see.
  - inversion Hrun; subst. rewrite app_nil_r. apply run_ok. exact Hq.
  - destruct rb as [a|[]|c|]; see; try contradiction;
      inversion Hrun; subst; rewrite ?app_nil_r;
      (apply run_abort; [exact Hq | exact I]).
  - unfold bind, when, emit, ret, raise, time_sleep in Hrun.
    destruct e as [m|m st|m|m|m|c m]; see;
      try (inversion Hrun; subst; rewrite app_nil_r;
           apply run_fatal; [exact Hq | reflexivity]).
    + (* RateLimitError *)
      destruct (debug_mode CFG); see;
        match type of Hrun with context [embedding_attempts ?a1 ?a2 ?a3 ?a4 ?a5 ?a6] =>
          pose proof (IH (S i) (warned || true)%bool a6) as IH';
          destruct (embedding_attempts a1 a2 a3 a4 a5 a6) as [[r2 w2] t2] end;
        inversion Hrun; subst;
        (eapply run_retry_eq with (e:=RateLimitError m) (rq:=rq);
         [exact Hq | reflexivity | eapply IH'; reflexivity |]);
        unfold embedding_noise, backoff; simpl; rewrite <- ?app_assoc; reflexivity.
    + (* APIError *)
      destruct (is_502 st) eqn:E502; see.
      * destruct (Nat.eqb i 9) eqn:E9; see.
        -- inversion Hrun; subst. rewrite app_nil_r. apply run_fatal; [exact Hq|].
           unfold retryable; simpl. rewrite E502, E9. reflexivity.
        -- destruct (debug_mode CFG) eqn:Edbg; see;
             match type of Hrun with context [embedding_attempts ?a1 ?a2 ?a3 ?a4 ?a5 ?a6] =>
               pose proof (IH (S i) warned a6) as IH';
               destruct (embedding_attempts a1 a2 a3 a4 a5 a6) as [[r2 w2] t2] end;
             inversion Hrun; subst;
             (eapply run_retry_eq with (e:=APIError m st) (rq:=rq);
              [exact Hq
              | unfold retryable; simpl; rewrite E502, E9; reflexivity
              | simpl; rewrite orb_false_r; eapply IH'; reflexivity |]);
             unfold embedding_noise, backoff; simpl; rewrite <- ?app_assoc; reflexivity.
      * inversion Hrun; subst. rewrite app_nil_r. apply run_fatal; [exact Hq|].
        unfold retryable; simpl. rewrite E502. reflexivity.
Qed.

End Attempts.

(** ** Consequences of the policy *)

Section PolicyFacts.

Variable A : Type.
Variable noise : nat -> bool -> exn -> list event.
Hypothesis noise_silent : forall i warned e, policy_view (noise i warned e) = [].

Lemma retry_view i warned rq e t' :
  policy_view (Call rq (inl e) :: noise i warned e ++ Sleep (backoff i) :: t')
  = Failed e :: Slept (backoff i) :: policy_view t'.
Proof.
  change (Call rq (inl e) :: noise i warned e ++ Sleep (backoff i) :: t')
    with ([Call rq (inl e)] ++ noise i warned e ++ [Sleep (backoff i)] ++ t').
  rewrite !policy_view_app, noise_silent. reflexivity.
Qed.

Lemma run_policy_view i n warned (r : result (option A)) t :
  retry_run noise i n warned r t ->
  policy_view t = schedule i (provider_errors t).
Proof.
  induction 1 as [i warned|i n warned a t Hq|i n warned r t Hq Hr
                 |i n warned t rq e Hq He|i n warned t rq e r t' Hq He Hrun IH].
  - reflexivity.
  - rewrite (quiet_provider_errors Hq), (quiet_policy_view Hq). reflexivity.
  - rewrite (quiet_provider_errors Hq), (quiet_policy_view Hq). reflexivity.
  - rewrite provider_errors_app, policy_view_app,
      (quiet_provider_errors Hq), (quiet_policy_view Hq).
    simpl. rewrite He. reflexivity.
  - unfold provider_errors.
    rewrite policy_view_app, (quiet_policy_view Hq), retry_view.
    simpl. rewrite He. fold (provider_errors t'). rewrite <- IH. reflexivity.
Qed.

Lemma run_errors_retry i warned rq e t t' :
  quiet t ->
  provider_errors (t ++ Call rq (inl e) :: noise i warned e ++ Sleep (backoff i) :: t')
  = e :: provider_errors t'.
Proof.
  intros Hq. unfold provider_errors.
  rewrite policy_view_app, (quiet_policy_view Hq), retry_view. reflexivity.
Qed.

Lemma run_errors_fatal rq e t :
  quiet t -> provider_errors (t ++ [Call rq (inl e)]) = [e].
Proof.
  intros Hq. rewrite provider_errors_app, (quiet_provider_errors Hq). reflexivity.
Qed.

(** No more failures than attempts. *)
Lemma run_ceiling i n warned (r : result (option A)) t :
  retry_run noise i n warned r t ->
  (List.length (provider_errors t) <= n)%nat.
Proof.
  induction 1 as [i warned|i n warned a t Hq|i n warned r t Hq Hr
                 |i n warned t rq e Hq He|i n warned t rq e r t' Hq He Hrun IH].
  - simpl. lia.
  - rewrite (quiet_provider_errors Hq). simpl. lia.
  - rewrite (quiet_provider_errors Hq). simpl. lia.
  - rewrite (run_errors_fatal _ _ Hq). simpl. lia.
  - rewrite (run_errors_retry _ _ _ _ _ Hq). simpl. lia.
Qed.

Lemma run_sleeps_retry i warned rq e t t' :
  quiet t ->
  sleeps (t ++ Call rq (inl e) :: noise i warned e ++ Sleep (backoff i) :: t')
  = backoff i :: sleeps t'.
Proof.
  intros Hq. unfold sleeps.
  rewrite policy_view_app, (quiet_policy_view Hq), retry_view. reflexivity.
Qed.

(** A failure the policy does not retry ends the run: it is raised, it is
    the last event, and only the failures before it were slept on. *)
Lemma run_stops i n warned (r : result (option A)) t :
  retry_run noise i n warned r t ->
  forall k e,
    nth_error (provider_errors t) k = Some e ->
    retryable (i + k) e = false ->
    r = Raise e
    /\ (exists t0 rq, t = t0 ++ [Call rq (inl e)])
    /\ List.length (sleeps t) = k
    /\ List.length (provider_errors t) = S k.
Proof.
  induction 1 as [i warned|i n warned a t Hq|i n warned r t Hq Hr
                 |i n warned t rq e Hq He|i n warned t rq e r t' Hq He Hrun IH];
    intros k e' Hk Hfatal.
  - destruct k; discriminate.
  - rewrite (quiet_provider_errors Hq) in Hk. destruct k; discriminate.
  - rewrite (quiet_provider_errors Hq) in Hk. destruct k; discriminate.
  - rewrite (run_errors_fatal _ _ Hq) in *.
    destruct k as [|[|k]]; try discriminate.
    inversion Hk; subst. split; [reflexivity|].
    split; [exists t, rq; reflexivity|].
    rewrite sleeps_app. unfold sleeps at 1. rewrite (quiet_policy_view Hq).
    split; reflexivity.
  - rewrite (run_errors_retry _ _ _ _ _ Hq) in *.
    rewrite (run_sleeps_retry _ _ _ _ _ Hq).
    destruct k as [|k]; simpl in Hk.
    + inversion Hk; subst. rewrite Nat.add_0_r in Hfatal. congruence.
    + replace (i + S k)%nat with (S i + k)%nat in Hfatal by lia.
      destruct (IH k e' Hk Hfatal) as [Hr [[t0 [rq' Ht]] [Hs He']]].
      split; [exact Hr|].
      split; [|simpl; split; congruence].
      exists (t ++ Call rq (inl e) :: noise i warned e ++ Sleep (backoff i) :: t0), rq'.
      rewrite Ht. rewrite <- app_assoc. simpl. rewrite <- app_assoc. reflexivity.
Qed.

(** As many retried failures as attempts: the loop ran to its end. *)
Lemma run_exhausted i n warned (r : result (option A)) t :
  retry_run noise i n warned r t ->
  List.length (provider_errors t) = n ->
  all_retryable i (provider_errors t) = true ->
  r = Return None.
Proof.
  induction 1 as [i warned|i n warned a t Hq|i n warned r t Hq Hr
                 |i n warned t rq e Hq He|i n warned t rq e r t' Hq He Hrun IH];
    intros Hlen Hall.
  - reflexivity.
  - rewrite (quiet_provider_errors Hq) in Hlen. discriminate.
  - rewrite (quiet_provider_errors Hq) in Hlen. discriminate.
  - rewrite (run_errors_fatal _ _ Hq) in Hall. simpl in Hall.
    rewrite He in Hall. discriminate.
  - rewrite (run_errors_retry _ _ _ _ _ Hq) in Hlen, Hall. simpl in Hlen, Hall.
    apply andb_true_iff in Hall. destruct Hall as [_ Hall].
    apply IH; [lia | exact Hall].
Qed.

End PolicyFacts.

(** What the schedule pauses on: the [k]-th failure, when retried, is
    followed by the backoff of its attempt. *)
Lemma schedule_pause errors :
  forall i k e,
    nth_error (flat_map error_of (schedule i errors)) k = Some e ->
    retryable (i + k) e = true ->
    nth_error (flat_map pause_of (schedule i errors)) k = Some (backoff (i + k)).
Proof.
  induction errors as [|e0 errors IH]; intros i k e Hk He; simpl in *.
  - destruct k; discriminate.
  - destruct (retryable i e0) eqn:E0; simpl in *.
    + destruct k as [|k]; simpl in *.
      * rewrite Nat.add_0_r. reflexivity.
      * replace (i + S k)%nat with (S i + k)%nat in * by lia.
        apply IH with (e := e); assumption.
    + destruct k as [|[|k]]; simpl in *; try discriminate.
      inversion Hk; subst. rewrite Nat.add_0_r in He. congruence.
Qed.

(** The advisory under the chat handlers: once, unless already warned. *)
Lemma run_advisory (A : Type) debug i n warned (r : result (option A)) t :
  retry_run (chat_noise debug) i n warned r t ->
  advisory_view t
  = if warned then repeat RateLimited (rate_limits t) else advised_once (rate_limits t).
Proof.
  assert (Hsilent : forall i warned e, policy_view (chat_noise debug i warned e) = [])
    by (intros; apply chat_noise_policy_view).
  induction 1 as [i warned|i n warned a t Hq|i n warned r t Hq Hr
                 |i n warned t rq e Hq He|i n warned t rq e r t' Hq He Hrun IH];
    unfold rate_limits in *.
  - destruct warned; reflexivity.
  - rewrite (quiet_provider_errors Hq), (quiet_advisory_view Hq). destruct warned; reflexivity.
  - rewrite (quiet_provider_errors Hq), (quiet_advisory_view Hq). destruct warned; reflexivity.
  - rewrite (run_errors_fatal _ _ Hq), advisory_view_app, (quiet_advisory_view Hq).
    unfold retryable in He. apply orb_false_iff in He. destruct He as [He _].
    destruct e; try discriminate; simpl; destruct warned; reflexivity.
  - rewrite (run_errors_retry _ Hsilent) by exact Hq; rewrite advisory_view_app,
      (quiet_advisory_view Hq).
    change (Call rq (inl e) :: chat_noise debug i warned e ++ Sleep (backoff i) :: t')
      with ([Call rq (inl e)] ++ chat_noise debug i warned e ++ [Sleep (backoff i)] ++ t').
    rewrite !advisory_view_app, IH. simpl filter.
    destruct (is_rate_limit e) eqn:Erl.
    + destruct e; try discriminate. rewrite orb_true_r.
      unfold chat_noise; simpl. destruct debug, warned; reflexivity.
    + rewrite orb_false_r.
      assert (Hcall : advisory_view [Call rq (inl e)] = [])
        by (destruct e; try discriminate; reflexivity).
      rewrite Hcall. unfold chat_noise. rewrite Erl.
      destruct debug; reflexivity.
Qed.

(** No advisory under the embedding handlers. *)
Lemma run_no_advisory (A : Type) debug i n warned (r : result (option A)) t :
  retry_run (embedding_noise debug) i n warned r t ->
  advisory_view t = repeat RateLimited (rate_limits t).
Proof.
  assert (Hsilent : forall i warned e, policy_view (embedding_noise debug i warned e) = [])
    by (intros; apply embedding_noise_policy_view).
  induction 1 as [i warned|i n warned a t Hq|i n warned r t Hq Hr
                 |i n warned t rq e Hq He|i n warned t rq e r t' Hq He Hrun IH];
    unfold rate_limits in *.
  - reflexivity.
  - rewrite (quiet_provider_errors Hq), (quiet_advisory_view Hq). reflexivity.
  - rewrite (quiet_provider_errors Hq), (quiet_advisory_view Hq). reflexivity.
  - rewrite (run_errors_fatal _ _ Hq), advisory_view_app, (quiet_advisory_view Hq).
    unfold retryable in He. apply orb_false_iff in He. destruct He as [He _].
    destruct e; try discriminate; reflexivity.
  - rewrite (run_errors_retry _ Hsilent) by exact Hq; rewrite advisory_view_app,
      (quiet_advisory_view Hq).
    change (Call rq (inl e) :: embedding_noise debug i warned e ++ Sleep (backoff i) :: t')
      with ([Call rq (inl e)] ++ embedding_noise debug i warned e ++ [Sleep (backoff i)] ++ t').
    rewrite !advisory_view_app, IH. simpl filter.
    unfold embedding_noise.
    destruct e; simpl; destruct debug; reflexivity.
Qed.

Lemma create_chat_completion_loop W (P : Provider W) H A fmt CFG fuel
      messages model temp max_tokens w :
  exists r0 w0 t0,
    chat_attempts P H A fmt CFG fuel 10 (seq 0 10) false
                  messages model temp max_tokens w = (r0, w0, t0)
    /\ create_chat_completion P H A fmt CFG fuel messages model temp max_tokens w
       = (fst (epilogue CFG r0), w0,
          prologue CFG model temp max_tokens ++ t0 ++ snd (epilogue CFG r0)).
Proof.
  destruct (chat_attempts P H A fmt CFG fuel 10 (seq 0 10) false
                          messages model temp max_tokens w) as [[r0 w0] t0] eqn:E.
  exists r0, w0, t0. split; [reflexivity|].
  unfold create_chat_completion, prologue, epilogue, range.
  unfold bind at 1. unfold when, emit, ret.
  destruct (debug_mode CFG) eqn:Edbg; unfold bind at 1; rewrite E;
    destruct r0 as [[v|]|e|c|]; simpl; rewrite ?app_nil_r; try reflexivity;
    unfold bind, ret, raise, lift; simpl;
    destruct (use_claude CFG); simpl; rewrite ?app_nil_r; try reflexivity;
    destruct v as [s|r]; simpl; rewrite ?app_nil_r; try reflexivity;
    destruct (choices r); simpl; rewrite ?app_nil_r; reflexivity.
Qed.

Lemma prologue_policy_view CFG model temp mt :
  policy_view (prologue CFG model temp mt) = [].
Proof. unfold prologue. destruct (debug_mode CFG); reflexivity. Qed.

Lemma prologue_advisory_view CFG model temp mt :
  advisory_view (prologue CFG model temp mt) = [].
Proof. unfold prologue. destruct (debug_mode CFG); reflexivity. Qed.

Lemma epilogue_policy_view CFG r0 : policy_view (snd (epilogue CFG r0)) = [].
Proof. destruct r0 as [[v|]|e|c|]; reflexivity. Qed.

Lemma epilogue_advisory_view CFG r0 : advisory_view (snd (epilogue CFG r0)) = [].
Proof. destruct r0 as [[v|]|e|c|]; reflexivity. Qed.

Lemma framed_policy_view CFG model temp mt r0 t0 :
  policy_view (prologue CFG model temp mt ++ t0 ++ snd (epilogue CFG r0))
  = policy_view t0.
Proof.
  rewrite !policy_view_app, prologue_policy_view, epilogue_policy_view, app_nil_r.
  reflexivity.
Qed.

Lemma framed_provider_errors CFG model temp mt r0 t0 :
  provider_errors (prologue CFG model temp mt ++ t0 ++ snd (epilogue CFG r0))
  = provider_errors t0.
Proof. unfold provider_errors. rewrite framed_policy_view. reflexivity. Qed.

Lemma framed_sleeps CFG model temp mt r0 t0 :
  sleeps (prologue CFG model temp mt ++ t0 ++ snd (epilogue CFG r0)) = sleeps t0.
Proof. unfold sleeps. rewrite framed_policy_view. reflexivity. Qed.

Lemma framed_advisory_view CFG model temp mt r0 t0 :
  advisory_view (prologue CFG model temp mt ++ t0 ++ snd (epilogue CFG r0))
  = advisory_view t0.
Proof.
  rewrite !advisory_view_app, prologue_advisory_view, epilogue_advisory_view, app_nil_r.
  reflexivity.
Qed.

(** The run of [create_chat_completion], seen through the policy. *)
Lemma chat_completion_policy W (P : Provider W) H A fmt CFG fuel
      messages model temp max_tokens w :
  exists r0 t0,
    retry_run (chat_noise (debug_mode CFG)) 0 10 false r0 t0
    /\ outcome (create_chat_completion P H A fmt CFG fuel messages model temp max_tokens w)
       = fst (epilogue CFG r0)
    /\ trace (create_chat_completion P H A fmt CFG fuel messages model temp max_tokens w)
       = prologue CFG model temp max_tokens ++ t0 ++ snd (epilogue CFG r0).
Proof.
  destruct (create_chat_completion_loop P H A fmt CFG fuel messages model temp max_tokens w)
    as [r0 [w0 [t0 [Hloop Hrun]]]].
  exists r0, t0. rewrite Hrun. split; [|split; reflexivity].
  eapply chat_attempts_run. exact Hloop.
Qed.

Lemma embedding_policy W (P : Provider W) CFG text w :
  retry_run (embedding_noise (debug_mode CFG)) 0 10 false
            (outcome (create_embedding_with_ada P CFG text w))
            (trace (create_embedding_with_ada P CFG text w)).
Proof.
  unfold create_embedding_with_ada, range.
  destruct (embedding_attempts P CFG 10 (seq 0 10) text w) as [[r w'] t] eqn:E.
  eapply embedding_attempts_run. exact E.
Qed.

(** ** The retry controller *)

(** C2. In a run of [create_chat_completion] or of
    [create_embedding_with_ada], when attempt [i] fails with a failure the
    policy retries, [i] is in [0,9] and the pause taken for it is exactly
    [2^(i+2)]: the [i]-th pause of the run.  Failures and pauses alternate as
    the schedule prescribes, so nothing else is slept. *)
Theorem backoff_delay_of_attempt W (P : Provider W) H A fmt CFG fuel
    messages model temp max_tokens text w t i e :
  t = trace (create_chat_completion P H A fmt CFG fuel messages model temp max_tokens w)
  \/ t = trace (create_embedding_with_ada P CFG text w) ->
  nth_error (provider_errors t) i = Some e ->
  retryable i e = true ->
  (i <= 9)%nat
  /\ nth_error (sleeps t) i = Some (2 ^ (Z.of_nat i + 2))
  /\ policy_view t = schedule 0 (provider_errors t).
Proof.
  intros Ht Hi He.
  assert (Hrun : policy_view t = schedule 0 (provider_errors t)
                 /\ (List.length (provider_errors t) <= 10)%nat).
  { destruct Ht as [-> | ->].
    - destruct (chat_completion_policy P H A fmt CFG fuel messages model temp max_tokens w)
        as [r0 [t0 [Hrun [_ Htr]]]].
      rewrite Htr, framed_policy_view, framed_provider_errors.
      split.
      + eapply run_policy_view; [|exact Hrun]. apply chat_noise_policy_view.
      + eapply run_ceiling; [|exact Hrun]. apply chat_noise_policy_view.
    - pose proof (embedding_policy P CFG text w) as Hrun.
      split.
      + eapply run_policy_view; [|exact Hrun]. apply embedding_noise_policy_view.
      + eapply run_ceiling; [|exact Hrun]. apply embedding_noise_policy_view. }
  destruct Hrun as [Hview Hlen].
  split; [|split; [|exact Hview]].
  - assert (i < List.length (provider_errors t))%nat
      by (apply nth_error_Some; congruence).
    lia.
  - unfold sleeps. rewrite Hview.
    apply (schedule_pause (provider_errors t) 0 i (e:=e)); [|exact He].
    rewrite <- Hview. exact Hi.
Qed.

(** An attempt whose first request the provider fails. *)
Lemma chat_request_first_failure W (P : Provider W) H A fmt CFG fuel
      messages model temp max_tokens w e :
  first_failure P H A fmt CFG messages model temp max_tokens w = Some e ->
  exists rq w1,
    chat_request P H A fmt CFG fuel messages model temp max_tokens w
    = (Raise e, w1, [Call rq (inl e)]).
Proof.
  unfold first_failure, chat_request.
  destruct (use_claude CFG).
  - unfold sendReq, bind, _sendReq, client_completion, completion_request. simpl.
    match goal with |- context [completion_endpoint P ?rq w] =>
      destruct (completion_endpoint P rq w) as [[e'|c] w1] end;
      simpl; intros He; inversion He; subst.
    eexists. eexists. reflexivity.
  - unfold openai_request.
    destruct (use_azure CFG); unfold bind, openai_ChatCompletion_create;
      match goal with |- context [chat_endpoint P ?rq w] =>
        destruct (chat_endpoint P rq w) as [[e'|c] w1] end;
      simpl; intros He; inversion He; subst;
      eexists; eexists; reflexivity.
Qed.

(** The handler of a rate-limit failure, the user not yet warned: the
    advisory, then the pause of the attempt, then the next attempt. *)
Lemma chat_attempts_first_rate_limit W (P : Provider W) H A fmt CFG fuel
      messages model temp max_tokens attempt rest w msg r w' t :
  first_failure P H A fmt CFG messages model temp max_tokens w
  = Some (RateLimitError msg) ->
  chat_attempts P H A fmt CFG fuel 10 (attempt :: rest) false
                messages model temp max_tokens w = (r, w', t) ->
  exists rq t',
    t = Call rq (inl (RateLimitError msg))
        :: (if debug_mode CFG then [Print ReachedRateLimit] else [])
        ++ DoubleCheck (Some PAID_ADVISORY)
        :: (if debug_mode CFG then [Print (BadGatewayWaiting (backoff attempt))] else [])
        ++ Sleep (backoff attempt) :: t'.
Proof.
  intros Hfirst Hrun.
  destruct (chat_request_first_failure P H A fmt CFG fuel messages model temp max_tokens
              w Hfirst) as [rq [w1 Hreq]].
  rewrite chat_attempts_cons in Hrun.
  unfold bind at 1 in Hrun. unfold try in Hrun. rewrite Hreq in Hrun.
  unfold bind, when, emit, ret, raise, time_sleep in Hrun.
  destruct (debug_mode CFG); cbn [negb fst snd app] in Hrun;
    match type of Hrun with context [chat_attempts ?a1 ?a2 ?a3 ?a4 ?a5 ?a6 ?a7 ?a8 ?a9 ?b1 ?b2 ?b3 ?b4 ?b5] =>
      destruct (chat_attempts a1 a2 a3 a4 a5 a6 a7 a8 a9 b1 b2 b3 b4 b5) as [[r2 w2] t2] end;
    inversion Hrun; subst; exists rq, t2; reflexivity.
Qed.

(** C4. In a run of [create_chat_completion] the advisory about the paid
    account is logged once, right after the first rate-limit failure, and
    never again however many rate-limit failures follow; the pauses are those
    of the schedule and no others.  The advisory is logged indeed: when the
    provider answers the first request of the call with a rate-limit error,
    the run goes on with the advisory, the pause of 4 seconds and the next
    attempt. *)
Theorem rate_limit_advisory_once W (P : Provider W) H A fmt CFG fuel
    messages model temp max_tokens w :
  let t := trace (create_chat_completion P H A fmt CFG fuel
                                         messages model temp max_tokens w) in
  advisory_view t = advised_once (rate_limits t)
  /\ policy_view t = schedule 0 (provider_errors t)
  /\ (forall msg,
        first_failure P H A fmt CFG messages model temp max_tokens w
        = Some (RateLimitError msg) ->
        exists rq t',
          t = prologue CFG model temp max_tokens
              ++ Call rq (inl (RateLimitError msg))
              :: (if debug_mode CFG then [Print ReachedRateLimit] else [])
              ++ DoubleCheck (Some PAID_ADVISORY)
              :: (if debug_mode CFG then [Print (BadGatewayWaiting 4)] else [])
              ++ Sleep 4 :: t').
Proof.
  destruct (create_chat_completion_loop P H A fmt CFG fuel messages model temp max_tokens w)
    as [r0 [w0 [t0 [Hloop Htr]]]].
  pose proof (chat_attempts_run P H A fmt CFG fuel messages model temp max_tokens
                10 0 false w Hloop) as Hrun.
  cbv zeta. rewrite Htr. unfold trace, rate_limits. cbn [snd].
  rewrite framed_advisory_view, framed_policy_view, framed_provider_errors.
  split; [|split].
  - apply (run_advisory Hrun).
  - eapply run_policy_view; [|exact Hrun]. apply chat_noise_policy_view.
  - intros msg Hfirst.
    change (seq 0 10) with (0%nat :: seq 1 9) in Hloop.
    eapply chat_attempts_first_rate_limit in Hloop; [|exact Hfirst].
    destruct Hloop as [rq [t' Ht]].
    exists rq, (t' ++ snd (epilogue CFG r0)).
    rewrite Ht. f_equal.
    destruct (debug_mode CFG); cbn [app]; reflexivity.
Qed.

(** C5. When the ten attempts of [create_chat_completion] all fail with
    failures the policy retries, the failure notice is logged and the call
    ends with the [RuntimeError] on exhaustion in debug mode, and with
    [quit(1)] otherwise. *)
Theorem exhausted_attempts_fail_loud W (P : Provider W) H A fmt CFG fuel
    messages model temp max_tokens w :
  let run := create_chat_completion P H A fmt CFG fuel messages model temp max_tokens w in
  List.length (provider_errors (trace run)) = 10%nat ->
  all_retryable 0 (provider_errors (trace run)) = true ->
  outcome run
  = (if debug_mode CFG
     then Raise (RuntimeError "Failed to get response after 10 retries")
     else Exit 1)
  /\ exists t0,
       trace run = t0 ++ [TypewriterLog FAILED_TITLE Fore_RED FAILED_TEXT; DoubleCheck None].
Proof.
  destruct (chat_completion_policy P H A fmt CFG fuel messages model temp max_tokens w)
    as [r0 [t0 [Hrun [Hout Htr]]]].
  simpl. rewrite Hout, Htr, framed_provider_errors.
  intros Hlen Hall.
  assert (r0 = Return None) as ->.
  { eapply run_exhausted; [|exact Hrun|exact Hlen|exact Hall].
    apply chat_noise_policy_view. }
  simpl. split; [reflexivity|].
  exists (prologue CFG model temp max_tokens ++ t0).
  rewrite <- app_assoc. reflexivity.
Qed.

(** C6. A bad-gateway error raised by the provider on the tenth attempt of
    [create_chat_completion] or of [create_embedding_with_ada] is the
    exception the call ends with, and the last event of the run: no pause
    follows it. *)
Theorem bad_gateway_on_final_attempt_reraised W (P : Provider W) H A fmt CFG fuel
    messages model temp max_tokens text w t r msg status :
  (t = trace (create_chat_completion P H A fmt CFG fuel messages model temp max_tokens w)
   /\ r = raised (outcome (create_chat_completion P H A fmt CFG fuel
                                                  messages model temp max_tokens w)))
  \/ (t = trace (create_embedding_with_ada P CFG text w)
      /\ r = raised (outcome (create_embedding_with_ada P CFG text w))) ->
  nth_error (provider_errors t) 9 = Some (APIError msg status) ->
  is_502 status = true ->
  r = Some (APIError msg status)
  /\ (exists t0 rq, t = t0 ++ [Call rq (inl (APIError msg status))])
  /\ List.length (sleeps t) = 9%nat.
Proof.
  intros Ht Hnth H502.
  assert (Hfatal : retryable (0 + 9) (APIError msg status) = false).
  { unfold retryable. simpl. rewrite H502. reflexivity. }
  destruct Ht as [[-> ->] | [-> ->]].
  - destruct (chat_completion_policy P H A fmt CFG fuel messages model temp max_tokens w)
      as [r0 [t0 [Hrun [Hout Htr]]]].
    rewrite Htr, framed_provider_errors in Hnth.
    destruct (run_stops (chat_noise_policy_view (debug_mode CFG)) Hrun _ Hnth Hfatal)
      as [Hr [[t1 [rq Ht1]] [Hs _]]].
    rewrite Hout, Htr, framed_sleeps. subst r0. simpl.
    split; [reflexivity|]. split; [|exact Hs].
    exists (prologue CFG model temp max_tokens ++ t1), rq.
    rewrite Ht1, app_nil_r, <- app_assoc. reflexivity.
  - pose proof (embedding_policy P CFG text w) as Hrun.
    destruct (run_stops (embedding_noise_policy_view (debug_mode CFG)) Hrun _ Hnth Hfatal)
      as [Hr [Hlast [Hs _]]].
    rewrite Hr. simpl. split; [reflexivity|]. split; assumption.
Qed.

(** C7. A provider error that is neither a rate-limit signal nor a bad
    gateway ends [create_chat_completion] at once: it is the exception the
    call raises, unchanged; it is the last event of the run, so no pause and
    no request follows it; the pauses of the run are those of the failures
    before it. *)
Theorem fatal_error_aborts_retrying W (P : Provider W) H A fmt CFG fuel
    messages model temp max_tokens w k e :
  let run := create_chat_completion P H A fmt CFG fuel messages model temp max_tokens w in
  nth_error (provider_errors (trace run)) k = Some e ->
  is_rate_limit e = false ->
  is_bad_gateway e = false ->
  outcome run = Raise e
  /\ (exists t0 rq, trace run = t0 ++ [Call rq (inl e)])
  /\ List.length (sleeps (trace run)) = k
  /\ List.length (provider_errors (trace run)) = S k.
Proof.
  destruct (chat_completion_policy P H A fmt CFG fuel messages model temp max_tokens w)
    as [r0 [t0 [Hrun [Hout Htr]]]].
  simpl. rewrite Hout, Htr, framed_provider_errors, framed_sleeps.
  intros Hnth Hrl Hbg.
  assert (Hfatal : retryable (0 + k) e = false).
  { unfold retryable. rewrite Hrl, Hbg. reflexivity. }
  destruct (run_stops (chat_noise_policy_view (debug_mode CFG)) Hrun _ Hnth Hfatal)
    as [Hr [[t1 [rq Ht1]] [Hs Hn]]].
  subst r0. simpl.
  split; [reflexivity|]. split; [|split; assumption].
  exists (prologue CFG model temp max_tokens ++ t1), rq.
  rewrite Ht1, app_nil_r, <- app_assoc. reflexivity.
Qed.

(** ** The continuation stitcher *)

Lemma sendReq_while_S W (P : Provider W) H A CFG fuel client mt prompt buffer response :
  sendReq_while P H A CFG (S fuel) client mt prompt buffer response
  = if negb (String.eqb (stop_reason response) "max_tokens") then ret buffer
    else (reply <- _sendReq P H A CFG client (prompt +++ cue H A) mt ;;
          joined <- lift (stitch buffer (completion reply)) ;;
          sendReq_while P H A CFG fuel client mt
                        ((prompt +++ cue H A) +++ completion reply) joined reply)%py.
Proof. reflexivity. Qed.

Lemma sendReq_while_stop W (P : Provider W) H A CFG fuel client mt prompt buffer response :
  String.eqb (stop_reason response) "max_tokens" = false ->
  sendReq_while P H A CFG fuel client mt prompt buffer response = ret buffer.
Proof. intros Hstop. destruct fuel; simpl; rewrite Hstop; reflexivity. Qed.

Lemma _sendReq_run W (P : Provider W) H A CFG prompt mt w :
  _sendReq P H A CFG {| client_api_key := claude_api_key CFG |} prompt mt w
  = (answer_result (fst (completion_endpoint P (completion_request CFG H A mt prompt) w)),
     snd (completion_endpoint P (completion_request CFG H A mt prompt) w),
     [Call (ReqCompletion (completion_request CFG H A mt prompt))
           (answer_reply RepCompletion
              (fst (completion_endpoint P (completion_request CFG H A mt prompt) w)))]).
Proof.
  unfold _sendReq, client_completion, completion_request. simpl.
  match goal with |- context [completion_endpoint P ?rq w] =>
    destruct (completion_endpoint P rq w) end.
  reflexivity.
Qed.

Lemma sendReq_while_continued W (P : Provider W) H A CFG mt :
  forall replies w cur prompt buffer fuel result w',
    continued P CFG H A mt prompt w replies w' ->
    length_limited_until_last cur replies = true ->
    stitch_all buffer (map completion replies) = Return result ->
    (List.length replies <= fuel)%nat ->
    sendReq_while P H A CFG fuel {| client_api_key := claude_api_key CFG |}
                  mt prompt buffer cur w
    = (Return result, w', continuations CFG H A mt prompt replies).
Proof.
  induction replies as [|c replies IH];
    intros w cur prompt buffer fuel result w' Hserved Hstop Hjoin Hfuel;
    simpl in Hserved, Hstop, Hjoin.
  - inversion Hjoin; subst.
    apply negb_true_iff in Hstop.
    rewrite sendReq_while_stop by exact Hstop. reflexivity.
  - destruct Hserved as [w1 [Hnow Hserved]].
    apply andb_true_iff in Hstop. destruct Hstop as [Hcur Hstop].
    destruct fuel as [|fuel]; [simpl in Hfuel; lia|].
    rewrite sendReq_while_S, Hcur. cbn [negb].
    unfold bind at 1. cbv beta. rewrite _sendReq_run, Hnow.
    cbn [fst snd answer_result answer_reply].
    destruct (stitch buffer (completion c)) as [joined|e|code|] eqn:Ejoin;
      simpl in Hjoin; try discriminate.
    unfold bind, lift.
    rewrite (IH w1 c _ joined fuel result w' Hserved Hstop Hjoin).
    + reflexivity.
    + simpl in Hfuel. lia.
Qed.





Lemma str_last_snoc data a : str_last (data +++ String a EmptyString) = Some a.
Proof.
  induction data as [|c data IH]; [reflexivity|].
  simpl. rewrite IH.
  destruct (data +++ String a EmptyString) eqn:E; [|reflexivity].
  destruct data; discriminate.
Qed.

Lemma str_last_None s : str_last s = None <-> s = EmptyString.
Proof.
  split; [|intros ->; reflexivity].
  induction s as [|c s IH]; [reflexivity|].
  simpl. destruct s; [discriminate|]. intros H. apply IH in H. discriminate.
Qed.

Lemma stitch_raises buffer d :
  stitch buffer d = Raise string_index_error
  <-> buffer = EmptyString \/ (str_last buffer <> Some SPACE /\ d = EmptyString).
Proof.
  unfold stitch, getitem_last, getitem_first.
  destruct (str_last buffer) as [c1|] eqn:Elast; simpl.
  - assert (Hne : buffer <> EmptyString)
      by (intros ->; discriminate).
    destruct (Ascii.eqb c1 SPACE) eqn:Ec1; simpl.
    + apply Ascii.eqb_eq in Ec1. subst c1.
      split; [discriminate|]. intros [Hb|[Hl _]]; [contradiction | congruence].
    + apply Ascii.eqb_neq in Ec1.
      destruct d as [|c2 d]; simpl.
      * split; [|reflexivity]. intros _. right. split; [congruence | reflexivity].
      * split.
        -- destruct (Ascii.eqb c2 SPACE); discriminate.
        -- intros [Hb|[_ Hd]]; [contradiction | discriminate].
  - apply str_last_None in Elast. subst buffer.
    split; [|reflexivity]. intros _. left. reflexivity.
Qed.

Lemma sendReq_two_fragments H A CFG fuel question mt x y joined :
  stitch x y = Return joined ->
  outcome (sendReq (scripted (completions_script [truncated x; complete y]))
                   H A CFG (S fuel) question mt 0%nat)
  = Return joined.
Proof.
  intros Hjoin.
  unfold sendReq. unfold bind at 1. cbv beta zeta. rewrite _sendReq_run.
  cbn [fst snd scripted completion_endpoint on_completion completions_script
       answers nth truncated answer_result answer_reply].
  rewrite sendReq_while_continued
    with (replies := [ {| completion := y; stop_reason := "stop_sequence" |} ])
         (result := joined) (w' := 2%nat).
  - reflexivity.
  - exists 2%nat. split; reflexivity.
  - reflexivity.
  - simpl. rewrite Hjoin. reflexivity.
  - simpl. lia.
Qed.

(** C1 (as amended). Joining a buffer that ends in [a] with a fragment that
    starts with [b] inserts one space between them unless [a] or [b] is the
    space character; so ["hello"] then ["world"], ["hello "] then ["world"],
    and ["hello"] then [" world"] all give ["hello world"]. *)
Theorem stitch_single_space_unless_space H A CFG fuel question mt data a b d :
  let buffer := data +++ String a EmptyString in
  let fragment := String b d in
  stitch buffer fragment
  = Return (if (Ascii.eqb a SPACE || Ascii.eqb b SPACE)%bool
            then buffer +++ fragment
            else buffer +++ " " +++ fragment)
  /\ outcome (sendReq (scripted (completions_script [truncated "hello"; complete "world"]))
                      H A CFG (S fuel) question mt 0%nat)
     = Return "hello world"
  /\ outcome (sendReq (scripted (completions_script [truncated "hello "; complete "world"]))
                      H A CFG (S fuel) question mt 0%nat)
     = Return "hello world"
  /\ outcome (sendReq (scripted (completions_script [truncated "hello"; complete " world"]))
                      H A CFG (S fuel) question mt 0%nat)
     = Return "hello world".
Proof.
  simpl. split.
  2: { repeat split; apply sendReq_two_fragments; reflexivity. }
  unfold stitch, getitem_last, getitem_first.
  rewrite str_last_snoc. simpl.
  destruct (Ascii.eqb a SPACE); simpl; [reflexivity|].
  destruct (Ascii.eqb b SPACE); reflexivity.
Qed.

(** C1, as stated, fails on a boundary character that is whitespace but not
    the space: a buffer ending in a newline still gets a space. *)
Lemma newline_boundary_still_spaced :
  spec_join ("hello" +++ NL) "world" = Some ("hello" +++ NL +++ "world")
  /\ outcome (sendReq (scripted (completions_script
                                   [truncated ("hello" +++ NL); complete "world"]))
                      HUMAN ASSISTANT (cfg true false false) 1 "question"
                      MAX_TOKEN_ONCE 0%nat)
     = Return ("hello" +++ NL +++ " world")
  /\ "hello" +++ NL +++ " world" <> "hello" +++ NL +++ "world".
Proof. repeat split; try reflexivity. discriminate. Qed.

Lemma sendReq_while_join_raises W (P : Provider W) H A CFG fuel mt prompt buffer
      response w reply w1 :
  String.eqb (stop_reason response) "max_tokens" = true ->
  completion_endpoint P (completion_request CFG H A mt (prompt +++ cue H A)) w
  = (inr reply, w1) ->
  stitch buffer (completion reply) = Raise string_index_error ->
  outcome (sendReq_while P H A CFG (S fuel) {| client_api_key := claude_api_key CFG |}
                         mt prompt buffer response w)
  = Raise string_index_error.
Proof.
  intros Hstop Hreply Hjoin.
  rewrite sendReq_while_S, Hstop. cbn [negb].
  unfold bind at 1. cbv beta. rewrite _sendReq_run, Hreply.
  cbn [fst snd answer_result].
  unfold bind at 1. unfold lift. rewrite Hjoin. reflexivity.
Qed.

(** C9 (as amended). The join raises [IndexError] exactly when the buffer is
    empty, or the buffer does not end in a space and the fragment is empty; it
    returns when both are non-empty.  A join that raises in a round of the
    loop is the outcome of the call; so a first completion that is empty and
    length-limited makes [sendReq] fail once the next request is answered. *)
Theorem join_fails_on_empty_operands :
  (forall buffer d,
      stitch buffer d = Raise string_index_error
      <-> buffer = EmptyString \/ (str_last buffer <> Some SPACE /\ d = EmptyString))
  /\ (forall buffer d,
        buffer <> EmptyString -> d <> EmptyString ->
        exists joined, stitch buffer d = Return joined)
  /\ (forall W (P : Provider W) H A CFG fuel mt prompt buffer response w reply w1,
        String.eqb (stop_reason response) "max_tokens" = true ->
        completion_endpoint P (completion_request CFG H A mt (prompt +++ cue H A)) w
        = (inr reply, w1) ->
        stitch buffer (completion reply) = Raise string_index_error ->
        outcome (sendReq_while P H A CFG (S fuel)
                               {| client_api_key := claude_api_key CFG |}
                               mt prompt buffer response w)
        = Raise string_index_error)
  /\ (forall W (P : Provider W) H A CFG fuel question mt w first w1 second w2,
        completion_endpoint P
          (completion_request CFG H A mt (H +++ " " +++ question +++ " " +++ A)) w
        = (inr first, w1) ->
        completion first = EmptyString ->
        String.eqb (stop_reason first) "max_tokens" = true ->
        completion_endpoint P
          (completion_request CFG H A mt
             (((H +++ " " +++ question +++ " " +++ A) +++ completion first) +++ cue H A))
          w1
        = (inr second, w2) ->
        outcome (sendReq P H A CFG (S fuel) question mt w) = Raise string_index_error).
Proof.
  split; [exact stitch_raises|]. split; [|split].
  - intros buffer d Hb Hd.
    destruct (stitch_cases buffer d) as [Hok|Hbad]; [exact Hok|].
    apply stitch_raises in Hbad. destruct Hbad as [Hbad|[_ Hbad]]; contradiction.
  - intros. eapply sendReq_while_join_raises; eassumption.
  - intros W P H A CFG fuel question mt w first w1 second w2 Hfirst Hempty Hstop Hsecond.
    pose proof (sendReq_while_join_raises P H A CFG fuel mt
                  ((H +++ " " +++ question +++ " " +++ A) +++ completion first)
                  (completion first) first w1 Hstop Hsecond) as Hloop.
    unfold sendReq. unfold bind at 1. cbv beta zeta. rewrite _sendReq_run, Hfirst.
    cbn [fst snd answer_result].
    unfold outcome in *.
    match goal with |- context [sendReq_while ?p ?h ?a ?c ?f ?cl ?m ?pr ?b ?r ?ww] =>
      destruct (sendReq_while p h a c f cl m pr b r ww) as [[r2 w3] t2] eqn:E end.
    simpl in *. apply Hloop. apply stitch_raises. left. exact Hempty.
Qed.

(** C9, as stated, fails on an empty continuation fragment that follows a
    buffer ending in a space: the join returns and so does the call. *)
Lemma empty_fragment_after_space_is_joined :
  stitch "hello " "" = Return "hello "
  /\ outcome (sendReq (scripted (completions_script
                                   [truncated "hello "; truncated ""; complete "world"]))
                      HUMAN ASSISTANT (cfg true false false) 2 "question"
                      MAX_TOKEN_ONCE 0%nat)
     = Return "hello world".
Proof. split; reflexivity. Qed.

(** ** The Claude family ignores the generation arguments *)

Lemma bind_ext W A B (m : M W A) (f g : A -> M W B) w :
  (forall a w', f a w' = g a w') -> bind m f w = bind m g w.
Proof.
  intros Hfg. unfold bind.
  destruct (m w) as [[[a|e|c|] w1] t1]; try reflexivity.
  rewrite Hfg. reflexivity.
Qed.

Section Claude.

Variable W : Type.
Variable P : Provider W.
Variables H A : string.
Variable fmt : list message -> string.
Variable CFG : Config.
Hypothesis claude : use_claude CFG = true.

Lemma chat_request_claude fuel messages model temp max_tokens :
  chat_request P H A fmt CFG fuel messages model temp max_tokens
  = (response <- sendReq P H A CFG fuel (fmt messages) MAX_TOKEN_ONCE ;;
     ret (VStr response))%py.
Proof. unfold chat_request. rewrite claude. reflexivity. Qed.

Lemma chat_attempts_claude fuel messages model1 temp1 mt1 model2 temp2 mt2 :
  forall todo warned w,
    chat_attempts P H A fmt CFG fuel 10 todo warned messages model1 temp1 mt1 w
    = chat_attempts P H A fmt CFG fuel 10 todo warned messages model2 temp2 mt2 w.
Proof.
  induction todo as [|attempt rest IH]; intros warned w; [reflexivity|].
  rewrite !chat_attempts_cons, !chat_request_claude.
  apply bind_ext. intros [e|v] w1; [|reflexivity].
  apply bind_ext. intros warned' w2.
  apply bind_ext. intros _ w3.
  apply bind_ext. intros _ w4.
  apply IH.
Qed.

Lemma claude_only_app t1 t2 : claude_only CFG H A t1 -> claude_only CFG H A t2 -> claude_only CFG H A (t1 ++ t2).
Proof.
  unfold claude_only. intros H1 H2. rewrite requests_app.
  apply Forall_app. split; assumption.
Qed.

Lemma claude_only_exchange prompt answer t :
  claude_only CFG H A t ->
  claude_only CFG H A (Call (ReqCompletion (completion_request CFG H A MAX_TOKEN_ONCE prompt))
                    answer :: t).
Proof.
  intros Ht. unfold claude_only. simpl. constructor; [|exact Ht].
  exists prompt. reflexivity.
Qed.

Lemma sendReq_while_claude fuel :
  forall prompt buffer response w,
    claude_only CFG H A (trace (sendReq_while P H A CFG fuel
                                      {| client_api_key := claude_api_key CFG |}
                                      MAX_TOKEN_ONCE prompt buffer response w)).
Proof.
  induction fuel as [|fuel IH]; intros prompt buffer response w.
  - simpl. destruct (negb (String.eqb (stop_reason response) "max_tokens"));
      constructor.
  - rewrite sendReq_while_S.
    destruct (negb (String.eqb (stop_reason response) "max_tokens")); [constructor|].
    unfold bind at 1. cbv beta. rewrite _sendReq_run.
    destruct (completion_endpoint P _ w) as [[e|reply] w1]; cbn [fst snd answer_result].
    + apply claude_only_exchange. constructor.
    + unfold bind at 1. unfold lift.
      destruct (stitch buffer (completion reply)) as [joined|e|c|];
        try (apply claude_only_exchange; constructor).
      match goal with |- context [sendReq_while ?p ?h ?a ?c ?f ?cl ?m ?pr ?b ?r ?ww] =>
        pose proof (IH pr b r ww) as Hrest;
        destruct (sendReq_while p h a c f cl m pr b r ww) as [[r2 w2] t2] end.
      see. apply claude_only_exchange. exact Hrest.
Qed.

Lemma sendReq_claude fuel question w :
  claude_only CFG H A (trace (sendReq P H A CFG fuel question MAX_TOKEN_ONCE w)).
Proof.
  unfold sendReq. unfold bind at 1. cbv beta zeta. rewrite _sendReq_run.
  destruct (completion_endpoint P _ w) as [[e|reply] w1]; cbn [fst snd answer_result].
  - apply claude_only_exchange. constructor.
  - match goal with |- context [sendReq_while ?p ?h ?a ?c ?f ?cl ?m ?pr ?b ?r ?ww] =>
      pose proof (sendReq_while_claude f pr b r ww) as Hrest;
      destruct (sendReq_while p h a c f cl m pr b r ww) as [[r2 w2] t2] end.
    see. apply claude_only_exchange. exact Hrest.
Qed.

Lemma chat_attempts_claude_only fuel messages model temp max_tokens :
  forall todo warned w,
    claude_only CFG H A (trace (chat_attempts P H A fmt CFG fuel 10 todo warned
                                      messages model temp max_tokens w)).
Proof.
  induction todo as [|attempt rest IH]; intros warned w; [constructor|].
  rewrite chat_attempts_cons, chat_request_claude.
  pose proof (sendReq_claude fuel (fmt messages) w) as Hbody.
  unfold bind at 1. unfold try, bind at 1.
  destruct (sendReq P H A CFG fuel (fmt messages) MAX_TOKEN_ONCE w) as [[rb w1] t1].
  see.
  destruct rb as [a|e|c|]; see; rewrite ?app_nil_r; try exact Hbody.
  unfold bind, when, emit, ret, raise, time_sleep.
  destruct e as [m|m st|m|m|m|c m]; see; rewrite ?app_nil_r; try exact Hbody.
  - destruct (debug_mode CFG), warned; see;
      match goal with |- context [chat_attempts ?a1 ?a2 ?a3 ?a4 ?a5 ?a6 ?a7 ?a8 ?a9 ?b1 ?b2 ?b3 ?b4 ?b5] =>
        pose proof (IH a9 b5) as Hrest;
        destruct (chat_attempts a1 a2 a3 a4 a5 a6 a7 a8 a9 b1 b2 b3 b4 b5) as [[r2 w2] t2] end;
      see; apply claude_only_app; assumption.
  - destruct (is_502 st); see; rewrite ?app_nil_r; try exact Hbody.
    destruct (Nat.eqb attempt 9); see; rewrite ?app_nil_r; try exact Hbody.
    destruct (debug_mode CFG); see;
      match goal with |- context [chat_attempts ?a1 ?a2 ?a3 ?a4 ?a5 ?a6 ?a7 ?a8 ?a9 ?b1 ?b2 ?b3 ?b4 ?b5] =>
        pose proof (IH a9 b5) as Hrest;
        destruct (chat_attempts a1 a2 a3 a4 a5 a6 a7 a8 a9 b1 b2 b3 b4 b5) as [[r2 w2] t2] end;
      see; apply claude_only_app; assumption.
Qed.

End Claude.

(** C10. With the Claude family selected, two calls of
    [create_chat_completion] that differ only in [model], [temperature] and
    [max_tokens] end with the same outcome and leave the provider in the same
    state; they send the same requests, each one a completion request for the
    configured Claude model with the ceiling [MAX_TOKEN_ONCE = 4096] and no
    temperature; their traces differ at most in the debug print. *)
Theorem claude_ignores_generation_arguments W (P : Provider W) H A fmt CFG fuel
    messages model1 temp1 mt1 model2 temp2 mt2 w :
  use_claude CFG = true ->
  let run1 := create_chat_completion P H A fmt CFG fuel messages model1 temp1 mt1 w in
  let run2 := create_chat_completion P H A fmt CFG fuel messages model2 temp2 mt2 w in
  outcome run1 = outcome run2
  /\ final_world run1 = final_world run2
  /\ requests (trace run1) = requests (trace run2)
  /\ without_prints (trace run1) = without_prints (trace run2)
  /\ Forall (claude_request CFG H A) (requests (trace run1))
  /\ MAX_TOKEN_ONCE = 4096.
Proof.
  intros Hclaude.
  destruct (create_chat_completion_loop P H A fmt CFG fuel messages model1 temp1 mt1 w)
    as [r1 [w1 [t1 [Hloop1 Hrun1]]]].
  destruct (create_chat_completion_loop P H A fmt CFG fuel messages model2 temp2 mt2 w)
    as [r2 [w2 [t2 [Hloop2 Hrun2]]]].
  rewrite (chat_attempts_claude P H A fmt CFG Hclaude fuel messages
             model1 temp1 mt1 model2 temp2 mt2) in Hloop1.
  rewrite Hloop1 in Hloop2. inversion Hloop2; subst r2 w2 t2.
  pose proof (chat_attempts_claude_only P H A fmt CFG Hclaude fuel messages
                model2 temp2 mt2 (seq 0 10) false w) as Honly.
  rewrite Hloop1 in Honly.
  simpl. rewrite Hrun1, Hrun2. unfold outcome, final_world, trace, without_prints. simpl.
  assert (Hpro : forall model temp mt,
             requests (prologue CFG model temp mt) = []
             /\ filter (fun ev => negb (is_print ev)) (prologue CFG model temp mt) = []).
  { intros. unfold prologue. destruct (debug_mode CFG); split; reflexivity. }
  rewrite !requests_app, !filter_app.
  destruct (Hpro model1 temp1 mt1) as [-> ->].
  destruct (Hpro model2 temp2 mt2) as [-> ->].
  repeat split; try reflexivity.
  simpl. apply Forall_app. split; [exact Honly|].
  destruct r1 as [[v|]|e|c|]; constructor.
Qed.

(** ** The embedding client *)

Lemma embedding_request_run W (P : Provider W) CFG text w :
  embedding_request P CFG text w
  = (match fst (embedding_endpoint P (ada_request CFG text) w) with
     | inl e => Raise e
     | inr response =>
         rbind (list_getitem0 (data response)) (fun entry => Return (embedding entry))
     end,
     snd (embedding_endpoint P (ada_request CFG text) w),
     [Call (ReqEmbedding (ada_request CFG text))
           (answer_reply RepEmbedding
              (fst (embedding_endpoint P (ada_request CFG text) w)))]).
Proof.
  unfold embedding_request, ada_request.
  destruct (use_azure CFG); unfold bind, openai_Embedding_create, lift, ret;
    match goal with |- context [embedding_endpoint P ?rq w] =>
      destruct (embedding_endpoint P rq w) as [[e|response] w1] end;
    simpl; try reflexivity;
    destruct (data response); reflexivity.
Qed.

(** One request per attempt, always the same; a returned vector is the
    embedding of the first entry of the reply that ends the run. *)
Lemma embedding_attempts_requests W (P : Provider W) CFG text :
  forall n i w r w' t,
    embedding_attempts P CFG 10 (seq i n) text w = (r, w', t) ->
    Forall (fun rq => rq = ReqEmbedding (ada_request CFG text)) (requests t)
    /\ (List.length (requests t) <= S (List.length (provider_errors t)))%nat
    /\ (forall v, r = Return (Some v) ->
          exists t0 response entry others,
            t = t0 ++ [Call (ReqEmbedding (ada_request CFG text))
                            (inr (RepEmbedding response))]
            /\ data response = entry :: others
            /\ v = embedding entry).
Proof.
  induction n as [|n IH]; intros i w r w' t Hrun.
  { inversion Hrun; subst. split; [constructor|].
    split; [simpl; lia | intros v Hv; discriminate]. }
  simpl seq in Hrun. rewrite embedding_attempts_cons in Hrun.
  unfold bind at 1 in Hrun. unfold try in Hrun.
  rewrite embedding_request_run in Hrun.
  destruct (embedding_endpoint P (ada_request CFG text) w) as [[e|response] w1];
    cbn [fst snd answer_reply] in Hrun.
  - (* the provider raised *)
    unfold bind, when, emit, ret, raise, time_sleep in Hrun.
    assert (Hstop : forall tail,
               (r, w', t) = (Raise e : result (option (list float)), w1,
                             Call (ReqEmbedding (ada_request CFG text)) (inl e) :: tail) ->
               tail = [] ->
               Forall (fun rq => rq = ReqEmbedding (ada_request CFG text)) (requests t)
               /\ (List.length (requests t) <= S (List.length (provider_errors t)))%nat
               /\ (forall v, r = Return (Some v) ->
                     exists t0 response entry others,
                       t = t0 ++ [Call (ReqEmbedding (ada_request CFG text))
                                       (inr (RepEmbedding response))]
                       /\ data response = entry :: others
                       /\ v = embedding entry)).
    { intros tail Heq ->. inversion Heq; subst.
      split; [repeat constructor|]. split; [simpl; lia | intros v Hv; discriminate]. }
    assert (Hnext : forall noise r2 w2 t2 wn,
               embedding_attempts P CFG 10 (seq (S i) n) text wn = (r2, w2, t2) ->
               requests noise = [] -> provider_errors noise = [] ->
               (r, w', t) = (r2, w2, Call (ReqEmbedding (ada_request CFG text)) (inl e)
                                     :: noise ++ t2) ->
               Forall (fun rq => rq = ReqEmbedding (ada_request CFG text)) (requests t)
               /\ (List.length (requests t) <= S (List.length (provider_errors t)))%nat
               /\ (forall v, r = Return (Some v) ->
                     exists t0 response entry others,
                       t = t0 ++ [Call (ReqEmbedding (ada_request CFG text))
                                       (inr (RepEmbedding response))]
                       /\ data response = entry :: others
                       /\ v = embedding entry)).
    { intros noise r2 w2 t2 wn Hrest Hnr Hne Heq. inversion Heq; subst.
      destruct (IH _ _ _ _ _ Hrest) as [Hall [Hlen Hret]].
      change (Call (ReqEmbedding (ada_request CFG text)) (inl e) :: noise ++ t2)
        with ([Call (ReqEmbedding (ada_request CFG text)) (inl e)] ++ noise ++ t2).
      rewrite !requests_app, !provider_errors_app, Hnr, Hne. simpl.
      split; [constructor; [reflexivity | exact Hall]|].
      split; [lia|].
      intros v Hv. destruct (Hret v Hv) as [t0 [resp [entry [others [Ht [Hd Hvv]]]]]].
      exists (Call (ReqEmbedding (ada_request CFG text)) (inl e) :: noise ++ t0),
        resp, entry, others.
      rewrite Ht. simpl. rewrite <- app_assoc. repeat split; assumption. }
    destruct e as [m|m st|m|m|m|c m]; simpl in Hrun;
      try (apply (Hstop []); [exact (eq_sym Hrun) | reflexivity]).
    + destruct (debug_mode CFG); simpl in Hrun;
        match type of Hrun with context [embedding_attempts ?a1 ?a2 ?a3 ?a4 ?a5 ?a6] =>
          destruct (embedding_attempts a1 a2 a3 a4 a5 a6) as [[r2 w2] t2] eqn:Erest end;
        [ eapply Hnext with (noise := [Print (BadGatewayWaiting (backoff i));
                                       Sleep (backoff i)])
        | eapply Hnext with (noise := [Sleep (backoff i)]) ];
        try exact Erest; try reflexivity; exact (eq_sym Hrun).
    + destruct (is_502 st); simpl in Hrun;
        try (apply (Hstop []); [exact (eq_sym Hrun) | reflexivity]).
      destruct (Nat.eqb i 9); simpl in Hrun;
        try (apply (Hstop []); [exact (eq_sym Hrun) | reflexivity]).
      destruct (debug_mode CFG); simpl in Hrun;
        match type of Hrun with context [embedding_attempts ?a1 ?a2 ?a3 ?a4 ?a5 ?a6] =>
          destruct (embedding_attempts a1 a2 a3 a4 a5 a6) as [[r2 w2] t2] eqn:Erest end;
        [ eapply Hnext with (noise := [Print (BadGatewayWaiting (backoff i));
                                       Sleep (backoff i)])
        | eapply Hnext with (noise := [Sleep (backoff i)]) ];
        try exact Erest; try reflexivity; exact (eq_sym Hrun).
  - (* the provider replied *)
    destruct (data response) as [|entry others] eqn:Edata; simpl in Hrun;
      unfold bind, raise, ret in Hrun; simpl in Hrun; inversion Hrun; subst.
    + split; [repeat constructor|]. split; [simpl; lia | intros v Hv; discriminate].
    + split; [repeat constructor|]. split; [simpl; lia|].
      intros v Hv. inversion Hv; subst.
      exists [], response, entry, others. repeat split. exact Edata.
Qed.

(** C3 (as amended). [create_embedding_with_ada] keeps the ceiling, the
    classification and the backoff of [create_chat_completion]: on the same
    provider failures both show the same failures and pauses, at most ten
    failures, a failure that is not retried is raised.  It logs no advisory.
    It sends one request per attempt, always the same embedding request, and
    a vector it returns is the embedding of the first entry of the reply that
    ends the run. *)
Theorem embedding_shares_retry_policy W1 W2 (P1 : Provider W1) (P2 : Provider W2)
    H A fmt CFG fuel messages model temp max_tokens text w1 w2 :
  let chat := create_chat_completion P1 H A fmt CFG fuel messages model temp max_tokens w1 in
  let ada := create_embedding_with_ada P2 CFG text w2 in
  (provider_errors (trace chat) = provider_errors (trace ada) ->
   policy_view (trace chat) = policy_view (trace ada))
  /\ policy_view (trace ada) = schedule 0 (provider_errors (trace ada))
  /\ (List.length (provider_errors (trace ada)) <= 10)%nat
  /\ advisory_view (trace ada) = repeat RateLimited (rate_limits (trace ada))
  /\ (forall k e,
        nth_error (provider_errors (trace ada)) k = Some e ->
        retryable k e = false ->
        outcome ada = Raise e)
  /\ Forall (fun rq => rq = ReqEmbedding (ada_request CFG text)) (requests (trace ada))
  /\ (List.length (requests (trace ada)) <= S (List.length (provider_errors (trace ada))))%nat
  /\ (forall v,
        outcome ada = Return (Some v) ->
        exists t0 response entry others,
          trace ada = t0 ++ [Call (ReqEmbedding (ada_request CFG text))
                                  (inr (RepEmbedding response))]
          /\ data response = entry :: others
          /\ v = embedding entry).
Proof.
  intros chat ada.
  pose proof (embedding_policy P2 CFG text w2) as Hada. fold ada in Hada.
  assert (Hview : policy_view (trace ada) = schedule 0 (provider_errors (trace ada))).
  { eapply run_policy_view; [|exact Hada]. apply embedding_noise_policy_view. }
  split; [|split; [exact Hview|split; [|split; [|split]]]].
  - intros Herrors. rewrite Hview, <- Herrors.
    destruct (chat_completion_policy P1 H A fmt CFG fuel messages model temp max_tokens w1)
      as [r0 [t0 [Hrun [_ Htr]]]].
    fold chat in Htr. rewrite Htr, framed_policy_view, framed_provider_errors.
    eapply run_policy_view; [|exact Hrun]. apply chat_noise_policy_view.
  - eapply run_ceiling; [|exact Hada]. apply embedding_noise_policy_view.
  - apply (run_no_advisory Hada).
  - intros k e Hk He.
    apply (run_stops (embedding_noise_policy_view (debug_mode CFG)) Hada _ Hk He).
  - unfold ada, create_embedding_with_ada, range.
    destruct (embedding_attempts P2 CFG 10 (seq 0 10) text w2) as [[r w'] t] eqn:E.
    destruct (embedding_attempts_requests P2 CFG text _ _ _ E) as [Hall [Hlen Hret]].
    split; [exact Hall|]. split; [exact Hlen|exact Hret].
Qed.

(** C3, as stated, fails on the advisory: after one rate-limit failure
    [create_chat_completion] logs it and [create_embedding_with_ada] logs
    nothing, the provider failures being the same. *)
Lemma embedding_retries_without_advisory :
  provider_errors (trace (chat_run [inl RATE_LIMIT; chat_reply "hello"] false))
  = provider_errors (trace (ada_run [inl RATE_LIMIT; embedding_reply [HALF]] false))
  /\ advisory_view (trace (chat_run [inl RATE_LIMIT; chat_reply "hello"] false))
     = [RateLimited; Advised PAID_ADVISORY]
  /\ advisory_view (trace (ada_run [inl RATE_LIMIT; embedding_reply [HALF]] false))
     = [RateLimited]
  /\ advisory_view (trace (ada_run [inl RATE_LIMIT; embedding_reply [HALF]] false))
     <> advised_once
          (rate_limits (trace (ada_run [inl RATE_LIMIT; embedding_reply [HALF]] false))).
Proof. repeat split; try reflexivity. discriminate. Qed.

(** ** Concrete runs *)

(** Two rate limits and a bad gateway, then an answer, in debug mode. *)
Example flaky_chat_run :
  outcome (chat_run flaky_chat true) = Return (VStr "hello")
  /\ policy_view (trace (chat_run flaky_chat true))
     = [Failed RATE_LIMIT; Slept 4; Failed RATE_LIMIT; Slept 8;
        Failed BAD_GATEWAY; Slept 16]
  /\ advisory_view (trace (chat_run flaky_chat true))
     = [RateLimited; Advised PAID_ADVISORY; RateLimited].
Proof. repeat split; reflexivity. Qed.

Example flaky_ada_run :
  outcome (ada_run flaky_ada true) = Return (Some [HALF; QUARTER])
  /\ policy_view (trace (ada_run flaky_ada true))
     = [Failed RATE_LIMIT; Slept 4; Failed RATE_LIMIT; Slept 8;
        Failed BAD_GATEWAY; Slept 16]
  /\ advisory_view (trace (ada_run flaky_ada true)) = [RateLimited; RateLimited].
Proof. repeat split; reflexivity. Qed.

(** Ten rate limits: the chat call logs the failure and quits, the embedding
    call sleeps a last time and returns [None]. *)
Example ten_rate_limits :
  outcome (chat_run (repeat (inl RATE_LIMIT) 10) false) = Exit 1
  /\ outcome (ada_run (repeat (inl RATE_LIMIT) 10) false) = Return None
  /\ sleeps (trace (ada_run (repeat (inl RATE_LIMIT) 10) false))
     = [4; 8; 16; 32; 64; 128; 256; 512; 1024; 2048]
  /\ sleeps (trace (chat_run (repeat (inl RATE_LIMIT) 10) false))
     = [4; 8; 16; 32; 64; 128; 256; 512; 1024; 2048].
Proof. repeat split; reflexivity. Qed.

(** A tab at the boundary is not a space either. *)
Example tab_boundary_still_spaced :
  stitch "hello" (String "009"%char "world")
  = Return ("hello " +++ String "009"%char "world").
Proof. reflexivity. Qed.

(** ** The theorems on concrete runs *)

Lemma backoff_delay_of_attempt_witness :
  ((2 <= 9)%nat
   /\ nth_error (sleeps (trace (chat_run flaky_chat true))) 2 = Some (2 ^ (Z.of_nat 2 + 2))
   /\ policy_view (trace (chat_run flaky_chat true))
      = schedule 0 (provider_errors (trace (chat_run flaky_chat true))))
  /\ ((1 <= 9)%nat
      /\ nth_error (sleeps (trace (ada_run flaky_ada true))) 1 = Some (2 ^ (Z.of_nat 1 + 2))
      /\ policy_view (trace (ada_run flaky_ada true))
         = schedule 0 (provider_errors (trace (ada_run flaky_ada true)))).
Proof.
  split.
  - apply backoff_delay_of_attempt
      with (P := scripted (chat_script flaky_chat)) (H := HUMAN) (A := ASSISTANT)
           (fmt := show_messages) (CFG := cfg false false true) (fuel := 0%nat)
           (messages := ask "hi") (model := Some "gpt-4") (temp := THREE_QUARTERS)
           (max_tokens := None) (text := "hi") (w := 0%nat) (e := BAD_GATEWAY).
    + left. reflexivity.
    + reflexivity.
    + reflexivity.
  - apply backoff_delay_of_attempt
      with (P := scripted (embedding_script flaky_ada)) (H := HUMAN) (A := ASSISTANT)
           (fmt := show_messages) (CFG := cfg false false true) (fuel := 0%nat)
           (messages := ask "hi") (model := Some "gpt-4") (temp := THREE_QUARTERS)
           (max_tokens := None) (text := "hi") (w := 0%nat) (e := RATE_LIMIT).
    + right. reflexivity.
    + reflexivity.
    + reflexivity.
Defined.

Lemma rate_limit_advisory_once_witness :
  advisory_view (trace (chat_run flaky_chat true))
  = [RateLimited; Advised PAID_ADVISORY; RateLimited]
  /\ exists rq t',
       trace (chat_run flaky_chat true)
       = prologue (cfg false false true) (Some "gpt-4") THREE_QUARTERS None
         ++ Call rq (inl RATE_LIMIT)
         :: [Print ReachedRateLimit]
         ++ DoubleCheck (Some PAID_ADVISORY)
         :: [Print (BadGatewayWaiting 4)]
         ++ Sleep 4 :: t'.
Proof.
  pose proof (rate_limit_advisory_once
                (scripted (chat_script flaky_chat)) HUMAN ASSISTANT show_messages
                (cfg false false true) 0 (ask "hi") (Some "gpt-4") THREE_QUARTERS None
                0%nat) as Hrun.
  cbv zeta in Hrun. destruct Hrun as [Hadvisory [_ Hfirst]].
  split.
  - exact Hadvisory.
  - apply (Hfirst "Rate limit reached for requests"). reflexivity.
Defined.

Lemma exhausted_attempts_fail_loud_witness :
  outcome (chat_run (repeat (inl RATE_LIMIT) 10) false) = Exit 1
  /\ exists t0,
       trace (chat_run (repeat (inl RATE_LIMIT) 10) false)
       = t0 ++ [TypewriterLog FAILED_TITLE Fore_RED FAILED_TEXT; DoubleCheck None].
Proof.
  apply (exhausted_attempts_fail_loud
           (scripted (chat_script (repeat (inl RATE_LIMIT) 10))) HUMAN ASSISTANT
           show_messages (cfg false false false) 0 (ask "hi") (Some "gpt-4")
           THREE_QUARTERS None 0%nat).
  - reflexivity.
  - reflexivity.
Defined.

Lemma bad_gateway_on_final_attempt_reraised_witness :
  (raised (outcome (chat_run (repeat (inl BAD_GATEWAY) 10) false)) = Some BAD_GATEWAY
   /\ (exists t0 rq,
         trace (chat_run (repeat (inl BAD_GATEWAY) 10) false)
         = t0 ++ [Call rq (inl BAD_GATEWAY)])
   /\ List.length (sleeps (trace (chat_run (repeat (inl BAD_GATEWAY) 10) false))) = 9%nat)
  /\ (raised (outcome (ada_run (repeat (inl BAD_GATEWAY) 10) false)) = Some BAD_GATEWAY
      /\ (exists t0 rq,
            trace (ada_run (repeat (inl BAD_GATEWAY) 10) false)
            = t0 ++ [Call rq (inl BAD_GATEWAY)])
      /\ List.length (sleeps (trace (ada_run (repeat (inl BAD_GATEWAY) 10) false))) = 9%nat).
Proof.
  split.
  - apply bad_gateway_on_final_attempt_reraised
      with (P := scripted (chat_script (repeat (inl BAD_GATEWAY) 10)))
           (H := HUMAN) (A := ASSISTANT)
           (fmt := show_messages) (CFG := cfg false false false) (fuel := 0%nat)
           (messages := ask "hi") (model := Some "gpt-4") (temp := THREE_QUARTERS)
           (max_tokens := None) (text := "hi") (w := 0%nat).
    + left. split; reflexivity.
    + reflexivity.
    + reflexivity.
  - apply bad_gateway_on_final_attempt_reraised
      with (P := scripted (embedding_script (repeat (inl BAD_GATEWAY) 10)))
           (H := HUMAN) (A := ASSISTANT)
           (fmt := show_messages) (CFG := cfg false false false) (fuel := 0%nat)
           (messages := ask "hi") (model := Some "gpt-4") (temp := THREE_QUARTERS)
           (max_tokens := None) (text := "hi") (w := 0%nat).
    + right. split; reflexivity.
    + reflexivity.
    + reflexivity.
Defined.

Lemma fatal_error_aborts_retrying_witness :
  outcome (chat_run [inl RATE_LIMIT; inl INVALID_KEY; chat_reply "hello"] false)
  = Raise INVALID_KEY
  /\ (exists t0 rq,
        trace (chat_run [inl RATE_LIMIT; inl INVALID_KEY; chat_reply "hello"] false)
        = t0 ++ [Call rq (inl INVALID_KEY)])
  /\ List.length
       (sleeps (trace (chat_run [inl RATE_LIMIT; inl INVALID_KEY; chat_reply "hello"] false)))
     = 1%nat
  /\ List.length
       (provider_errors
          (trace (chat_run [inl RATE_LIMIT; inl INVALID_KEY; chat_reply "hello"] false)))
     = 2%nat.
Proof.
  apply (fatal_error_aborts_retrying
           (scripted (chat_script [inl RATE_LIMIT; inl INVALID_KEY; chat_reply "hello"]))
           HUMAN ASSISTANT show_messages (cfg false false false) 0 (ask "hi")
           (Some "gpt-4") THREE_QUARTERS None 0%nat 1).
  - reflexivity.
  - reflexivity.
  - reflexivity.
Defined.


Lemma join_fails_on_empty_operands_witness :
  outcome (sendReq (scripted (completions_script [truncated ""; complete "late"]))
                   HUMAN ASSISTANT (cfg true false false) 1 "question"
                   MAX_TOKEN_ONCE 0%nat)
  = Raise string_index_error.
Proof.
  apply (proj2 (proj2 (proj2 join_fails_on_empty_operands)))
    with (first := part "" "max_tokens") (w1 := 1%nat)
         (second := part "late" "stop_sequence") (w2 := 2%nat);
    reflexivity.
Defined.

Lemma claude_ignores_generation_arguments_witness :
  outcome (claude_run [truncated "one"; complete "two"] (Some "gpt-4") THREE_QUARTERS (Some 100))
  = outcome (claude_run [truncated "one"; complete "two"] None HALF None)
  /\ final_world (claude_run [truncated "one"; complete "two"]
                             (Some "gpt-4") THREE_QUARTERS (Some 100))
     = final_world (claude_run [truncated "one"; complete "two"] None HALF None)
  /\ requests (trace (claude_run [truncated "one"; complete "two"]
                                 (Some "gpt-4") THREE_QUARTERS (Some 100)))
     = requests (trace (claude_run [truncated "one"; complete "two"] None HALF None))
  /\ without_prints (trace (claude_run [truncated "one"; complete "two"]
                                       (Some "gpt-4") THREE_QUARTERS (Some 100)))
     = without_prints (trace (claude_run [truncated "one"; complete "two"]
                                         None HALF None))
  /\ Forall (claude_request (cfg true false true) HUMAN ASSISTANT)
            (requests (trace (claude_run [truncated "one"; complete "two"]
                                         (Some "gpt-4") THREE_QUARTERS (Some 100))))
  /\ MAX_TOKEN_ONCE = 4096.
Proof.
  apply (claude_ignores_generation_arguments
           (scripted (completions_script [truncated "one"; complete "two"]))
           HUMAN ASSISTANT show_messages (cfg true false true) 3 (ask "hi")
           (Some "gpt-4") THREE_QUARTERS (Some 100) None HALF None 0%nat).
  reflexivity.
Defined.

Lemma embedding_shares_retry_policy_witness :
  policy_view (trace (chat_run flaky_chat false))
  = policy_view (trace (ada_run flaky_ada false)).
Proof.
  apply (proj1 (embedding_shares_retry_policy
                  (scripted (chat_script flaky_chat))
                  (scripted (embedding_script flaky_ada))
                  HUMAN ASSISTANT show_messages (cfg false false false) 0 (ask "hi")
                  (Some "gpt-4") THREE_QUARTERS None "hi" 0%nat 0%nat)).
  reflexivity.
Defined.

(** ** Loops whose attempt is one provider call *)

Lemma single_call_retry_run A R rq (wrap : R -> reply) (extract : R -> result A)
      noise i n warned r t :
  single_call_run rq wrap extract noise i n warned r t ->
  retry_run noise i n warned r t.
Proof.
  induction 1 as [i warned|i n warned response a Ha|i n warned response Hx
                 |i n warned e He|i n warned e r t' He Hrun IH].
  - apply run_end.
  - apply run_ok. constructor; [exact I | constructor].
  - apply run_abort; [|exact I]. constructor; [exact I | constructor].
  - change [Call rq (inl e)] with ([] ++ [Call rq (inl e)]).
    apply run_fatal; [constructor | exact He].
  - change (Call rq (inl e) :: noise i warned e ++ Sleep (backoff i) :: t')
      with ([] ++ Call rq (inl e) :: noise i warned e ++ Sleep (backoff i) :: t').
    apply run_retry; [constructor | exact He | exact IH].
Qed.

Lemma single_retry_eq A R rq (wrap : R -> reply) (extract : R -> result A)
      noise i n warned e r t' tr :
  retryable i e = true ->
  single_call_run rq wrap extract noise (S i) n (warned || is_rate_limit e) r t' ->
  tr = Call rq (inl e) :: noise i warned e ++ Sleep (backoff i) :: t' ->
  single_call_run rq wrap extract noise i (S n) warned r tr.
Proof. intros He Hrun ->. apply single_retry; assumption. Qed.

Lemma chat_request_openai W (P : Provider W) H A fmt CFG fuel messages model temp mt w :
  use_claude CFG = false ->
  chat_request P H A fmt CFG fuel messages model temp mt w
  = (match fst (chat_endpoint P (openai_request CFG messages model temp mt) w) with
     | inl e => Raise e
     | inr response => Return (VChat response)
     end,
     snd (chat_endpoint P (openai_request CFG messages model temp mt) w),
     [Call (ReqChat (openai_request CFG messages model temp mt))
           (answer_reply RepChat
              (fst (chat_endpoint P (openai_request CFG messages model temp mt) w)))]).
Proof.
  intros Hopenai. unfold chat_request, openai_request. rewrite Hopenai.
  destruct (use_azure CFG); unfold bind, openai_ChatCompletion_create, ret;
    match goal with |- context [chat_endpoint P ?rq w] =>
      destruct (chat_endpoint P rq w) as [[e|response] w1] end;
    reflexivity.
Qed.

Lemma chat_attempts_single W (P : Provider W) H A fmt CFG fuel messages model temp mt :
  use_claude CFG = false ->
  forall n i warned w r w' t,
    chat_attempts P H A fmt CFG fuel 10 (seq i n) warned messages model temp mt w
    = (r, w', t) ->
    single_call_run (ReqChat (openai_request CFG messages model temp mt)) RepChat
                    (fun response => Return (VChat response))
                    (chat_noise (debug_mode CFG)) i n warned r t.
Proof.
  intros Hopenai.
  induction n as [|n IH]; intros i warned w r w' t Hrun.
  { inversion Hrun; subst. apply single_end. }
  simpl seq in Hrun. rewrite chat_attempts_cons in Hrun.
  unfold bind at 1 in Hrun. unfold try in Hrun.
  rewrite chat_request_openai in Hrun by exact Hopenai.
  destruct (chat_endpoint P (openai_request CFG messages model temp mt) w)
    as [[e|response] w1]; cbn [fst snd answer_reply] in Hrun.
  - unfold bind, when, emit, ret, raise, time_sleep in Hrun.
    destruct e as [m|m st|m|m|m|c m]; simpl in Hrun;
      try (inversion Hrun; subst; apply single_fatal; reflexivity).
    + destruct (debug_mode CFG), warned; simpl in Hrun;
        match type of Hrun with context [chat_attempts ?a1 ?a2 ?a3 ?a4 ?a5 ?a6 ?a7 ?a8 ?a9 ?b1 ?b2 ?b3 ?b4 ?b5] =>
          pose proof (IH (S i) a9 b5) as IH';
          destruct (chat_attempts a1 a2 a3 a4 a5 a6 a7 a8 a9 b1 b2 b3 b4 b5) as [[r2 w2] t2] end;
        inversion Hrun; subst;
        (eapply single_retry_eq with (e:=RateLimitError m) (t':=t2);
         [reflexivity | apply (IH' _ _ _ eq_refl) | reflexivity]).
    + destruct (is_502 st) eqn:E502; simpl in Hrun.
      * destruct (Nat.eqb i 9) eqn:E9; simpl in Hrun.
        -- inversion Hrun; subst. apply single_fatal.
           unfold retryable; simpl. rewrite E502, E9. reflexivity.
        -- destruct (debug_mode CFG); simpl in Hrun;
             match type of Hrun with context [chat_attempts ?a1 ?a2 ?a3 ?a4 ?a5 ?a6 ?a7 ?a8 ?a9 ?b1 ?b2 ?b3 ?b4 ?b5] =>
               pose proof (IH (S i) a9 b5) as IH';
               destruct (chat_attempts a1 a2 a3 a4 a5 a6 a7 a8 a9 b1 b2 b3 b4 b5) as [[r2 w2] t2] end;
             inversion Hrun; subst;
             (eapply single_retry_eq with (e:=APIError m st) (t':=t2);
              [ unfold retryable; simpl; rewrite E502, E9; reflexivity
              | simpl; rewrite orb_false_r; apply (IH' _ _ _ eq_refl)
              | reflexivity ]).
      * inversion Hrun; subst. apply single_fatal.
        unfold retryable; simpl. rewrite E502. reflexivity.
  - unfold bind, ret in Hrun. simpl in Hrun. inversion Hrun; subst.
    apply single_reply. reflexivity.
Qed.

Lemma embedding_attempts_single W (P : Provider W) CFG text :
  forall n i warned w r w' t,
    embedding_attempts P CFG 10 (seq i n) text w = (r, w', t) ->
    single_call_run (ReqEmbedding (ada_request CFG text)) RepEmbedding first_embedding
                    (embedding_noise (debug_mode CFG)) i n warned r t.
Proof.
  induction n as [|n IH]; intros i warned w r w' t Hrun.
  { inversion Hrun; subst. apply single_end. }
  simpl seq in Hrun. rewrite embedding_attempts_cons in Hrun.
  unfold bind at 1 in Hrun. unfold try in Hrun.
  rewrite embedding_request_run in Hrun.
  destruct (embedding_endpoint P (ada_request CFG text) w) as [[e|response] w1];
    cbn [fst snd answer_reply] in Hrun.
  - unfold bind, when, emit, ret, raise, time_sleep in Hrun.
    destruct e as [m|m st|m|m|m|c m]; simpl in Hrun;
      try (inversion Hrun; subst; apply single_fatal; reflexivity).
    + destruct (debug_mode CFG); simpl in Hrun;
        match type of Hrun with context [embedding_attempts ?a1 ?a2 ?a3 ?a4 ?a5 ?a6] =>
          pose proof (IH (S i) (warned || true)%bool a6) as IH';
          destruct (embedding_attempts a1 a2 a3 a4 a5 a6) as [[r2 w2] t2] end;
        inversion Hrun; subst;
        (eapply single_retry_eq with (e:=RateLimitError m) (t':=t2);
         [reflexivity | apply (IH' _ _ _ eq_refl) | reflexivity]).
    + destruct (is_502 st) eqn:E502; simpl in Hrun.
      * destruct (Nat.eqb i 9) eqn:E9; simpl in Hrun.
        -- inversion Hrun; subst. apply single_fatal.
           unfold retryable; simpl. rewrite E502, E9. reflexivity.
        -- destruct (debug_mode CFG); simpl in Hrun;
             match type of Hrun with context [embedding_attempts ?a1 ?a2 ?a3 ?a4 ?a5 ?a6] =>
               pose proof (IH (S i) warned a6) as IH';
               destruct (embedding_attempts a1 a2 a3 a4 a5 a6) as [[r2 w2] t2] end;
             inversion Hrun; subst;
             (eapply single_retry_eq with (e:=APIError m st) (t':=t2);
              [ unfold retryable; simpl; rewrite E502, E9; reflexivity
              | simpl; rewrite orb_false_r; apply (IH' _ _ _ eq_refl)
              | reflexivity ]).
      * inversion Hrun; subst. apply single_fatal.
        unfold retryable; simpl. rewrite E502. reflexivity.
  - unfold first_embedding in *.
    destruct (data response) as [|entry others] eqn:Edata; simpl in Hrun;
      unfold bind, raise, ret in Hrun; simpl in Hrun; inversion Hrun; subst.
    + apply single_index. unfold first_embedding. rewrite Edata. reflexivity.
    + apply single_reply. unfold first_embedding. rewrite Edata. reflexivity.
Qed.

(** ** More consequences of the policy *)

Lemma total_app l1 l2 : total (l1 ++ l2) = total l1 + total l2.
Proof.
  unfold total. induction l1 as [|x l1 IH]; simpl; [reflexivity|].
  rewrite IH. lia.
Qed.

(** The backoffs of [k] attempts from attempt [i] add up to
    [2^(i+k+2) - 2^(i+2)]. *)
Lemma total_backoff k :
  forall i, total (map backoff (seq i k)) = 2 ^ (Z.of_nat (i + k) + 2) - 2 ^ (Z.of_nat i + 2).
Proof.
  induction k as [|k IH]; intros i; simpl.
  - rewrite Nat.add_0_r. lia.
  - rewrite IH. unfold backoff.
    replace (Z.of_nat (S i + k) + 2) with (Z.of_nat (i + S k) + 2) by lia.
    replace (Z.of_nat (S i) + 2) with (Z.succ (Z.of_nat i + 2)) by lia.
    rewrite Z.pow_succ_r by lia.
    assert (Hpos : 0 < 2 ^ (Z.of_nat i + 2)) by (apply Z.pow_pos_nonneg; lia).
    lia.
Qed.

Lemma total_backoff_bound k :
  (k <= 10)%nat -> total (map backoff (seq 0 k)) <= 4092.
Proof.
  intros Hk. rewrite total_backoff.
  assert (H : 2 ^ (Z.of_nat (0 + k) + 2) <= 2 ^ 12)
    by (apply Z.pow_le_mono_r; lia).
  change (2 ^ (Z.of_nat 0 + 2)) with 4. change (2 ^ 12) with 4096 in H. lia.
Qed.

Section PolicyFactsMore.

Variable A : Type.
Variable noise : nat -> bool -> exn -> list event.
Hypothesis noise_silent : forall i warned e, policy_view (noise i warned e) = [].

(** The loop never terminates the process. *)
Lemma run_never_exits i n warned (r : result (option A)) t :
  retry_run noise i n warned r t -> forall code, r <> Exit code.
Proof.
  induction 1 as [i warned|i n warned a t Hq|i n warned r t Hq Hr
                 |i n warned t rq e Hq He|i n warned t rq e r t' Hq He Hrun IH];
    intros code; try discriminate; try exact (IH code).
  destruct r as [a|e|c|]; simpl in Hr; try contradiction; discriminate.
Qed.

(** The loop runs to its end only on as many retried failures as attempts. *)
Lemma run_none_exhausted i n warned (r : result (option A)) t :
  retry_run noise i n warned r t ->
  r = Return None ->
  List.length (provider_errors t) = n /\ all_retryable i (provider_errors t) = true.
Proof.
  induction 1 as [i warned|i n warned a t Hq|i n warned r t Hq Hr
                 |i n warned t rq e Hq He|i n warned t rq e r t' Hq He Hrun IH];
    intros Hnone; try discriminate.
  - split; reflexivity.
  - subst r. simpl in Hr. contradiction.
  - destruct (IH Hnone) as [Hlen Hall].
    rewrite (run_errors_retry _ noise_silent) by exact Hq.
    simpl. rewrite He, Hall, Hlen. split; reflexivity.
Qed.

(** The pauses of a run are the backoffs of its first attempts, in order. *)
Lemma run_sleeps i n warned (r : result (option A)) t :
  retry_run noise i n warned r t ->
  sleeps t = map backoff (seq i (List.length (sleeps t)))
  /\ (List.length (sleeps t) <= n)%nat
  /\ (List.length (sleeps t) <= List.length (provider_errors t))%nat.
Proof.
  induction 1 as [i warned|i n warned a t Hq|i n warned r t Hq Hr
                 |i n warned t rq e Hq He|i n warned t rq e r t' Hq He Hrun IH].
  - repeat split; simpl; try reflexivity; lia.
  - unfold sleeps. rewrite (quiet_policy_view Hq). repeat split; simpl; try reflexivity; lia.
  - unfold sleeps. rewrite (quiet_policy_view Hq). repeat split; simpl; try reflexivity; lia.
  - assert (Hs : sleeps (t ++ [Call rq (inl e)]) = []).
    { rewrite sleeps_app. unfold sleeps. rewrite (quiet_policy_view Hq). reflexivity. }
    rewrite Hs. repeat split; simpl; try reflexivity; lia.
  - rewrite (run_sleeps_retry _ noise_silent) by exact Hq.
    rewrite (run_errors_retry _ noise_silent) by exact Hq.
    destruct IH as [Heq [Hlen Herr]]. simpl.
    split; [f_equal; exact Heq|]. split; lia.
Qed.

(** An exception the loop ends with is a provider failure of the run, or an
    [IndexError] of the module's own indexing. *)
Lemma run_raises i n warned (r : result (option A)) t :
  retry_run noise i n warned r t ->
  forall e, r = Raise e ->
            In e (provider_errors t) \/ exists msg, e = IndexError msg.
Proof.
  induction 1 as [i warned|i n warned a t Hq|i n warned r t Hq Hr
                 |i n warned t rq e Hq He|i n warned t rq e r t' Hq He Hrun IH];
    intros e' Hraise; try discriminate.
  - subst r. simpl in Hr. destruct e'; try contradiction. right. eexists. reflexivity.
  - inversion Hraise; subst. left.
    rewrite (run_errors_fatal _ _ Hq). left. reflexivity.
  - destruct (IH e' Hraise) as [Hin|Hidx]; [left|right; exact Hidx].
    rewrite (run_errors_retry _ noise_silent) by exact Hq. right. exact Hin.
Qed.

End PolicyFactsMore.

(** The pauses a schedule of retried failures takes. *)
Lemma schedule_all_retryable errors :
  forall i,
    all_retryable i errors = true ->
    flat_map pause_of (schedule i errors) = map backoff (seq i (List.length errors)).
Proof.
  induction errors as [|e errors IH]; intros i Hall; simpl in *; [reflexivity|].
  apply andb_true_iff in Hall. destruct Hall as [He Hall].
  rewrite He. simpl. rewrite (IH (S i) Hall). reflexivity.
Qed.

Lemma all_retryable_nth errors :
  forall i k e,
    all_retryable i errors = true ->
    nth_error errors k = Some e ->
    retryable (i + k) e = true.
Proof.
  induction errors as [|e0 errors IH]; intros i k e Hall Hk.
  - destruct k; discriminate.
  - simpl in Hall. apply andb_true_iff in Hall. destruct Hall as [He0 Hall].
    destruct k as [|k]; simpl in Hk.
    + inversion Hk; subst. rewrite Nat.add_0_r. exact He0.
    + replace (i + S k)%nat with (S i + k)%nat by lia. apply (IH _ _ _ Hall Hk).
Qed.

Lemma backoff_prefix k :
  (k <= 10)%nat ->
  map backoff (seq 0 k) = firstn k [4; 8; 16; 32; 64; 128; 256; 512; 1024; 2048].
Proof.
  intros Hk.
  do 11 (destruct k as [|k]; [reflexivity|]). lia.
Qed.

Lemma no_call_without_request t rq answer :
  requests t = [] -> ~ In (Call rq answer) t.
Proof.
  induction t as [|ev t IH]; intros Hreq Hin; [exact Hin|].
  destruct Hin as [->|Hin]; [discriminate|].
  apply IH; [|exact Hin].
  destruct ev; simpl in Hreq; try exact Hreq. discriminate.
Qed.

Section SingleCallFacts.

Variables A R : Type.
Variable rq : request.
Variable wrap : R -> reply.
Variable extract : R -> result A.
Variable noise : nat -> bool -> exn -> list event.
Hypothesis noise_requests : forall i warned e, requests (noise i warned e) = [].
Hypothesis noise_silent : forall i warned e, policy_view (noise i warned e) = [].

Lemma single_retry_requests i warned e t' :
  requests (Call rq (inl e) :: noise i warned e ++ Sleep (backoff i) :: t')
  = rq :: requests t'.
Proof.
  change (Call rq (inl e) :: noise i warned e ++ Sleep (backoff i) :: t')
    with ([Call rq (inl e)] ++ noise i warned e ++ [Sleep (backoff i)] ++ t').
  rewrite !requests_app, noise_requests. reflexivity.
Qed.

Lemma single_retry_errors i warned e t' :
  provider_errors (Call rq (inl e) :: noise i warned e ++ Sleep (backoff i) :: t')
  = e :: provider_errors t'.
Proof.
  unfold provider_errors. rewrite (retry_view noise noise_silent). reflexivity.
Qed.

(** One request per attempt, always the same. *)
Lemma single_requests i n warned r t :
  single_call_run rq wrap extract noise i n warned r t ->
  requests t = repeat rq (List.length (requests t))
  /\ (List.length (requests t) <= n)%nat
  /\ (List.length (requests t) <= S (List.length (provider_errors t)))%nat.
Proof.
  induction 1 as [i warned|i n warned response a Ha|i n warned response Hx
                 |i n warned e He|i n warned e r t' He Hrun IH];
    try (split; [reflexivity | split; simpl; lia]).
  rewrite single_retry_requests, single_retry_errors. simpl.
  destruct IH as [Heq [Hlen Herr]]. split; [f_equal; exact Heq | split; lia].
Qed.

(** The loop ends with a value, [None] or an exception. *)
Lemma single_result i n warned r t :
  single_call_run rq wrap extract noise i n warned r t ->
  (exists v, r = Return v) \/ (exists e, r = Raise e).
Proof.
  induction 1 as [i warned|i n warned response a Ha|i n warned response Hx
                 |i n warned e He|i n warned e r t' He Hrun IH];
    try (left; eexists; reflexivity); try (right; eexists; reflexivity).
  exact IH.
Qed.

(** A value comes from the reply that ends the run. *)
Lemma single_value i n warned r t :
  single_call_run rq wrap extract noise i n warned r t ->
  forall a, r = Return (Some a) ->
            exists t0 response,
              t = t0 ++ [Call rq (inr (wrap response))]
              /\ extract response = Return a
              /\ List.length (requests t) = S (List.length (provider_errors t)).
Proof.
  induction 1 as [i warned|i n warned response a Ha|i n warned response Hx
                 |i n warned e He|i n warned e r t' He Hrun IH];
    intros a' Hr; try discriminate.
  - inversion Hr; subst. exists [], response. repeat split. exact Ha.
  - destruct (IH a' Hr) as [t0 [response [Ht [Hx Hlen]]]].
    exists (Call rq (inl e) :: noise i warned e ++ Sleep (backoff i) :: t0), response.
    split; [|split; [exact Hx|]].
    + rewrite Ht. simpl. rewrite <- app_assoc. reflexivity.
    + rewrite single_retry_requests, single_retry_errors. simpl. lia.
Qed.

(** A reply ends the run: it is the last event, the only reply, and the
    run ends with what [extract] makes of it. *)
Lemma single_reply_ends i n warned r t :
  single_call_run rq wrap extract noise i n warned r t ->
  forall rq' answer,
    In (Call rq' (inr answer)) t ->
    exists t0 response,
      t = t0 ++ [Call rq (inr (wrap response))]
      /\ rq' = rq
      /\ answer = wrap response
      /\ r = rbind (extract response) (fun a => Return (Some a))
      /\ (forall rq'' answer', ~ In (Call rq'' (inr answer')) t0).
Proof.
  induction 1 as [i warned|i n warned response a Ha|i n warned response Hx
                 |i n warned e He|i n warned e r t' He Hrun IH];
    intros rq' answer Hin.
  - contradiction.
  - destruct Hin as [Heq|[]]. inversion Heq; subst.
    exists [], response. rewrite Ha. repeat split. intros rq'' answer' [].
  - destruct Hin as [Heq|[]]. inversion Heq; subst.
    exists [], response. rewrite Hx. repeat split. intros rq'' answer' [].
  - destruct Hin as [Heq|[]]. discriminate.
  - destruct Hin as [Heq|Hin]; [discriminate|].
    apply in_app_or in Hin. destruct Hin as [Hin|[Heq|Hin]]; [|discriminate|].
    { exfalso. exact (@no_call_without_request _ _ _ (noise_requests i warned e) Hin). }
    destruct (IH rq' answer Hin) as [t0 [response [Ht [Hrq [Hanswer [Hr Hnone]]]]]].
    exists (Call rq (inl e) :: noise i warned e ++ Sleep (backoff i) :: t0), response.
    split; [rewrite Ht; simpl; rewrite <- app_assoc; reflexivity|].
    split; [exact Hrq|]. split; [exact Hanswer|]. split; [exact Hr|].
    intros rq'' answer' [Heq|Hin']; [discriminate|].
    apply in_app_or in Hin'. destruct Hin' as [Hin'|[Heq|Hin']]; [|discriminate|].
    + exact (@no_call_without_request _ _ _ (noise_requests i warned e) Hin').
    + exact (Hnone rq'' answer' Hin').
Qed.

End SingleCallFacts.

Lemma chat_noise_requests debug i warned e : requests (chat_noise debug i warned e) = [].
Proof. unfold chat_noise. destruct (is_rate_limit e), debug, warned; reflexivity. Qed.

Lemma embedding_noise_requests debug i warned e :
  requests (embedding_noise debug i warned e) = [].
Proof. unfold embedding_noise. destruct debug; reflexivity. Qed.

Lemma prologue_requests CFG model temp mt : requests (prologue CFG model temp mt) = [].
Proof. unfold prologue. destruct (debug_mode CFG); reflexivity. Qed.

Lemma epilogue_requests CFG r0 : requests (snd (epilogue CFG r0)) = [].
Proof. destruct r0 as [[v|]|e|c|]; reflexivity. Qed.

Lemma framed_requests CFG model temp mt r0 t0 :
  requests (prologue CFG model temp mt ++ t0 ++ snd (epilogue CFG r0)) = requests t0.
Proof.
  rewrite !requests_app, prologue_requests, epilogue_requests, app_nil_r. reflexivity.
Qed.

(** The run of [create_chat_completion] outside the Claude family. *)
Lemma chat_completion_single W (P : Provider W) H A fmt CFG fuel
      messages model temp mt w :
  use_claude CFG = false ->
  exists r0 t0,
    single_call_run (ReqChat (openai_request CFG messages model temp mt)) RepChat
                    (fun response => Return (VChat response))
                    (chat_noise (debug_mode CFG)) 0 10 false r0 t0
    /\ outcome (create_chat_completion P H A fmt CFG fuel messages model temp mt w)
       = fst (epilogue CFG r0)
    /\ trace (create_chat_completion P H A fmt CFG fuel messages model temp mt w)
       = prologue CFG model temp mt ++ t0 ++ snd (epilogue CFG r0).
Proof.
  intros Hopenai.
  destruct (create_chat_completion_loop P H A fmt CFG fuel messages model temp mt w)
    as [r0 [w0 [t0 [Hloop Hrun]]]].
  exists r0, t0. rewrite Hrun. split; [|split; reflexivity].
  eapply chat_attempts_single; [exact Hopenai | exact Hloop].
Qed.

Lemma embedding_single W (P : Provider W) CFG text w :
  single_call_run (ReqEmbedding (ada_request CFG text)) RepEmbedding first_embedding
                  (embedding_noise (debug_mode CFG)) 0 10 false
                  (outcome (create_embedding_with_ada P CFG text w))
                  (trace (create_embedding_with_ada P CFG text w)).
Proof.
  unfold create_embedding_with_ada, range.
  destruct (embedding_attempts P CFG 10 (seq 0 10) text w) as [[r w'] t] eqn:E.
  eapply embedding_attempts_single. exact E.
Qed.

(** ** [create_chat_completion] outside the Claude family *)

(** X1. Outside the Claude family, a text [create_chat_completion] returns
    is the content of the first choice of the reply that ends the run. *)
Theorem chat_returns_first_choice W (P : Provider W) H A fmt CFG fuel
    messages model temp mt w v :
  use_claude CFG = false ->
  outcome (create_chat_completion P H A fmt CFG fuel messages model temp mt w)
  = Return v ->
  exists t0 response c others,
    trace (create_chat_completion P H A fmt CFG fuel messages model temp mt w)
    = t0 ++ [Call (ReqChat (openai_request CFG messages model temp mt))
                  (inr (RepChat response))]
    /\ choices response = c :: others
    /\ v = VStr (content (choice_message c)).
Proof.
  intros Hopenai Hout.
  destruct (chat_completion_single P H A fmt CFG fuel messages model temp mt w Hopenai)
    as [r0 [t0 [Hrun [Hr Htr]]]].
  rewrite Hr in Hout. rewrite Htr.
  destruct r0 as [[v0|]|e|c|]; simpl in Hout; try discriminate.
  - destruct (single_value (chat_noise_requests (debug_mode CFG))
                (chat_noise_policy_view (debug_mode CFG)) Hrun eq_refl)
      as [t1 [response [Ht [Hx _]]]].
    inversion Hx; subst v0. rewrite Hopenai in Hout.
    destruct (choices response) as [|c others] eqn:Ech; simpl in Hout; try discriminate.
    inversion Hout; subst v.
    exists (prologue CFG model temp mt ++ t1), response, c, others.
    simpl. rewrite app_nil_r, Ht, app_assoc. repeat split. exact Ech.
  - destruct (debug_mode CFG); discriminate.
Qed.

(** X2. Outside the Claude family, a reply of the provider ends the call at
    once: a reply that occurs in the run answers the request built from the
    arguments, is the only reply and the last event of the run, so nothing
    is retried, slept on or logged after it; the call returns the content of
    its first choice, and raises [IndexError] when it has no choice. *)
Theorem chat_reply_decides W (P : Provider W) H A fmt CFG fuel
    messages model temp mt w rq answer :
  use_claude CFG = false ->
  In (Call rq (inr answer))
     (trace (create_chat_completion P H A fmt CFG fuel messages model temp mt w)) ->
  exists t0 response,
    answer = RepChat response
    /\ rq = ReqChat (openai_request CFG messages model temp mt)
    /\ trace (create_chat_completion P H A fmt CFG fuel messages model temp mt w)
       = t0 ++ [Call rq (inr answer)]
    /\ (forall rq' answer', ~ In (Call rq' (inr answer')) t0)
    /\ outcome (create_chat_completion P H A fmt CFG fuel messages model temp mt w)
       = match choices response with
         | [] => Raise list_index_error
         | c :: _ => Return (VStr (content (choice_message c)))
         end.
Proof.
  intros Hopenai Hin.
  destruct (chat_completion_single P H A fmt CFG fuel messages model temp mt w Hopenai)
    as [r0 [t1 [Hrun [Hr Htr]]]].
  assert (Hpro : forall rq' answer',
             ~ In (Call rq' (inr answer')) (prologue CFG model temp mt)).
  { intros rq' answer' Hin'. unfold prologue in Hin'.
    destruct (debug_mode CFG); [destruct Hin' as [Heq|[]]; discriminate | exact Hin']. }
  rewrite Htr in Hin.
  apply in_app_or in Hin. destruct Hin as [Hin|Hin]; [exfalso; exact (Hpro _ _ Hin)|].
  apply in_app_or in Hin. destruct Hin as [Hin|Hin].
  2: { exfalso. destruct r0 as [[v|]|e|c|]; simpl in Hin; try contradiction.
       destruct Hin as [Heq|[Heq|[]]]; discriminate. }
  destruct (single_reply_ends (chat_noise_requests (debug_mode CFG)) Hrun _ _ Hin)
    as [t0 [response [Ht [Hrq [Hanswer [Hres Hnone]]]]]].
  simpl in Hres. subst rq answer r0 t1.
  exists (prologue CFG model temp mt ++ t0), response.
  rewrite Hr, Htr. simpl. rewrite Hopenai.
  split; [reflexivity|]. split; [reflexivity|].
  split; [rewrite app_nil_r, app_assoc; reflexivity|].
  split.
  - intros rq' answer' Hin'. apply in_app_or in Hin'.
    destruct Hin' as [Hin'|Hin']; [exact (Hpro _ _ Hin') | exact (Hnone _ _ Hin')].
  - destruct (choices response); reflexivity.
Qed.

(** X3. Outside the Claude family, every request of a run of
    [create_chat_completion] is the same chat request, built from the
    arguments; there are at most ten, and at most one more than there are
    provider failures. *)
Theorem chat_one_request_per_attempt W (P : Provider W) H A fmt CFG fuel
    messages model temp mt w :
  use_claude CFG = false ->
  let t := trace (create_chat_completion P H A fmt CFG fuel messages model temp mt w) in
  requests t = repeat (ReqChat (openai_request CFG messages model temp mt))
                      (List.length (requests t))
  /\ (List.length (requests t) <= 10)%nat
  /\ (List.length (requests t) <= S (List.length (provider_errors t)))%nat.
Proof.
  intros Hopenai.
  destruct (chat_completion_single P H A fmt CFG fuel messages model temp mt w Hopenai)
    as [r0 [t0 [Hrun [_ Htr]]]].
  simpl. rewrite Htr, framed_requests, framed_provider_errors.
  apply (single_requests (chat_noise_requests (debug_mode CFG))
           (chat_noise_policy_view (debug_mode CFG)) Hrun).
Qed.

(** ** [create_chat_completion] in both families *)

Lemma chat_attempts_claude_value W (P : Provider W) H A fmt CFG fuel
      messages model temp mt :
  use_claude CFG = true ->
  forall todo warned w v w' t,
    chat_attempts P H A fmt CFG fuel 10 todo warned messages model temp mt w
    = (Return (Some v), w', t) ->
    exists s, v = VStr s.
Proof.
  intros Hclaude.
  induction todo as [|attempt rest IH]; intros warned w v w' t Hrun.
  { inversion Hrun. }
  rewrite chat_attempts_cons, (chat_request_claude P H A fmt CFG Hclaude) in Hrun.
  unfold bind at 1 in Hrun. unfold try, bind at 1 in Hrun.
  destruct (sendReq P H A CFG fuel (fmt messages) MAX_TOKEN_ONCE w) as [[rb w1] t1].
  destruct rb as [s|e|c|]; simpl in Hrun; try discriminate.
  - inversion Hrun; subst. exists s. reflexivity.
  - unfold bind, when, emit, ret, raise, time_sleep in Hrun.
    destruct e as [m|m st|m|m|m|c m]; simpl in Hrun; try discriminate.
    + destruct (debug_mode CFG), warned; simpl in Hrun;
        match type of Hrun with context [chat_attempts ?a1 ?a2 ?a3 ?a4 ?a5 ?a6 ?a7 ?a8 ?a9 ?b1 ?b2 ?b3 ?b4 ?b5] =>
          pose proof (IH a9 b5) as IH';
          destruct (chat_attempts a1 a2 a3 a4 a5 a6 a7 a8 a9 b1 b2 b3 b4 b5) as [[r2 w2] t2] end;
        inversion Hrun; subst; apply (IH' _ _ _ eq_refl).
    + destruct (is_502 st); simpl in Hrun; try discriminate.
      destruct (Nat.eqb attempt 9); simpl in Hrun; try discriminate.
      destruct (debug_mode CFG); simpl in Hrun;
        match type of Hrun with context [chat_attempts ?a1 ?a2 ?a3 ?a4 ?a5 ?a6 ?a7 ?a8 ?a9 ?b1 ?b2 ?b3 ?b4 ?b5] =>
          pose proof (IH a9 b5) as IH';
          destruct (chat_attempts a1 a2 a3 a4 a5 a6 a7 a8 a9 b1 b2 b3 b4 b5) as [[r2 w2] t2] end;
        inversion Hrun; subst; apply (IH' _ _ _ eq_refl).
Qed.

(** What the loop hands to the end of [create_chat_completion]: the text of
    [sendReq] in the Claude family, the response object otherwise. *)
Lemma chat_attempts_value W (P : Provider W) H A fmt CFG fuel messages model temp mt
      w v w' t :
  chat_attempts P H A fmt CFG fuel 10 (seq 0 10) false messages model temp mt w
  = (Return (Some v), w', t) ->
  if use_claude CFG then exists s, v = VStr s else exists response, v = VChat response.
Proof.
  intros Hrun. destruct (use_claude CFG) eqn:Hfamily.
  - eapply chat_attempts_claude_value; eassumption.
  - pose proof (chat_attempts_single P H A fmt CFG fuel messages model temp mt
                  Hfamily _ _ _ _ Hrun) as Hsingle.
    destruct (single_value (chat_noise_requests (debug_mode CFG))
                (chat_noise_policy_view (debug_mode CFG)) Hsingle eq_refl)
      as [t1 [response [_ [Hx _]]]].
    inversion Hx. exists response. reflexivity.
Qed.

(** X4. What [create_chat_completion] returns is a [str], in both families;
    and an [AttributeError] it raises was raised by the provider: the access
    to [response.choices] never fails on a text. *)
Theorem chat_returns_str W (P : Provider W) H A fmt CFG fuel
    messages model temp mt w :
  let run := create_chat_completion P H A fmt CFG fuel messages model temp mt w in
  (forall v, outcome run = Return v -> exists s, v = VStr s)
  /\ (forall msg, outcome run = Raise (AttributeError msg) ->
                  In (AttributeError msg) (provider_errors (trace run))).
Proof.
  destruct (create_chat_completion_loop P H A fmt CFG fuel messages model temp mt w)
    as [r0 [w0 [t0 [Hloop Hrun]]]].
  pose proof (chat_attempts_run P H A fmt CFG fuel messages model temp mt
                10 0 false w Hloop) as Hpolicy.
  simpl. rewrite Hrun. unfold outcome, trace. simpl.
  rewrite framed_provider_errors.
  split.
  - intros v Hv.
    destruct r0 as [[v0|]|e|c|]; simpl in Hv; try discriminate.
    + pose proof (chat_attempts_value P H A fmt CFG fuel messages model temp mt w Hloop)
        as Hvalue.
      destruct (use_claude CFG).
      * inversion Hv; subst. exact Hvalue.
      * destruct Hvalue as [response ->].
        destruct (choices response); simpl in Hv; try discriminate.
        inversion Hv. eexists. reflexivity.
    + destruct (debug_mode CFG); discriminate.
  - intros msg Hraise.
    destruct r0 as [[v0|]|e|c|]; simpl in Hraise; try discriminate.
    + pose proof (chat_attempts_value P H A fmt CFG fuel messages model temp mt w Hloop)
        as Hvalue.
      destruct (use_claude CFG); [discriminate|].
      destruct Hvalue as [response ->].
      destruct (choices response); simpl in Hraise; discriminate.
    + destruct (debug_mode CFG); discriminate.
    + inversion Hraise; subst e.
      destruct (run_raises (chat_noise_policy_view (debug_mode CFG)) Hpolicy eq_refl)
        as [Hin|[m Hm]]; [exact Hin | discriminate].
Qed.

(** X5. [create_chat_completion] terminates the process only on exhaustion:
    when it ends with [quit], the status is 1, the debug mode is off, and the
    provider failed ten times with failures the policy retries, each slept on
    in turn; the failure notice is the last thing logged. *)
Theorem chat_quits_only_on_exhaustion W (P : Provider W) H A fmt CFG fuel
    messages model temp mt w code :
  let run := create_chat_completion P H A fmt CFG fuel messages model temp mt w in
  outcome run = Exit code ->
  code = 1
  /\ debug_mode CFG = false
  /\ List.length (provider_errors (trace run)) = 10%nat
  /\ all_retryable 0 (provider_errors (trace run)) = true
  /\ sleeps (trace run) = [4; 8; 16; 32; 64; 128; 256; 512; 1024; 2048]
  /\ exists t0,
       trace run = t0 ++ [TypewriterLog FAILED_TITLE Fore_RED FAILED_TEXT; DoubleCheck None].
Proof.
  destruct (chat_completion_policy P H A fmt CFG fuel messages model temp mt w)
    as [r0 [t0 [Hrun [Hout Htr]]]].
  simpl. rewrite Hout, Htr, framed_provider_errors, framed_sleeps.
  intros Hexit.
  destruct r0 as [[v0|]|e|c|]; simpl in Hexit; try discriminate.
  - destruct (use_claude CFG); [discriminate|].
    destruct v0 as [s|r]; [discriminate|].
    destruct (choices r); discriminate.
  - destruct (debug_mode CFG) eqn:Edbg; [discriminate|].
    inversion Hexit; subst code.
    destruct (run_none_exhausted (chat_noise_policy_view false) Hrun eq_refl)
      as [Hlen Hall].
    split; [reflexivity|]. split; [reflexivity|].
    split; [exact Hlen|]. split; [exact Hall|].
    split.
    + unfold sleeps.
      rewrite (run_policy_view (chat_noise_policy_view false) Hrun).
      rewrite (schedule_all_retryable _ _ Hall), Hlen. reflexivity.
    + exists (prologue CFG model temp mt ++ t0). simpl.
      rewrite <- app_assoc. reflexivity.
  - exfalso. apply (run_never_exits Hrun (code:=c)). reflexivity.
Qed.

(** X6. The pauses of a run of [create_chat_completion] or of
    [create_embedding_with_ada] are the first of 4, 8, ..., 2048 seconds, in
    this order: a call sleeps at most 4092 seconds in all. *)
Theorem total_backoff_bounded W (P : Provider W) H A fmt CFG fuel
    messages model temp mt text w t :
  t = trace (create_chat_completion P H A fmt CFG fuel messages model temp mt w)
  \/ t = trace (create_embedding_with_ada P CFG text w) ->
  sleeps t = firstn (List.length (sleeps t)) [4; 8; 16; 32; 64; 128; 256; 512; 1024; 2048]
  /\ (List.length (sleeps t) <= 10)%nat
  /\ (List.length (sleeps t) <= List.length (provider_errors t))%nat
  /\ 0 <= total (sleeps t) <= 4092.
Proof.
  intros Ht.
  assert (Hs : sleeps t = map backoff (seq 0 (List.length (sleeps t)))
               /\ (List.length (sleeps t) <= 10)%nat
               /\ (List.length (sleeps t) <= List.length (provider_errors t))%nat).
  { destruct Ht as [-> | ->].
    - destruct (chat_completion_policy P H A fmt CFG fuel messages model temp mt w)
        as [r0 [t0 [Hrun [_ Htr]]]].
      rewrite Htr, framed_sleeps, framed_provider_errors.
      apply (run_sleeps (chat_noise_policy_view (debug_mode CFG)) Hrun).
    - apply (run_sleeps (embedding_noise_policy_view (debug_mode CFG))
               (embedding_policy P CFG text w)). }
  destruct Hs as [Heq [Hlen Herr]].
  split; [|split; [exact Hlen|split; [exact Herr|]]].
  - rewrite Heq at 1. apply backoff_prefix. exact Hlen.
  - rewrite Heq. split; [|apply total_backoff_bound; exact Hlen].
    rewrite total_backoff.
    assert (2 ^ (Z.of_nat 0 + 2) <= 2 ^ (Z.of_nat (0 + List.length (sleeps t)) + 2))
      by (apply Z.pow_le_mono_r; lia).
    lia.
Qed.

(** ** [create_embedding_with_ada] *)

Lemma single_no_log A R rq (wrap : R -> reply) (extract : R -> result A) noise
      i n warned r t :
  (forall i warned e, Forall (fun ev => is_log ev = false) (noise i warned e)) ->
  single_call_run rq wrap extract noise i n warned r t ->
  Forall (fun ev => is_log ev = false) t.
Proof.
  intros Hnoise.
  induction 1 as [i warned|i n warned response a Ha|i n warned response Hx
                 |i n warned e He|i n warned e r t' He Hrun IH];
    try (repeat constructor).
  apply Forall_app. split; [apply Hnoise|].
  constructor; [reflexivity | exact IH].
Qed.

Lemma embedding_noise_no_log debug i warned e :
  Forall (fun ev => is_log ev = false) (embedding_noise debug i warned e).
Proof. unfold embedding_noise. destruct debug; repeat constructor. Qed.

(** X7. [create_embedding_with_ada] returns [None] exactly when the provider
    failed ten times with failures the policy retries; it has then slept
    4, 8, ..., 2048 seconds, the last time after a rate-limit error on the
    tenth attempt. *)
Theorem embedding_none_iff_exhausted W (P : Provider W) CFG text w :
  let run := create_embedding_with_ada P CFG text w in
  (outcome run = Return None
   <-> List.length (provider_errors (trace run)) = 10%nat
       /\ all_retryable 0 (provider_errors (trace run)) = true)
  /\ (outcome run = Return None ->
      sleeps (trace run) = [4; 8; 16; 32; 64; 128; 256; 512; 1024; 2048]
      /\ exists msg, nth_error (provider_errors (trace run)) 9 = Some (RateLimitError msg)).
Proof.
  pose proof (embedding_policy P CFG text w) as Hrun.
  pose proof (embedding_noise_policy_view (debug_mode CFG)) as Hsilent.
  cbv zeta.
  assert (Hexh : outcome (create_embedding_with_ada P CFG text w) = Return None ->
                 List.length (provider_errors (trace (create_embedding_with_ada P CFG text w)))
                 = 10%nat
                 /\ all_retryable 0
                      (provider_errors (trace (create_embedding_with_ada P CFG text w)))
                    = true)
    by (apply (run_none_exhausted Hsilent Hrun)).
  split.
  - split; [exact Hexh|].
    intros [Hlen Hall]. apply (run_exhausted Hsilent Hrun Hlen Hall).
  - intros Hnone. destruct (Hexh Hnone) as [Hlen Hall].
    split.
    + unfold sleeps. rewrite (run_policy_view Hsilent Hrun).
      rewrite (schedule_all_retryable _ _ Hall), Hlen. reflexivity.
    + destruct (nth_error (provider_errors (trace (create_embedding_with_ada P CFG text w))) 9)
        as [e|] eqn:E9.
      * pose proof (all_retryable_nth _ 0 9 Hall E9) as He.
        unfold retryable in He. simpl in He. rewrite andb_false_r, orb_false_r in He.
        destruct e; try discriminate. eexists. reflexivity.
      * apply nth_error_None in E9. lia.
Qed.

(** X8. [create_embedding_with_ada] never calls the logger and never
    terminates the process: its events are requests, the debug print of the
    wait and pauses; it ends with a value, [None] or an exception; it sends
    at most ten requests. *)
Theorem embedding_never_logs_nor_quits W (P : Provider W) CFG text w :
  let run := create_embedding_with_ada P CFG text w in
  Forall (fun ev => is_log ev = false) (trace run)
  /\ ((exists v, outcome run = Return v) \/ (exists e, outcome run = Raise e))
  /\ (List.length (requests (trace run)) <= 10)%nat.
Proof.
  pose proof (embedding_single P CFG text w) as Hrun.
  simpl. split; [|split].
  - apply (single_no_log (embedding_noise_no_log (debug_mode CFG)) Hrun).
  - apply (single_result Hrun).
  - apply (single_requests (embedding_noise_requests (debug_mode CFG))
             (embedding_noise_policy_view (debug_mode CFG)) Hrun).
Qed.

(** ** [sendReq] against any provider *)

Lemma sendReq_while_returns W (P : Provider W) H A CFG mt :
  forall fuel prompt buffer cur w s w' t,
    sendReq_while P H A CFG fuel {| client_api_key := claude_api_key CFG |}
                  mt prompt buffer cur w = (Return s, w', t) ->
    exists replies,
      t = continuations CFG H A mt prompt replies
      /\ continued P CFG H A mt prompt w replies w'
      /\ length_limited_until_last cur replies = true
      /\ stitch_all buffer (map completion replies) = Return s
      /\ (List.length replies <= fuel)%nat.
Proof.
  induction fuel as [|fuel IH]; intros prompt buffer cur w s w' t Hrun.
  - simpl in Hrun.
    destruct (String.eqb (stop_reason cur) "max_tokens") eqn:Estop;
      simpl in Hrun; inversion Hrun; subst.
    exists []. simpl. rewrite Estop. repeat split. lia.
  - rewrite sendReq_while_S in Hrun.
    destruct (String.eqb (stop_reason cur) "max_tokens") eqn:Estop; cbn [negb] in Hrun.
    + unfold bind at 1 in Hrun. rewrite _sendReq_run in Hrun.
      destruct (completion_endpoint P (completion_request CFG H A mt (prompt +++ cue H A)) w)
        as [[e|c] w1] eqn:Enow; cbn [fst snd answer_result answer_reply] in Hrun;
        [discriminate|].
      unfold bind at 1 in Hrun. unfold lift in Hrun.
      destruct (stitch buffer (completion c)) as [joined|e|code|] eqn:Ejoin;
        try discriminate.
      match type of Hrun with context [sendReq_while ?p ?h ?a ?cf ?f ?cl ?m ?pr ?b ?r ?ww] =>
        destruct (sendReq_while p h a cf f cl m pr b r ww) as [[r2 w2] t2] eqn:Erest end.
      inversion Hrun; subst.
      destruct (IH _ _ _ _ _ _ _ Erest) as [replies [Ht [Hc [Hl [Hs Hf]]]]].
      exists (c :: replies). simpl. rewrite Estop, Ejoin. simpl.
      split; [rewrite Ht; reflexivity|].
      split; [exists w1; split; [exact Enow | exact Hc]|].
      split; [exact Hl|]. split; [exact Hs | lia].
    + inversion Hrun; subst. exists []. simpl. rewrite Estop. repeat split. lia.
Qed.

(** X9. A text [sendReq] returns is the join of a complete conversation:
    the provider answered every round, every reply but the last was
    length-limited, the last was not, and the trace is that conversation. *)
Theorem sendReq_returns_complete_conversations W (P : Provider W) H A CFG fuel
    question mt w s w' t :
  sendReq P H A CFG fuel question mt w = (Return s, w', t) ->
  exists first replies,
    t = conversation CFG H A mt question first replies
    /\ conversed P CFG H A mt question w first replies w'
    /\ length_limited_until_last first replies = true
    /\ stitch_all (completion first) (map completion replies) = Return s
    /\ (List.length replies <= fuel)%nat.
Proof.
  intros Hrun. unfold sendReq in Hrun.
  unfold bind at 1 in Hrun. rewrite _sendReq_run in Hrun.
  destruct (completion_endpoint P
              (completion_request CFG H A mt (H +++ " " +++ question +++ " " +++ A)) w)
    as [[e|first] w1] eqn:Enow; cbn [fst snd answer_result answer_reply] in Hrun;
    [discriminate|].
  match type of Hrun with context [sendReq_while ?p ?h ?a ?cf ?f ?cl ?m ?pr ?b ?r ?ww] =>
    destruct (sendReq_while p h a cf f cl m pr b r ww) as [[r2 w2] t2] eqn:Erest end.
  inversion Hrun; subst.
  destruct (sendReq_while_returns _ _ _ _ _ _ _ _ _ _ Erest)
    as [replies [Ht [Hc [Hl [Hs Hf]]]]].
  exists first, replies. unfold conversation, conversed.
  split; [rewrite Ht; reflexivity|].
  split; [exists w1; split; [exact Enow | exact Hc]|].
  split; [exact Hl|]. split; [exact Hs | exact Hf].
Qed.

(** X10. A provider failure inside [sendReq] ends it: the exception is the
    outcome, unchanged, the failed request is the last event, and every
    exchange before it was answered; the text assembled so far is lost. *)
Theorem sendReq_failure_propagates W (P : Provider W) H A CFG fuel question mt w e :
  let run := sendReq P H A CFG fuel question mt w in
  In e (provider_errors (trace run)) ->
  outcome run = Raise e
  /\ exists t0 rq, trace run = t0 ++ [Call rq (inl e)] /\ quiet t0.
Proof.
  pose proof (sendReq_shape P H A CFG fuel question mt w) as Hshape.
  destruct (sendReq P H A CFG fuel question mt w) as [[r w'] t].
  unfold outcome, trace in *. simpl in *. intros Hin.
  destruct Hshape as [a t Hq|r t Hq Hr|t rq e' Hq].
  - rewrite (quiet_provider_errors Hq) in Hin. contradiction.
  - rewrite (quiet_provider_errors Hq) in Hin. contradiction.
  - rewrite provider_errors_app, (quiet_provider_errors Hq) in Hin.
    simpl in Hin. destruct Hin as [<-|[]].
    split; [reflexivity|]. exists t, rq. split; [reflexivity | exact Hq].
Qed.

Lemma string_length_append a b :
  String.length (a +++ b) = (String.length a + String.length b)%nat.
Proof. induction a as [|c a IH]; simpl; [reflexivity | rewrite IH; reflexivity]. Qed.

Lemma unspaced_append a b : unspaced (a +++ b) = unspaced a +++ unspaced b.
Proof.
  induction a as [|c a IH]; simpl; [reflexivity|].
  destruct (Ascii.eqb c SPACE); simpl; rewrite IH; reflexivity.
Qed.

Lemma stitch_keeps buffer d s :
  stitch buffer d = Return s -> s = buffer +++ d \/ s = buffer +++ " " +++ d.
Proof.
  unfold stitch, getitem_last, getitem_first.
  destruct (str_last buffer) as [c1|]; simpl; [|discriminate].
  destruct (negb (Ascii.eqb c1 SPACE)); [|intros Hs; inversion Hs; left; reflexivity].
  destruct (str_first d) as [c2|]; simpl; [|discriminate].
  destruct (negb (Ascii.eqb c2 SPACE)); intros Hs; inversion Hs; [right|left]; reflexivity.
Qed.

Lemma append_assoc a b c : (a +++ b) +++ c = a +++ b +++ c.
Proof. induction a as [|x a IH]; simpl; [reflexivity | rewrite IH; reflexivity]. Qed.

Lemma append_empty s : s +++ EmptyString = s.
Proof. induction s as [|c s IH]; simpl; [reflexivity | rewrite IH; reflexivity]. Qed.

Lemma stitch_all_keeps fragments :
  forall buffer s,
    stitch_all buffer fragments = Return s ->
    unspaced s = unspaced (buffer +++ joined_text fragments)
    /\ (String.length (buffer +++ joined_text fragments) <= String.length s)%nat
    /\ (String.length s
        <= String.length (buffer +++ joined_text fragments) + List.length fragments)%nat.
Proof.
  induction fragments as [|d fragments IH]; intros buffer s Hs; simpl in Hs.
  - inversion Hs; subst. simpl. rewrite append_empty. repeat split; try reflexivity; lia.
  - destruct (stitch buffer d) as [joined|e|c|] eqn:Ejoin; simpl in Hs; try discriminate.
    destruct (IH joined s Hs) as [Hu [Hlo Hhi]].
    simpl joined_text. simpl List.length.
    rewrite <- append_assoc.
    destruct (stitch_keeps _ _ Ejoin) as [->| ->].
    + repeat split; [exact Hu | exact Hlo | lia].
    + rewrite Hu. rewrite !unspaced_append. simpl unspaced.
      rewrite !string_length_append in *. simpl String.length in *.
      repeat split; try reflexivity; lia.
Qed.

Lemma replied_texts_reply rq c t :
  replied_texts (Call rq (inr (RepCompletion c)) :: t) = completion c :: replied_texts t.
Proof. reflexivity. Qed.

Lemma replied_texts_continuations CFG H A mt replies :
  forall prompt,
    replied_texts (continuations CFG H A mt prompt replies) = map completion replies.
Proof.
  induction replies as [|c replies IH]; intros prompt; simpl; [reflexivity|].
  unfold replied_texts in *. simpl. rewrite IH. reflexivity.
Qed.

(** X11. The text [sendReq] returns has every character of the provider's
    replies, in order, and nothing else but single spaces put between
    replies: without its spaces it is the replies without theirs, and it is
    longer than the replies together by less than their number. *)
Theorem sendReq_keeps_every_character W (P : Provider W) H A CFG fuel
    question mt w s w' t :
  sendReq P H A CFG fuel question mt w = (Return s, w', t) ->
  unspaced s = unspaced (joined_text (replied_texts t))
  /\ (String.length (joined_text (replied_texts t)) <= String.length s)%nat
  /\ (String.length s
      < String.length (joined_text (replied_texts t)) + List.length (replied_texts t))%nat.
Proof.
  intros Hrun. unfold sendReq in Hrun.
  unfold bind at 1 in Hrun. rewrite _sendReq_run in Hrun.
  destruct (completion_endpoint P
              (completion_request CFG H A mt (H +++ " " +++ question +++ " " +++ A)) w)
    as [[e|first] w1] eqn:Enow; cbn [fst snd answer_result answer_reply] in Hrun;
    [discriminate|].
  match type of Hrun with context [sendReq_while ?p ?h ?a ?cf ?f ?cl ?m ?pr ?b ?r ?ww] =>
    destruct (sendReq_while p h a cf f cl m pr b r ww) as [[r2 w2] t2] eqn:Erest end.
  inversion Hrun; subst.
  destruct (sendReq_while_returns _ _ _ _ _ _ _ _ _ _ Erest)
    as [replies [Ht [_ [_ [Hs _]]]]].
  subst t2.
  cbn [app]. rewrite replied_texts_reply.
  rewrite replied_texts_continuations.
  destruct (stitch_all_keeps _ _ Hs) as [Hu [Hlo Hhi]].
  simpl joined_text. simpl List.length. rewrite length_map in *.
  repeat split; [exact Hu | exact Hlo | lia].
Qed.

(** ** What the configuration changes *)

Lemma without_prints_app t1 t2 :
  without_prints (t1 ++ t2) = without_prints t1 ++ without_prints t2.
Proof. apply filter_app. Qed.

Lemma embedding_attempts_config W (P : Provider W) CFG1 CFG2 text :
  ada_request CFG1 text = ada_request CFG2 text ->
  forall n i w r1 u1 t1 r2 u2 t2,
    embedding_attempts P CFG1 10 (seq i n) text w = (r1, u1, t1) ->
    embedding_attempts P CFG2 10 (seq i n) text w = (r2, u2, t2) ->
    r1 = r2 /\ u1 = u2 /\ without_prints t1 = without_prints t2.
Proof.
  intros Hrq.
  induction n as [|n IH]; intros i w r1 u1 t1 r2 u2 t2 H1 H2.
  { inversion H1; inversion H2; subst. repeat split. }
  simpl seq in H1, H2. rewrite embedding_attempts_cons in H1, H2.
  unfold bind at 1 in H1. unfold bind at 1 in H2. unfold try in H1, H2.
  rewrite embedding_request_run in H1, H2. rewrite Hrq in H1.
  destruct (embedding_endpoint P (ada_request CFG2 text) w) as [[e|response] w1];
    cbn [fst snd answer_reply] in H1, H2.
  - unfold bind, when, emit, ret, raise, time_sleep in H1, H2.
    destruct e as [m|m st|m|m|m|c m]; simpl in H1, H2;
      try (inversion H1; inversion H2; subst; repeat split; reflexivity).
    + destruct (debug_mode CFG1), (debug_mode CFG2); simpl in H1, H2;
        fold (backoff i) in H1, H2;
        destruct (embedding_attempts P CFG1 10 (seq (S i) n) text (elapse P (backoff i) w1))
          as [[r1' u1'] t1'] eqn:E1;
        destruct (embedding_attempts P CFG2 10 (seq (S i) n) text (elapse P (backoff i) w1))
          as [[r2' u2'] t2'] eqn:E2;
        destruct (IH _ _ _ _ _ _ _ _ E1 E2) as [Ho [Hw Ht]];
        inversion H1; inversion H2; subst;
        unfold without_prints in *; cbn [filter is_print negb];
        rewrite ?Ht; repeat split; reflexivity.
    + destruct (is_502 st); simpl in H1, H2;
        try (inversion H1; inversion H2; subst; repeat split; reflexivity).
      destruct (Nat.eqb i 9); simpl in H1, H2;
        try (inversion H1; inversion H2; subst; repeat split; reflexivity).
      destruct (debug_mode CFG1), (debug_mode CFG2); simpl in H1, H2;
        fold (backoff i) in H1, H2;
        destruct (embedding_attempts P CFG1 10 (seq (S i) n) text (elapse P (backoff i) w1))
          as [[r1' u1'] t1'] eqn:E1;
        destruct (embedding_attempts P CFG2 10 (seq (S i) n) text (elapse P (backoff i) w1))
          as [[r2' u2'] t2'] eqn:E2;
        destruct (IH _ _ _ _ _ _ _ _ E1 E2) as [Ho [Hw Ht]];
        inversion H1; inversion H2; subst;
        unfold without_prints in *; cbn [filter is_print negb];
        rewrite ?Ht; repeat split; reflexivity.
  - destruct (data response); simpl in H1, H2; unfold bind, raise, ret in H1, H2;
      simpl in H1, H2; inversion H1; inversion H2; subst; repeat split; reflexivity.
Qed.

(** X12. The embedding call depends on the configuration through four
    settings only: the OpenAI key the module hands to the [openai] library
    when it is imported, the Azure flag, the Azure deployment of the ada
    model and the debug flag.  After the import, two configurations that
    agree on the first three give the same outcome, leave the provider in
    the same state and differ in their traces by debug prints only.  The key
    is one of the four: against a provider that checks it, two
    configurations that differ in the key alone end differently. *)
Theorem embedding_reads_four_settings :
  (forall W (P : Provider W) CFG1 CFG2 text w,
      openai_api_key CFG1 = openai_api_key CFG2 ->
      use_azure CFG1 = use_azure CFG2 ->
      get_azure_deployment_id_for_model CFG1 (Some ADA)
      = get_azure_deployment_id_for_model CFG2 (Some ADA) ->
      let run1 := (import_llm_utils P CFG1 ;;; create_embedding_with_ada P CFG1 text) w in
      let run2 := (import_llm_utils P CFG2 ;;; create_embedding_with_ada P CFG2 text) w in
      outcome run1 = outcome run2
      /\ final_world run1 = final_world run2
      /\ without_prints (trace run1) = without_prints (trace run2))
  /\ (outcome ((import_llm_utils (keyed "sk-openai" [HALF]) (cfg false false false) ;;;
                create_embedding_with_ada (keyed "sk-openai" [HALF]) (cfg false false false)
                                          "hi") "none")
      = Return (Some [HALF])
      /\ outcome ((import_llm_utils (keyed "sk-openai" [HALF])
                     (with_openai_key (cfg false false false) "sk-revoked") ;;;
                   create_embedding_with_ada
                     (keyed "sk-openai" [HALF])
                     (with_openai_key (cfg false false false) "sk-revoked") "hi") "none")
         = Raise INVALID_KEY).
Proof.
  split; [|split; reflexivity].
  intros W P CFG1 CFG2 text w Hkey Hazure Hid. cbv zeta.
  assert (Hrq : ada_request CFG1 text = ada_request CFG2 text)
    by (unfold ada_request; rewrite Hazure, Hid; reflexivity).
  unfold bind, import_llm_utils, create_embedding_with_ada, range.
  rewrite Hkey.
  destruct (embedding_attempts P CFG1 10 (seq 0 10) text
              (set_api_key P (openai_api_key CFG2) w)) as [[r1 u1] t1] eqn:E1.
  destruct (embedding_attempts P CFG2 10 (seq 0 10) text
              (set_api_key P (openai_api_key CFG2) w)) as [[r2 u2] t2] eqn:E2.
  apply (embedding_attempts_config P CFG1 CFG2 text Hrq _ _ _ E1 E2).
Qed.

Lemma chat_request_debug W (P : Provider W) H A fmt CFG debug fuel messages model temp mt :
  chat_request P H A fmt (with_debug CFG debug) fuel messages model temp mt
  = chat_request P H A fmt CFG fuel messages model temp mt.
Proof. reflexivity. Qed.

Lemma chat_attempts_debug W (P : Provider W) H A fmt CFG debug fuel messages model temp mt :
  forall todo warned w r1 u1 t1 r2 u2 t2,
    chat_attempts P H A fmt CFG fuel 10 todo warned messages model temp mt w
    = (r1, u1, t1) ->
    chat_attempts P H A fmt (with_debug CFG debug) fuel 10 todo warned
                  messages model temp mt w
    = (r2, u2, t2) ->
    r1 = r2 /\ u1 = u2 /\ without_prints t1 = without_prints t2.
Proof.
  induction todo as [|attempt rest IH]; intros warned w r1 u1 t1 r2 u2 t2 H1 H2.
  { inversion H1; inversion H2; subst. repeat split. }
  rewrite chat_attempts_cons in H1, H2. rewrite chat_request_debug in H2.
  unfold bind at 1 in H1. unfold bind at 1 in H2. unfold try in H1, H2.
  destruct (chat_request P H A fmt CFG fuel messages model temp mt w) as [[rb w1] tb].
  destruct rb as [v|e|c|]; simpl in H1, H2;
    try (inversion H1; inversion H2; subst; repeat split; reflexivity).
  unfold bind, when, emit, ret, raise, time_sleep in H1, H2.
  cbn [debug_mode with_debug elapse] in H2.
  destruct e as [m|m st|m|m|m|c m]; simpl in H1, H2;
    try (inversion H1; inversion H2; subst; repeat split; reflexivity).
  - destruct (debug_mode CFG), debug, warned; simpl in H1, H2;
      fold (backoff attempt) in H1, H2;
      match type of H1 with context [chat_attempts ?a1 ?a2 ?a3 ?a4 ?a5 ?a6 ?a7 ?a8 ?a9 ?b1 ?b2 ?b3 ?b4 ?b5] =>
        destruct (chat_attempts a1 a2 a3 a4 a5 a6 a7 a8 a9 b1 b2 b3 b4 b5)
          as [[r1' u1'] t1'] eqn:E1 end;
      match type of H2 with context [chat_attempts ?a1 ?a2 ?a3 ?a4 ?a5 ?a6 ?a7 ?a8 ?a9 ?b1 ?b2 ?b3 ?b4 ?b5] =>
        destruct (chat_attempts a1 a2 a3 a4 a5 a6 a7 a8 a9 b1 b2 b3 b4 b5)
          as [[r2' u2'] t2'] eqn:E2 end;
      destruct (IH _ _ _ _ _ _ _ _ E1 E2) as [Ho [Hw Ht]];
      inversion H1; inversion H2; subst;
      unfold without_prints in *; rewrite !filter_app; cbn [filter is_print negb];
      rewrite ?Ht; repeat split; reflexivity.
  - destruct (is_502 st); simpl in H1, H2;
      try (inversion H1; inversion H2; subst; repeat split; reflexivity).
    destruct (Nat.eqb attempt 9); simpl in H1, H2;
      try (inversion H1; inversion H2; subst; repeat split; reflexivity).
    destruct (debug_mode CFG), debug; simpl in H1, H2;
      fold (backoff attempt) in H1, H2;
      match type of H1 with context [chat_attempts ?a1 ?a2 ?a3 ?a4 ?a5 ?a6 ?a7 ?a8 ?a9 ?b1 ?b2 ?b3 ?b4 ?b5] =>
        destruct (chat_attempts a1 a2 a3 a4 a5 a6 a7 a8 a9 b1 b2 b3 b4 b5)
          as [[r1' u1'] t1'] eqn:E1 end;
      match type of H2 with context [chat_attempts ?a1 ?a2 ?a3 ?a4 ?a5 ?a6 ?a7 ?a8 ?a9 ?b1 ?b2 ?b3 ?b4 ?b5] =>
        destruct (chat_attempts a1 a2 a3 a4 a5 a6 a7 a8 a9 b1 b2 b3 b4 b5)
          as [[r2' u2'] t2'] eqn:E2 end;
      destruct (IH _ _ _ _ _ _ _ _ E1 E2) as [Ho [Hw Ht]];
      inversion H1; inversion H2; subst;
      unfold without_prints in *; rewrite !filter_app; cbn [filter is_print negb];
      rewrite ?Ht; repeat split; reflexivity.
Qed.

(** X13. The debug flag of the configuration changes two things in
    [create_chat_completion]: the prints, and how exhaustion ends (the
    [RuntimeError] instead of [quit(1)]).  With the flag set either way the
    provider is left in the same state, the traces are the same but for the
    prints, and the outcomes are the same unless both are the outcome of
    exhaustion. *)
Theorem debug_flag_changes_prints_and_exhaustion W (P : Provider W) H A fmt CFG debug
    fuel messages model temp mt w :
  let run := create_chat_completion P H A fmt CFG fuel messages model temp mt w in
  let run' := create_chat_completion P H A fmt (with_debug CFG debug) fuel
                                     messages model temp mt w in
  final_world run' = final_world run
  /\ without_prints (trace run') = without_prints (trace run)
  /\ (outcome run' = outcome run
      \/ (outcome run = exhaustion_outcome (debug_mode CFG)
          /\ outcome run' = exhaustion_outcome debug)).
Proof.
  destruct (create_chat_completion_loop P H A fmt CFG fuel messages model temp mt w)
    as [r1 [u1 [t1 [Hloop1 Hrun1]]]].
  destruct (create_chat_completion_loop P H A fmt (with_debug CFG debug) fuel
              messages model temp mt w)
    as [r2 [u2 [t2 [Hloop2 Hrun2]]]].
  destruct (chat_attempts_debug P H A fmt CFG debug fuel messages model temp mt
              _ _ _ Hloop1 Hloop2) as [Hr [Hu Ht]].
  subst r2 u2.
  simpl. rewrite Hrun1, Hrun2. unfold outcome, final_world, trace. simpl.
  assert (Hpro : forall C, without_prints (prologue C model temp mt) = [])
    by (intros C; unfold prologue; destruct (debug_mode C); reflexivity).
  rewrite !without_prints_app, !Hpro, Ht.
  split; [reflexivity|].
  destruct r1 as [[v|]|e|c|]; simpl.
  - split; [reflexivity|]. left. reflexivity.
  - split; [reflexivity|]. right. split; reflexivity.
  - split; [reflexivity|]. left. reflexivity.
  - split; [reflexivity|]. left. reflexivity.
  - split; [reflexivity|]. left. reflexivity.
Qed.

(** ** [call_ai_function] *)

Lemma concat_cons sep x l :
  l <> [] -> String.concat sep (x :: l) = x +++ sep +++ String.concat sep l.
Proof. destruct l; [contradiction | reflexivity]. Qed.

Lemma concat_split sep a b post :
  forall pre,
    String.concat sep (pre ++ (a +++ sep +++ b) :: post)
    = String.concat sep (pre ++ a :: b :: post).
Proof.
  induction pre as [|x pre IH].
  - simpl app. rewrite (concat_cons sep a (l:=b :: post)) by discriminate.
    destruct post as [|p post].
    + reflexivity.
    + rewrite (concat_cons sep (a +++ sep +++ b) (l:=p :: post)) by discriminate.
      rewrite (concat_cons sep b (l:=p :: post)) by discriminate.
      rewrite !append_assoc. reflexivity.
  - simpl app.
    rewrite !concat_cons by (destruct pre; discriminate).
    rewrite IH. reflexivity.
Qed.

Lemma render_args_split pre a b post :
  render_args (pre ++ Some (a +++ ", " +++ b) :: post)
  = render_args (pre ++ Some a :: Some b :: post).
Proof.
  unfold render_args. rewrite !map_app. cbn [map render_arg]. apply concat_split.
Qed.

Lemma render_args_none pre post :
  render_args (pre ++ None :: post) = render_args (pre ++ Some "None" :: post).
Proof. unfold render_args. rewrite !map_app. reflexivity. Qed.

(** X14. [call_ai_function] flattens its arguments into one comma-separated
    string, so the call cannot tell an argument that contains [", "] from two
    arguments, nor [None] from the string ["None"]: the runs are the same. *)
Theorem call_ai_function_flattens_arguments W (P : Provider W) H A fmt CFG smart fuel
    function description model w pre post a b :
  call_ai_function P H A fmt CFG smart fuel function
                   (pre ++ Some (a +++ ", " +++ b) :: post) description model w
  = call_ai_function P H A fmt CFG smart fuel function
                     (pre ++ Some a :: Some b :: post) description model w
  /\ call_ai_function P H A fmt CFG smart fuel function
                      (pre ++ None :: post) description model w
     = call_ai_function P H A fmt CFG smart fuel function
                        (pre ++ Some "None" :: post) description model w.
Proof.
  unfold call_ai_function. rewrite render_args_split, render_args_none.
  split; reflexivity.
Qed.

(** X15. Outside the Claude family, every request of [call_ai_function] is
    the same chat request: the system message with the description and the
    function, the user message with the flattened arguments, the given model
    or else the configured smart model, temperature 0 and no token ceiling;
    at most ten are sent. *)
Theorem call_ai_function_request W (P : Provider W) H A fmt CFG smart fuel
    function args description model w :
  use_claude CFG = false ->
  let t := trace (call_ai_function P H A fmt CFG smart fuel function args
                                   description model w) in
  requests t
  = repeat (ReqChat (openai_request CFG
                       (ai_function_messages function args description)
                       (Some (match model with None => smart | Some m => m end))
                       ZERO None))
           (List.length (requests t))
  /\ (List.length (requests t) <= 10)%nat.
Proof.
  intros Hopenai. unfold call_ai_function.
  destruct (chat_completion_single P H A fmt CFG fuel
              (ai_function_messages function args description)
              (Some (match model with None => smart | Some m => m end))
              ZERO None w Hopenai)
    as [r0 [t0 [Hrun [_ Htr]]]].
  unfold ai_function_messages in *. cbv zeta. rewrite Htr, framed_requests.
  destruct (single_requests (chat_noise_requests (debug_mode CFG))
              (chat_noise_policy_view (debug_mode CFG)) Hrun) as [Heq [Hlen _]].
  split; assumption.
Qed.

(** X16. In the Claude family, [call_ai_function] uses neither its [model]
    argument nor the configured smart model: whatever they are, the outcome,
    the state the provider is left in and the requests are the same. *)
Theorem call_ai_function_claude_ignores_model W (P : Provider W) H A fmt CFG
    smart1 smart2 fuel function args description model1 model2 w :
  use_claude CFG = true ->
  let run1 := call_ai_function P H A fmt CFG smart1 fuel function args
                               description model1 w in
  let run2 := call_ai_function P H A fmt CFG smart2 fuel function args
                               description model2 w in
  outcome run1 = outcome run2
  /\ final_world run1 = final_world run2
  /\ requests (trace run1) = requests (trace run2)
  /\ without_prints (trace run1) = without_prints (trace run2).
Proof.
  intros Hclaude. unfold call_ai_function.
  set (messages := [ {| role := "system"; content := _ |}; {| role := "user"; content := _ |} ]).
  set (m1 := Some (match model1 with None => smart1 | Some m => m end)).
  set (m2 := Some (match model2 with None => smart2 | Some m => m end)).
  destruct (create_chat_completion_loop P H A fmt CFG fuel messages m1 ZERO None w)
    as [r1 [w1 [t1 [Hloop1 Hrun1]]]].
  destruct (create_chat_completion_loop P H A fmt CFG fuel messages m2 ZERO None w)
    as [r2 [w2 [t2 [Hloop2 Hrun2]]]].
  rewrite (chat_attempts_claude P H A fmt CFG Hclaude fuel messages
             m1 ZERO None m2 ZERO None) in Hloop1.
  rewrite Hloop1 in Hloop2. inversion Hloop2; subst r2 w2 t2.
  simpl. rewrite Hrun1, Hrun2. unfold outcome, final_world, trace, without_prints. simpl.
  assert (Hpro : forall model,
             requests (prologue CFG model ZERO None) = []
             /\ filter (fun ev => negb (is_print ev)) (prologue CFG model ZERO None) = []).
  { intros. unfold prologue. destruct (debug_mode CFG); split; reflexivity. }
  rewrite !requests_app, !filter_app.
  destruct (Hpro m1) as [-> ->]. destruct (Hpro m2) as [-> ->].
  repeat split; reflexivity.
Qed.

(** ** These theorems on concrete runs *)

Lemma chat_returns_first_choice_witness :
  exists t0 response c others,
    trace (chat_run flaky_chat true)
    = t0 ++ [Call (ReqChat (openai_request (cfg false false true) (ask "hi")
                                           (Some "gpt-4") THREE_QUARTERS None))
                  (inr (RepChat response))]
    /\ choices response = c :: others
    /\ VStr "hello" = VStr (content (choice_message c)).
Proof.
  apply (chat_returns_first_choice (scripted (chat_script flaky_chat)) HUMAN ASSISTANT
           show_messages (cfg false false true) 0 (ask "hi") (Some "gpt-4")
           THREE_QUARTERS None 0%nat (v := VStr "hello")).
  - reflexivity.
  - reflexivity.
Defined.

Lemma chat_reply_decides_witness :
  exists t0 response,
    RepChat {| choices := [] |} = RepChat response
    /\ ReqChat (openai_request (cfg false false false) (ask "hi")
                               (Some "gpt-4") THREE_QUARTERS None)
       = ReqChat (openai_request (cfg false false false) (ask "hi")
                                 (Some "gpt-4") THREE_QUARTERS None)
    /\ trace (chat_run [inl RATE_LIMIT; inr {| choices := [] |}; chat_reply "late"] false)
       = t0 ++ [Call (ReqChat (openai_request (cfg false false false) (ask "hi")
                                              (Some "gpt-4") THREE_QUARTERS None))
                     (inr (RepChat {| choices := [] |}))]
    /\ (forall rq' answer', ~ In (Call rq' (inr answer')) t0)
    /\ outcome (chat_run [inl RATE_LIMIT; inr {| choices := [] |}; chat_reply "late"] false)
       = match choices response with
         | [] => Raise list_index_error
         | c :: _ => Return (VStr (content (choice_message c)))
         end.
Proof.
  apply (chat_reply_decides
           (scripted (chat_script [inl RATE_LIMIT; inr {| choices := [] |};
                                   chat_reply "late"]))
           HUMAN ASSISTANT show_messages (cfg false false false) 0 (ask "hi")
           (Some "gpt-4") THREE_QUARTERS None 0%nat
           (ReqChat (openai_request (cfg false false false) (ask "hi")
                                    (Some "gpt-4") THREE_QUARTERS None))
           (RepChat {| choices := [] |})).
  - reflexivity.
  - right. right. right. left. reflexivity.
Defined.

Lemma chat_one_request_per_attempt_witness :
  requests (trace (chat_run flaky_chat true))
  = repeat (ReqChat (openai_request (cfg false false true) (ask "hi")
                                    (Some "gpt-4") THREE_QUARTERS None))
           (List.length (requests (trace (chat_run flaky_chat true))))
  /\ (List.length (requests (trace (chat_run flaky_chat true))) <= 10)%nat
  /\ (List.length (requests (trace (chat_run flaky_chat true)))
      <= S (List.length (provider_errors (trace (chat_run flaky_chat true)))))%nat.
Proof.
  apply (chat_one_request_per_attempt (scripted (chat_script flaky_chat)) HUMAN ASSISTANT
           show_messages (cfg false false true) 0 (ask "hi") (Some "gpt-4")
           THREE_QUARTERS None 0%nat).
  reflexivity.
Defined.

Lemma chat_quits_only_on_exhaustion_witness :
  1 = 1
  /\ debug_mode (cfg false false false) = false
  /\ List.length (provider_errors (trace (chat_run (repeat (inl RATE_LIMIT) 10) false)))
     = 10%nat
  /\ all_retryable 0 (provider_errors (trace (chat_run (repeat (inl RATE_LIMIT) 10) false)))
     = true
  /\ sleeps (trace (chat_run (repeat (inl RATE_LIMIT) 10) false))
     = [4; 8; 16; 32; 64; 128; 256; 512; 1024; 2048]
  /\ exists t0,
       trace (chat_run (repeat (inl RATE_LIMIT) 10) false)
       = t0 ++ [TypewriterLog FAILED_TITLE Fore_RED FAILED_TEXT; DoubleCheck None].
Proof.
  apply (chat_quits_only_on_exhaustion
           (scripted (chat_script (repeat (inl RATE_LIMIT) 10))) HUMAN ASSISTANT
           show_messages (cfg false false false) 0 (ask "hi") (Some "gpt-4")
           THREE_QUARTERS None 0%nat (code := 1)).
  reflexivity.
Defined.

Lemma total_backoff_bounded_witness :
  sleeps (trace (ada_run flaky_ada false))
  = firstn (List.length (sleeps (trace (ada_run flaky_ada false))))
           [4; 8; 16; 32; 64; 128; 256; 512; 1024; 2048]
  /\ (List.length (sleeps (trace (ada_run flaky_ada false))) <= 10)%nat
  /\ (List.length (sleeps (trace (ada_run flaky_ada false)))
      <= List.length (provider_errors (trace (ada_run flaky_ada false))))%nat
  /\ 0 <= total (sleeps (trace (ada_run flaky_ada false))) <= 4092.
Proof.
  apply (total_backoff_bounded (scripted (embedding_script flaky_ada)) HUMAN ASSISTANT
           show_messages (cfg false false false) 0 (ask "hi") (Some "gpt-4")
           THREE_QUARTERS None "hi" 0%nat).
  right. reflexivity.
Defined.

Lemma sendReq_returns_complete_conversations_witness :
  exists first replies,
    conversation (cfg true false false) HUMAN ASSISTANT MAX_TOKEN_ONCE "count"
                 (part "one" "max_tokens")
                 [part "two " "max_tokens"; part "three" "stop_sequence"]
    = conversation (cfg true false false) HUMAN ASSISTANT MAX_TOKEN_ONCE "count"
                   first replies
    /\ conversed (scripted (completions_script
                              [truncated "one"; truncated "two "; complete "three"]))
                 (cfg true false false) HUMAN ASSISTANT MAX_TOKEN_ONCE "count"
                 0%nat first replies 3%nat
    /\ length_limited_until_last first replies = true
    /\ stitch_all (completion first) (map completion replies) = Return "one two three"
    /\ (List.length replies <= 2)%nat.
Proof.
  apply (sendReq_returns_complete_conversations
           (scripted (completions_script
                        [truncated "one"; truncated "two "; complete "three"]))
           HUMAN ASSISTANT (cfg true false false) 2 "count" MAX_TOKEN_ONCE 0%nat).
  reflexivity.
Defined.

Lemma sendReq_failure_propagates_witness :
  outcome (sendReq (scripted (completions_script [truncated "one"; inl RATE_LIMIT]))
                   HUMAN ASSISTANT (cfg true false false) 2 "count" MAX_TOKEN_ONCE 0%nat)
  = Raise RATE_LIMIT
  /\ exists t0 rq,
       trace (sendReq (scripted (completions_script [truncated "one"; inl RATE_LIMIT]))
                      HUMAN ASSISTANT (cfg true false false) 2 "count"
                      MAX_TOKEN_ONCE 0%nat)
       = t0 ++ [Call rq (inl RATE_LIMIT)]
       /\ quiet t0.
Proof.
  apply (sendReq_failure_propagates
           (scripted (completions_script [truncated "one"; inl RATE_LIMIT]))
           HUMAN ASSISTANT (cfg true false false) 2 "count" MAX_TOKEN_ONCE 0%nat).
  left. reflexivity.
Defined.

Lemma sendReq_keeps_every_character_witness :
  unspaced "one two three"
  = unspaced (joined_text (replied_texts
                (conversation (cfg true false false) HUMAN ASSISTANT MAX_TOKEN_ONCE "count"
                              (part "one" "max_tokens")
                              [part "two " "max_tokens"; part "three" "stop_sequence"])))
  /\ (String.length (joined_text (replied_texts
                (conversation (cfg true false false) HUMAN ASSISTANT MAX_TOKEN_ONCE "count"
                              (part "one" "max_tokens")
                              [part "two " "max_tokens"; part "three" "stop_sequence"])))
      <= String.length "one two three")%nat
  /\ (String.length "one two three"
      < String.length (joined_text (replied_texts
                (conversation (cfg true false false) HUMAN ASSISTANT MAX_TOKEN_ONCE "count"
                              (part "one" "max_tokens")
                              [part "two " "max_tokens"; part "three" "stop_sequence"])))
        + List.length (replied_texts
                (conversation (cfg true false false) HUMAN ASSISTANT MAX_TOKEN_ONCE "count"
                              (part "one" "max_tokens")
                              [part "two " "max_tokens"; part "three" "stop_sequence"])))%nat.
Proof.
  apply (sendReq_keeps_every_character
           (scripted (completions_script
                        [truncated "one"; truncated "two "; complete "three"]))
           HUMAN ASSISTANT (cfg true false false) 2 "count" MAX_TOKEN_ONCE 0%nat
           (w' := 3%nat)).
  reflexivity.
Defined.

Lemma embedding_reads_four_settings_witness :
  outcome ((import_llm_utils (scripted (embedding_script flaky_ada)) (cfg true false true) ;;;
            create_embedding_with_ada (scripted (embedding_script flaky_ada))
                                      (cfg true false true) "hi") 0%nat)
  = outcome ((import_llm_utils (scripted (embedding_script flaky_ada))
                               (cfg false false false) ;;;
              create_embedding_with_ada (scripted (embedding_script flaky_ada))
                                        (cfg false false false) "hi") 0%nat)
  /\ final_world
       ((import_llm_utils (scripted (embedding_script flaky_ada)) (cfg true false true) ;;;
         create_embedding_with_ada (scripted (embedding_script flaky_ada))
                                   (cfg true false true) "hi") 0%nat)
     = final_world
         ((import_llm_utils (scripted (embedding_script flaky_ada))
                            (cfg false false false) ;;;
           create_embedding_with_ada (scripted (embedding_script flaky_ada))
                                     (cfg false false false) "hi") 0%nat)
  /\ without_prints
       (trace
          ((import_llm_utils (scripted (embedding_script flaky_ada)) (cfg true false true) ;;;
            create_embedding_with_ada (scripted (embedding_script flaky_ada))
                                      (cfg true false true) "hi") 0%nat))
     = without_prints
         (trace
            ((import_llm_utils (scripted (embedding_script flaky_ada))
                               (cfg false false false) ;;;
              create_embedding_with_ada (scripted (embedding_script flaky_ada))
                                        (cfg false false false) "hi") 0%nat)).
Proof.
  apply (proj1 embedding_reads_four_settings nat
           (scripted (embedding_script flaky_ada))
           (cfg true false true) (cfg false false false) "hi" 0%nat).
  - reflexivity.
  - reflexivity.
  - reflexivity.
Defined.

Lemma call_ai_function_request_witness :
  requests (trace (call_ai_function (scripted (chat_script flaky_chat)) HUMAN ASSISTANT
                     show_messages (cfg false false false) "gpt-4" 0
                     "def add(a, b):" [Some "1"; None] "Adds two numbers" None 0%nat))
  = repeat (ReqChat (openai_request (cfg false false false)
                       (ai_function_messages "def add(a, b):" [Some "1"; None]
                                             "Adds two numbers")
                       (Some "gpt-4") ZERO None))
           (List.length
              (requests (trace (call_ai_function (scripted (chat_script flaky_chat))
                                  HUMAN ASSISTANT show_messages (cfg false false false)
                                  "gpt-4" 0 "def add(a, b):" [Some "1"; None]
                                  "Adds two numbers" None 0%nat))))
  /\ (List.length
        (requests (trace (call_ai_function (scripted (chat_script flaky_chat))
                            HUMAN ASSISTANT show_messages (cfg false false false)
                            "gpt-4" 0 "def add(a, b):" [Some "1"; None]
                            "Adds two numbers" None 0%nat))) <= 10)%nat.
Proof.
  apply (call_ai_function_request (scripted (chat_script flaky_chat)) HUMAN ASSISTANT
           show_messages (cfg false false false) "gpt-4" 0 "def add(a, b):"
           [Some "1"; None] "Adds two numbers" None 0%nat).
  reflexivity.
Defined.

Lemma call_ai_function_claude_ignores_model_witness :
  outcome (call_ai_function (scripted (completions_script [truncated "4"; complete "2"]))
             HUMAN ASSISTANT show_messages (cfg true false false) "gpt-4" 1
             "def f():" [] "Answers" (Some "gpt-3.5-turbo") 0%nat)
  = outcome (call_ai_function (scripted (completions_script [truncated "4"; complete "2"]))
               HUMAN ASSISTANT show_messages (cfg true false false) "gpt-4-32k" 1
               "def f():" [] "Answers" None 0%nat)
  /\ final_world (call_ai_function (scripted (completions_script [truncated "4"; complete "2"]))
                    HUMAN ASSISTANT show_messages (cfg true false false) "gpt-4" 1
                    "def f():" [] "Answers" (Some "gpt-3.5-turbo") 0%nat)
     = final_world (call_ai_function
                      (scripted (completions_script [truncated "4"; complete "2"]))
                      HUMAN ASSISTANT show_messages (cfg true false false) "gpt-4-32k" 1
                      "def f():" [] "Answers" None 0%nat)
  /\ requests (trace (call_ai_function
                        (scripted (completions_script [truncated "4"; complete "2"]))
                        HUMAN ASSISTANT show_messages (cfg true false false) "gpt-4" 1
                        "def f():" [] "Answers" (Some "gpt-3.5-turbo") 0%nat))
     = requests (trace (call_ai_function
                          (scripted (completions_script [truncated "4"; complete "2"]))
                          HUMAN ASSISTANT show_messages (cfg true false false) "gpt-4-32k" 1
                          "def f():" [] "Answers" None 0%nat))
  /\ without_prints (trace (call_ai_function
                              (scripted (completions_script [truncated "4"; complete "2"]))
                              HUMAN ASSISTANT show_messages (cfg true false false) "gpt-4" 1
                              "def f():" [] "Answers" (Some "gpt-3.5-turbo") 0%nat))
     = without_prints (trace (call_ai_function
                                (scripted (completions_script [truncated "4"; complete "2"]))
                                HUMAN ASSISTANT show_messages (cfg true false false)
                                "gpt-4-32k" 1 "def f():" [] "Answers" None 0%nat)).
Proof.
  apply (call_ai_function_claude_ignores_model
           (scripted (completions_script [truncated "4"; complete "2"]))
           HUMAN ASSISTANT show_messages (cfg true false false) "gpt-4" "gpt-4-32k" 1
           "def f():" [] "Answers" (Some "gpt-3.5-turbo") None 0%nat).
  reflexivity.
Defined.
